(** * logpull-logs.py: a shallow embedding and its checked properties

    The script [.opencode/skill/cloudflare-logpull/logpull-logs.py] pulls
    Cloudflare Workers logs over a time window, filters the records and
    prints them one per line.  This file embeds its functions
    ([parse_duration], [parse_iso], [format_time], [read_env], [get_value],
    [parse_records], [main]) together with the part of the Python runtime
    they rest on, and proves the properties of the specification about them.

    Conventions of the embedding:
    - a Python [str] is the list of its code points ([pystr]);
    - [Optional[str]] is [option pystr], with Python's truthiness ([truthy]);
    - a [dict] is an association list in insertion order with unique keys;
    - an aware UTC [datetime] is its number of microseconds since
      0001-01-01T00:00:00Z, within [datetime.min .. datetime.max];
    - an exception is a value of [exn]; [main] runs in a small monad over
      the two output streams and the log of HTTP requests sent.
    Outside the model: the command line before [parser.parse_args()] has
    returned ([main] is embedded from line 105 on, from the parsed
    arguments); the limits of the interpreter, which are the recursion
    depth and the 4300 digits of an [int] read from text; the errors of
    [urlencode] and [urllib.request.Request] on a URL that cannot be
    built; failures of [print].  A statement that would not hold beyond
    one of these says so in a hypothesis ([within_limits], [sendable],
    [INT_MAX_STR_DIGITS]). *)

From Stdlib Require Import List ZArith NArith Bool Ascii String Lia.
From Stdlib Require Import DecimalString.
From Stdlib Require DecimalFacts DecimalPos.
Import ListNotations.

Set Implicit Arguments.
Set Warnings "-register-all".

(** ** Python strings *)

Module Str.

Definition pystr := list N.

Definition ch (a : ascii) : N := N_of_ascii a.

(** An ASCII literal of the source, as a Python string. *)
Definition py (s : string) : pystr := map N_of_ascii (list_ascii_of_string s).

Fixpoint eqb (a b : pystr) : bool :=
  match a, b with
  | [], [] => true
  | x :: a', y :: b' => N.eqb x y && eqb a' b'
  | _, _ => false
  end.

Definition in_range (lo hi c : N) : bool := (N.leb lo c) && (N.leb c hi).

(** [str.isspace] on one code point: the set [str.strip()] removes. *)
Definition isspace (c : N) : bool :=
  in_range 0x09 0x0D c || in_range 0x1C 0x20 c || N.eqb c 0x85 || N.eqb c 0xA0
  || N.eqb c 0x1680 || in_range 0x2000 0x200A c || N.eqb c 0x2028
  || N.eqb c 0x2029 || N.eqb c 0x202F || N.eqb c 0x205F || N.eqb c 0x3000.

(** The line boundaries of [str.splitlines()]. *)
Definition islinebreak (c : N) : bool :=
  in_range 0x0A 0x0D c || in_range 0x1C 0x1E c || N.eqb c 0x85
  || N.eqb c 0x2028 || N.eqb c 0x2029.

Fixpoint lstrip (s : pystr) : pystr :=
  match s with
  | [] => []
  | c :: rest => if isspace c then lstrip rest else s
  end.

Definition rstrip (s : pystr) : pystr := rev (lstrip (rev s)).

Definition strip (s : pystr) : pystr := rstrip (lstrip s).

(** [str.splitlines()]: [cur] is the line being read, [after_cr] says that
    the previous code point was a carriage return, so that a line feed
    right after it belongs to the same boundary. *)
Fixpoint splitlines_from (after_cr : bool) (cur : pystr) (s : pystr)
  : list pystr :=
  match s with
  | [] => match cur with [] => [] | _ => [cur] end
  | c :: rest =>
      if after_cr && N.eqb c 0x0A then splitlines_from false cur rest
      else if islinebreak c then cur :: splitlines_from (N.eqb c 0x0D) [] rest
      else splitlines_from false (cur ++ [c]) rest
  end.

Definition splitlines (s : pystr) : list pystr := splitlines_from false [] s.

(** No line boundary of [splitlines] occurs in [s]. *)
Definition one_line (s : pystr) : bool :=
  forallb (fun c => negb (islinebreak c)) s.

Fixpoint startswith (p s : pystr) : bool :=
  match p, s with
  | [], _ => true
  | a :: p', b :: s' => N.eqb a b && startswith p' s'
  | _ :: _, [] => false
  end.

Definition endswith (p s : pystr) : bool := startswith (rev p) (rev s).

(** [needle in hay]. *)
Fixpoint contains (needle hay : pystr) : bool :=
  startswith needle hay
  || match hay with
     | [] => false
     | _ :: t => contains needle t
     end.

(** [str(n)] for an [int]. *)
Definition of_Z (z : Z) : pystr := py (NilZero.string_of_int (Z.to_int z)).

(** A literal that contains double quotes, written with apostrophes in
    their place: [pyq "{'a': 1}"] is the text [{"a": 1}]. *)
Definition pyq (s : string) : pystr :=
  map (fun c => if N.eqb c 0x27 then 0x22%N else c) (py s).

(** [sep.join(parts)]. *)
Fixpoint join (sep : pystr) (parts : list pystr) : pystr :=
  match parts with
  | [] => []
  | [p] => p
  | p :: rest => p ++ sep ++ join sep rest
  end.

End Str.
Import Str.

(** Truthiness of an [Optional[str]]: [None] and the empty string are false. *)
Definition truthy (v : option pystr) : bool :=
  match v with
  | None | Some [] => false
  | Some (_ :: _) => true
  end.

(** [a or b] on [Optional[str]]. *)
Definition py_or (a b : option pystr) : option pystr :=
  if truthy a then a else b.

(** ** JSON values as [json.loads] builds them *)

Inductive json :=
| JNull
| JBool (b : bool)
| JInt (n : Z)
| JFloat (literal : pystr)
| JStr (s : pystr)
| JArr (items : list json)
| JObj (members : list (pystr * json)).

Definition dict := list (pystr * json).

(** [key in d] and [d[key]] in one: the value stored under [key]. *)
Fixpoint dict_get (d : dict) (key : pystr) : option json :=
  match d with
  | [] => None
  | (k, v) :: rest => if Str.eqb k key then Some v else dict_get rest key
  end.

(** [d[key] = v]: a key already there keeps its place. *)
Fixpoint dict_set (d : dict) (key : pystr) (v : json) : dict :=
  match d with
  | [] => [(key, v)]
  | (k, w) :: rest =>
      if Str.eqb k key then (k, v) :: rest else (k, w) :: dict_set rest key v
  end.

Definition is_dict (v : json) : bool :=
  match v with JObj _ => true | _ => false end.

(** [[item for item in data if isinstance(item, dict)]]. *)
Fixpoint only_dicts (data : list json) : list dict :=
  match data with
  | [] => []
  | JObj d :: rest => d :: only_dicts rest
  | _ :: rest => only_dicts rest
  end.

(** ** The decoder [json.loads]

    The decoder is written as two passes that never need fuel: a scanner
    that reads the text one code point at a time into tokens, and a
    pushdown pass over the tokens that builds the value.  It accepts what
    the interpreter's decoder accepts in its default (strict) mode: the
    four blanks between tokens, strings with their escapes and surrogate
    pairs, the number grammar, [null], [true], [false], [NaN], [Infinity]
    and [-Infinity].  [None] stands for [json.JSONDecodeError].  A float
    is kept as the literal it was read from.  The limits of the
    interpreter are not in it: on an integer of more than 4300 digits
    and on nesting near the recursion limit the interpreter's decoder
    raises a plain [ValueError] or [RecursionError] instead; the bodies
    free of both are those of [within_limits] below. *)

Module Json.

Inductive token :=
| TLBrace | TRBrace | TLBrack | TRBrack | TComma | TColon
| TScalar (v : json).

(** A code unit of a string being read, and whether it was written as a
    [\uXXXX] escape: only escaped surrogates pair up. *)
Definition unit_ := (N * bool)%type.

Inductive mode :=
| Idle
| InString (acc : list unit_)
| InEscape (acc : list unit_)
| InHex (acc : list unit_) (digits : list N)
| InAtom (acc : pystr).

Definition is_ws (c : N) : bool :=
  N.eqb c 0x20 || N.eqb c 0x09 || N.eqb c 0x0A || N.eqb c 0x0D.

Definition is_digit (c : N) : bool := in_range 0x30 0x39 c.

Definition is_atom_char (c : N) : bool :=
  is_digit c || in_range 0x41 0x5A c || in_range 0x61 0x7A c
  || N.eqb c (ch "+") || N.eqb c (ch "-") || N.eqb c (ch ".").

Definition structural (c : N) : option token :=
  if N.eqb c (ch "{") then Some TLBrace
  else if N.eqb c (ch "}") then Some TRBrace
  else if N.eqb c (ch "[") then Some TLBrack
  else if N.eqb c (ch "]") then Some TRBrack
  else if N.eqb c (ch ",") then Some TComma
  else if N.eqb c (ch ":") then Some TColon
  else None.

Definition hex_value (c : N) : option N :=
  if is_digit c then Some (c - 0x30)%N
  else if in_range 0x61 0x66 c then Some (c - 0x61 + 10)%N
  else if in_range 0x41 0x46 c then Some (c - 0x41 + 10)%N
  else None.

(** The character a one-letter escape stands for. *)
Definition unescape (c : N) : option N :=
  if N.eqb c 0x22 then Some 0x22%N
  else if N.eqb c 0x5C then Some 0x5C%N
  else if N.eqb c (ch "/") then Some (ch "/")
  else if N.eqb c (ch "b") then Some 0x08%N
  else if N.eqb c (ch "f") then Some 0x0C%N
  else if N.eqb c (ch "n") then Some 0x0A%N
  else if N.eqb c (ch "r") then Some 0x0D%N
  else if N.eqb c (ch "t") then Some 0x09%N
  else None.

Definition is_high (u : N) : bool := in_range 0xD800 0xDBFF u.
Definition is_low (u : N) : bool := in_range 0xDC00 0xDFFF u.

Fixpoint join_surrogates (us : list unit_) : pystr :=
  match us with
  | [] => []
  | (hi, true) :: (((lo, true) :: rest') as rest) =>
      if is_high hi && is_low lo
      then (0x10000 + (hi - 0xD800) * 0x400 + (lo - 0xDC00))%N
           :: join_surrogates rest'
      else hi :: join_surrogates rest
  | (u, _) :: rest => u :: join_surrogates rest
  end.

Fixpoint span_digits (s : pystr) : pystr * pystr :=
  match s with
  | [] => ([], [])
  | c :: rest =>
      if is_digit c
      then let (ds, r) := span_digits rest in (c :: ds, r)
      else ([], s)
  end.

(** [int(digits)] for ASCII digits. *)
Definition int_of_digits (ds : pystr) : Z :=
  fold_left (fun acc c => (acc * 10 + (Z.of_N c - 0x30))%Z) ds 0%Z.

(** The number grammar on a whole atom: an optional minus sign; an
    integer part that is [0] alone or starts with [1]..[9]; an optional
    fraction, a dot and at least one digit; an optional exponent, [e] or
    [E], an optional sign and at least one digit.  With a fraction or an
    exponent the number is a float, otherwise an int. *)
Definition number_of (a : pystr) : option json :=
  let (neg, s1) := match a with
                   | c :: r => if N.eqb c (ch "-") then (true, r) else (false, a)
                   | [] => (false, a)
                   end in
  let (ip, s2) := span_digits s1 in
  match ip with
  | [] => None
  | d :: ds =>
      if N.eqb d (ch "0") && negb (Nat.eqb (List.length ds) 0) then None
      else
        let frac :=
          match s2 with
          | c :: r =>
              if N.eqb c (ch ".")
              then let (fd, r') := span_digits r in
                   match fd with [] => None | _ => Some (true, r') end
              else Some (false, s2)
          | [] => Some (false, s2)
          end in
        match frac with
        | None => None
        | Some (has_frac, s3) =>
            let expo :=
              match s3 with
              | c :: r =>
                  if N.eqb c (ch "e") || N.eqb c (ch "E")
                  then let r1 := match r with
                                 | sg :: r0 =>
                                     if N.eqb sg (ch "+") || N.eqb sg (ch "-")
                                     then r0 else r
                                 | [] => r
                                 end in
                       let (ed, r') := span_digits r1 in
                       match ed with [] => None | _ => Some (true, r') end
                  else Some (false, s3)
              | [] => Some (false, s3)
              end in
            match expo with
            | Some (has_exp, []) =>
                if has_frac || has_exp then Some (JFloat a)
                else Some (JInt (if neg then - int_of_digits ip
                                 else int_of_digits ip)%Z)
            | _ => None
            end
        end
  end.

Definition classify_atom (a : pystr) : option json :=
  if Str.eqb a (py "null") then Some JNull
  else if Str.eqb a (py "true") then Some (JBool true)
  else if Str.eqb a (py "false") then Some (JBool false)
  else if Str.eqb a (py "NaN") || Str.eqb a (py "Infinity")
          || Str.eqb a (py "-Infinity") then Some (JFloat a)
  else number_of a.

Definition lex_idle (c : N) : option (mode * list token) :=
  if is_ws c then Some (Idle, [])
  else if N.eqb c 0x22 then Some (InString [], [])
  else match structural c with
       | Some t => Some (Idle, [t])
       | None => if is_atom_char c then Some (InAtom [c], []) else None
       end.

Definition lex_step (m : mode) (c : N) : option (mode * list token) :=
  match m with
  | Idle => lex_idle c
  | InAtom a =>
      if is_atom_char c then Some (InAtom (a ++ [c]), [])
      else match classify_atom a, lex_idle c with
           | Some v, Some (m', ts) => Some (m', TScalar v :: ts)
           | _, _ => None
           end
  | InString acc =>
      if N.eqb c 0x22
      then Some (Idle, [TScalar (JStr (join_surrogates acc))])
      else if N.eqb c 0x5C then Some (InEscape acc, [])
      else if N.leb c 0x1F then None
      else Some (InString (acc ++ [(c, false)]), [])
  | InEscape acc =>
      match unescape c with
      | Some u => Some (InString (acc ++ [(u, false)]), [])
      | None => if N.eqb c (ch "u") then Some (InHex acc [], []) else None
      end
  | InHex acc ds =>
      match hex_value c with
      | None => None
      | Some h =>
          let ds' := ds ++ [h] in
          if Nat.eqb (List.length ds') 4
          then let u := fold_left (fun a d => (a * 16 + d)%N) ds' 0%N in
               Some (InString (acc ++ [(u, true)]), [])
          else Some (InHex acc ds', [])
      end
  end.

(** The scanner over a text: the mode it ends in and the tokens read. *)
Fixpoint lex_run (m : mode) (s : pystr) : option (mode * list token) :=
  match s with
  | [] => Some (m, [])
  | c :: rest =>
      match lex_step m c with
      | None => None
      | Some (m', ts) =>
          match lex_run m' rest with
          | None => None
          | Some (m'', ts') => Some (m'', ts ++ ts')
          end
      end
  end.

(** At the end of the text: an atom being read is complete, a string
    being read is not. *)
Definition lex_finish (m : mode) : option (list token) :=
  match m with
  | Idle => Some []
  | InAtom a => option_map (fun v => [TScalar v]) (classify_atom a)
  | _ => None
  end.

Definition lex (s : pystr) : option (list token) :=
  match lex_run Idle s with
  | None => None
  | Some (m, ts) => option_map (app ts) (lex_finish m)
  end.

(** The containers being built, innermost first.  An object frame holds
    the key that waits for its value. *)
Inductive frame :=
| FArr (items : list json)
| FObj (members : dict) (key : pystr).

Inductive phase :=
| Value              (* a value must come *)
| ArrFirst           (* after [[]: a value or [\]] *)
| ObjFirst           (* after [{]: a key or [}] *)
| ObjKey             (* after [,] in an object: a key *)
| ObjColon           (* after a key: [:] *)
| After              (* after a value in a container: [,] or the closer *)
| Done (v : json).   (* the document is complete *)

Definition pstate := (list frame * phase)%type.

(** A value is complete: hand it to the container that waits for it. *)
Definition complete (st : list frame) (v : json) : pstate :=
  match st with
  | [] => ([], Done v)
  | FArr items :: st' => (FArr (items ++ [v]) :: st', After)
  | FObj m k :: st' => (FObj (dict_set m k v) k :: st', After)
  end.

Definition start_value (st : list frame) (t : token) : option pstate :=
  match t with
  | TScalar v => Some (complete st v)
  | TLBrack => Some (FArr [] :: st, ArrFirst)
  | TLBrace => Some (FObj [] [] :: st, ObjFirst)
  | _ => None
  end.

Definition read_key (st : list frame) (t : token) : option pstate :=
  match t, st with
  | TScalar (JStr k), FObj m _ :: st' => Some (FObj m k :: st', ObjColon)
  | _, _ => None
  end.

Definition parse_step (s : pstate) (t : token) : option pstate :=
  let (st, ph) := s in
  match ph with
  | Value => start_value st t
  | ArrFirst =>
      match t, st with
      | TRBrack, FArr _ :: st' => Some (complete st' (JArr []))
      | _, _ => start_value st t
      end
  | ObjFirst =>
      match t, st with
      | TRBrace, FObj _ _ :: st' => Some (complete st' (JObj []))
      | _, _ => read_key st t
      end
  | ObjKey => read_key st t
  | ObjColon => match t with TColon => Some (st, Value) | _ => None end
  | After =>
      match t, st with
      | TComma, FArr _ :: _ => Some (st, Value)
      | TRBrack, FArr items :: st' => Some (complete st' (JArr items))
      | TComma, FObj _ _ :: _ => Some (st, ObjKey)
      | TRBrace, FObj m _ :: st' => Some (complete st' (JObj m))
      | _, _ => None
      end
  | Done _ => None
  end.

Fixpoint parse_run (s : pstate) (ts : list token) : option pstate :=
  match ts with
  | [] => Some s
  | t :: rest =>
      match parse_step s t with
      | None => None
      | Some s' => parse_run s' rest
      end
  end.

Definition parse (ts : list token) : option json :=
  match parse_run ([], Value) ts with
  | Some (_, Done v) => Some v
  | _ => None
  end.

Definition loads (s : pystr) : option json :=
  if startswith [0xFEFF%N] s then None
  else match lex s with
       | None => None
       | Some ts => parse ts
       end.

End Json.

Definition json_loads := Json.loads.

(** ** The rest of the runtime

    What the script takes from the interpreter and its library and this
    file does not define: the Unicode table of decimal digits behind [\d]
    and [int()], the text of a float and of a container under [str()] and
    [json.dumps], [datetime.fromisoformat], and the two renderings of an
    instant that [format_time] chooses from.  The properties below hold
    for every runtime that agrees with the one law stated here. *)

Class PyRuntime := {
  (** the decimal value of a code point of category Nd *)
  decimal_digit : N -> option Z;
  decimal_digit_ascii :
    forall c, (c < 128)%N ->
      decimal_digit c = if Json.is_digit c then Some (Z.of_N c - 0x30)%Z
                        else None;
  (** [str(x)] and [json.dumps(x)] of the float read from a literal *)
  float_str : pystr -> pystr;
  float_json : pystr -> pystr;
  (** [str(x)] of a list or a dict *)
  container_str : json -> pystr;
  (** [datetime.fromisoformat]: the wall-clock reading in microseconds
      since 0001-01-01T00:00:00, and the UTC offset when the text has one;
      [None] stands for [ValueError] *)
  fromisoformat : pystr -> option (Z * option Z);
  (** [value.strftime("%Y-%m-%dT%H:%M:%SZ")] *)
  strftime_rfc3339 : Z -> pystr;
  (** [str(int(value.timestamp()))] *)
  timestamp_str : Z -> pystr
}.

(** ** Exceptions and results *)

Inductive exn :=
| ValueError (msg : pystr)
| OverflowError
| OtherError (name : pystr).

Inductive res (A : Type) :=
| Ok (a : A)
| Raise (e : exn).
Arguments Ok {A} a.
Arguments Raise {A} e.

(** ** Instants and durations *)

Module Time.
Local Open Scope Z_scope.

Definition US_PER_SECOND : Z := 1000000.
Definition US_PER_DAY : Z := 86400 * US_PER_SECOND.

(** [datetime.max] is 9999-12-31T23:59:59.999999, the last microsecond
    of day 3652059. *)
Definition DATETIME_MAX : Z := 3652059 * US_PER_DAY - 1.

(** [dt.timedelta(days=.., hours=.., minutes=.., seconds=..)]: the length
    in microseconds; more than 999999999 days either way cannot be held. *)
Definition timedelta (days hours minutes seconds : Z) : res Z :=
  let total := (((days * 24 + hours) * 60 + minutes) * 60 + seconds)
               * US_PER_SECOND in
  if Z.abs (total / US_PER_DAY) >? 999999999 then Raise OverflowError
  else Ok total.

(** [value - delta] on a datetime: the result must be a datetime. *)
Definition datetime_sub (value delta : Z) : res Z :=
  let r := value - delta in
  if (r <? 0) || (r >? DATETIME_MAX) then Raise OverflowError else Ok r.

End Time.

(** ** The world [main] acts on *)

(** [urllib.request.Request(url, headers=...)], with the URL kept as the
    endpoint and the query parameters that [urlencode] joins to it. *)
Record request := {
  req_endpoint : pystr;
  req_params : list (pystr * pystr);
  req_headers : list (pystr * pystr)
}.

(** What [urlopen(...)] followed by [response.read().decode("utf-8")]
    comes to. *)
Inductive net_result :=
| Body (payload : pystr)
| HTTPError (code : Z) (reason : pystr) (body : option pystr)
| URLError (reason : pystr)
| Failure (e : exn).

(** The lines [print] has written to each stream, one entry for each
    call, and the requests sent. *)
Record world := {
  stdout : list pystr;
  stderr : list pystr;
  sent : list request
}.

Definition world0 : world := {| stdout := []; stderr := []; sent := [] |}.

(** The bytes on standard output: [print] ends each text with a line feed. *)
Definition stdout_text (w : world) : pystr :=
  flat_map (fun line => line ++ [0x0A%N]) (stdout w).

Inductive step (A : Type) :=
| Next (a : A) (w : world)
| Return (code : Z) (w : world)
| Throw (e : exn) (w : world).
Arguments Next {A} a w.
Arguments Return {A} code w.
Arguments Throw {A} e w.

Definition M (A : Type) := world -> step A.

Definition ret {A} (a : A) : M A := fun w => Next a w.

Definition bind {A B} (m : M A) (k : A -> M B) : M B :=
  fun w => match m w with
           | Next a w' => k a w'
           | Return code w' => Return code w'
           | Throw e w' => Throw e w'
           end.

Notation "x <- m ;; k" := (bind m (fun x => k))
  (at level 61, m at next level, right associativity).
Notation "m ;; k" := (bind m (fun _ => k))
  (at level 61, right associativity).

(** [return code] from [main]. *)
Definition return_ {A} (code : Z) : M A := fun w => Return code w.

Definition throw {A} (e : exn) : M A := fun w => Throw e w.

(** [w] with [lines] written to standard output after what is there. *)
Definition emitted (w : world) (lines : list pystr) : world :=
  {| stdout := stdout w ++ lines; stderr := stderr w; sent := sent w |}.

Definition print (text : pystr) : M unit :=
  fun w => Next tt (emitted w [text]).

Definition print_stderr (text : pystr) : M unit :=
  fun w => Next tt {| stdout := stdout w; stderr := stderr w ++ [text];
                      sent := sent w |}.

Definition urlopen (net : request -> net_result) (r : request)
  : M net_result :=
  fun w => Next (net r) {| stdout := stdout w; stderr := stderr w;
                           sent := sent w ++ [r] |}.

(** ** The script *)

Section Script.
Context {rt : PyRuntime}.
Local Open Scope Z_scope.

(** *** [parse_duration] *)

(** The leading run of [\d] code points, as their values, and the rest. *)
Fixpoint span_decimal (s : pystr) : list Z * pystr :=
  match s with
  | [] => ([], [])
  | c :: rest =>
      match decimal_digit c with
      | Some d => let (ds, r) := span_decimal rest in (d :: ds, r)
      | None => ([], s)
      end
  end.

Definition is_unit (c : N) : bool :=
  N.eqb c (ch "s") || N.eqb c (ch "m") || N.eqb c (ch "h") || N.eqb c (ch "d").

(** [re.match(r"^(\d+)([smhd])$", s)]: the digits of group 1 and the
    unit of group 2.  [$] also matches before a final line feed. *)
Definition re_match_duration (s : pystr) : option (list Z * N) :=
  match span_decimal s with
  | ((_ :: _) as ds, [u]) => if is_unit u then Some (ds, u) else None
  | ((_ :: _) as ds, [u; nl]) =>
      if is_unit u && N.eqb nl 0x0A then Some (ds, u) else None
  | _ => None
  end.

(** [int(match.group(1))], as long as the digits are at most 4300
    ([INT_MAX_STR_DIGITS] below); with more, [int] raises [ValueError],
    which is not modelled. *)
Definition int_ (ds : list Z) : Z := fold_left (fun acc d => acc * 10 + d) ds 0.

Definition parse_duration (value : pystr) : res Z :=
  match re_match_duration (strip value) with
  | None => Raise (ValueError (py "Duration must be like 15m, 2h, 1d"))
  | Some (digits, unit) =>
      let amount := int_ digits in
      if N.eqb unit (ch "s") then Time.timedelta 0 0 0 amount
      else if N.eqb unit (ch "m") then Time.timedelta 0 0 amount 0
      else if N.eqb unit (ch "h") then Time.timedelta 0 amount 0 0
      else Time.timedelta amount 0 0 0
  end.

(** *** [parse_iso] *)

Definition parse_iso (value : pystr) : res Z :=
  let cleaned := strip value in
  let cleaned := if endswith (py "Z") cleaned
                 then removelast cleaned ++ py "+00:00"
                 else cleaned in
  match fromisoformat cleaned with
  | None => Raise (ValueError (py "Invalid isoformat string"))
  | Some (parsed, None) => Ok parsed
  | Some (parsed, Some offset) => Time.datetime_sub parsed offset
  end.

(** *** [format_time] *)

Definition format_time (value : Z) (mode : pystr) : pystr :=
  if Str.eqb mode (py "unix") then timestamp_str value
  else strftime_rfc3339 value.

(** *** [read_env] *)

Definition environ := pystr -> option pystr.

Definition read_env (env : environ) (name : pystr) (default : option pystr)
  : option pystr :=
  match env name with
  | None => default
  | Some value => Some value
  end.

(** *** [get_value] *)

(** [str(value)] for a value that is not [None]. *)
Definition py_str (value : json) : pystr :=
  match value with
  | JNull => py "None"
  | JBool true => py "True"
  | JBool false => py "False"
  | JInt n => of_Z n
  | JFloat lit => float_str lit
  | JStr s => s
  | JArr _ | JObj _ => container_str value
  end.

Fixpoint get_value (record : dict) (keys : list pystr) : option pystr :=
  match keys with
  | [] => None
  | key :: keys' =>
      match dict_get record key with
      | Some value =>
          match value with
          | JNull => None
          | _ => Some (py_str value)
          end
      | None => get_value record keys'
      end
  end.

(** *** [parse_records] *)

(** The loop over [payload.splitlines()]. *)
Fixpoint parse_lines (lines : list pystr) : list dict :=
  match lines with
  | [] => []
  | line :: rest =>
      let line := strip line in
      match line with
      | [] => parse_lines rest
      | _ =>
          match json_loads line with
          | None => parse_lines rest
          | Some (JObj parsed) => parsed :: parse_lines rest
          | Some _ => parse_lines rest
          end
      end
  end.

Definition parse_records (payload : pystr) : list dict :=
  match strip payload with
  | [] => []
  | _ =>
      match json_loads payload with
      | Some (JArr data) => only_dicts data
      | Some (JObj data) => [data]
      | _ => parse_lines (splitlines payload)
      end
  end.

(** *** [json.dumps(record, ensure_ascii=True)] *)

Definition hex_digit (n : N) : N :=
  if N.ltb n 10 then (0x30 + n)%N else (0x61 + (n - 10))%N.

Definition u_escape (u : N) : pystr :=
  [0x5C%N; ch "u"; hex_digit (N.modulo (N.div u 4096) 16);
   hex_digit (N.modulo (N.div u 256) 16); hex_digit (N.modulo (N.div u 16) 16);
   hex_digit (N.modulo u 16)].

Definition escape_char (c : N) : pystr :=
  if N.eqb c 0x22 then [0x5C%N; 0x22%N]
  else if N.eqb c 0x5C then [0x5C%N; 0x5C%N]
  else if N.eqb c 0x0A then [0x5C%N; ch "n"]
  else if N.eqb c 0x0D then [0x5C%N; ch "r"]
  else if N.eqb c 0x09 then [0x5C%N; ch "t"]
  else if N.eqb c 0x08 then [0x5C%N; ch "b"]
  else if N.eqb c 0x0C then [0x5C%N; ch "f"]
  else if in_range 0x20 0x7E c then [c]
  else if N.ltb c 0x10000 then u_escape c
  else let v := (c - 0x10000)%N in
       u_escape (0xD800 + N.div v 0x400) ++ u_escape (0xDC00 + N.modulo v 0x400).

Definition encode_string (s : pystr) : pystr :=
  [0x22%N] ++ flat_map escape_char s ++ [0x22%N].

Fixpoint json_dumps (v : json) : pystr :=
  match v with
  | JNull => py "null"
  | JBool true => py "true"
  | JBool false => py "false"
  | JInt n => of_Z n
  | JFloat lit => float_json lit
  | JStr s => encode_string s
  | JArr items => py "[" ++ join (py ", ") (map json_dumps items) ++ py "]"
  | JObj members =>
      py "{"
      ++ join (py ", ")
           (map (fun kv => match kv with
                           | (k, x) => encode_string k ++ py ": " ++ json_dumps x
                           end) members)
      ++ py "}"
  end.

(** [json.dumps(record, ensure_ascii=True)] for a record. *)
Definition dumps_record (record : dict) : pystr := json_dumps (JObj record).

(** *** [main] *)

(** [args], as [parser.parse_args()] returns it. *)
Record Args := {
  arg_since : option pystr;
  arg_start : option pystr;
  arg_end : option pystr;
  arg_ray : option pystr;
  arg_worker : option pystr;
  arg_status : option pystr;
  arg_path : option pystr;
  arg_contains : option pystr;
  arg_fields : option pystr;
  arg_dataset : option pystr;
  arg_endpoint : option pystr;
  arg_limit : option Z;
  arg_sample : option pystr;
  arg_raw : bool
}.

(** The text an f-string puts for an [Optional[str]]. *)
Definition fmt (v : option pystr) : pystr :=
  match v with
  | Some s => s
  | None => py "None"
  end.

(** Lines 112-131: the time window [(start_time, end_time)].  [now] is
    what [dt.datetime.now(dt.timezone.utc)] reads. *)
Definition main_window (args : Args) (now : Z) : M (Z * Z) :=
  match arg_since args with
  | Some ((_ :: _) as since) =>
      let end_time := now in
      match parse_duration since with
      | Ok delta =>
          match Time.datetime_sub end_time delta with
          | Ok start_time => ret (start_time, end_time)
          | Raise (ValueError msg) => print_stderr msg ;; return_ 1
          | Raise e => throw e
          end
      | Raise (ValueError msg) => print_stderr msg ;; return_ 1
      | Raise e => throw e
      end
  | _ =>
      match arg_start args, arg_end args with
      | Some ((_ :: _) as start), Some ((_ :: _) as end_) =>
          let invalid :=
            print_stderr
              (py "Invalid time format; use RFC3339 like 2026-01-27T12:00:00Z")
            ;; return_ 1 in
          match parse_iso start with
          | Ok start_time =>
              match parse_iso end_ with
              | Ok end_time => ret (start_time, end_time)
              | Raise (ValueError _) => invalid
              | Raise e => throw e
              end
          | Raise (ValueError _) => invalid
          | Raise e => throw e
          end
      | _, _ =>
          print_stderr (py "Provide --since or both --from/--to") ;; return_ 1
      end
  end.

(** Lines 133-164: the request. *)
Definition main_request (args : Args) (env : environ)
    (account_id token : pystr) (time_format : pystr)
    (start_time end_time : Z) : request :=
  let endpoint :=
    py_or (arg_endpoint args)
      (py_or (read_env env (py "CLOUDFLARE_LOGPULL_ENDPOINT") None)
         (Some (fmt (read_env env (py "CLOUDFLARE_LOGPULL_BASE_URL")
                       (Some (py "https://api.cloudflare.com/client/v4")))
                ++ py "/accounts/" ++ account_id ++ py "/logs/received"))) in
  let params := [(py "start", format_time start_time time_format);
                 (py "end", format_time end_time time_format)] in
  let dataset :=
    py_or (arg_dataset args)
      (read_env env (py "CLOUDFLARE_LOGPULL_DATASET")
         (Some (py "workers_trace_events"))) in
  let params := if truthy dataset then params ++ [(py "dataset", fmt dataset)]
                else params in
  let fields := py_or (arg_fields args)
                  (read_env env (py "CLOUDFLARE_LOGPULL_FIELDS") None) in
  let params := if truthy fields then params ++ [(py "fields", fmt fields)]
                else params in
  let params := match arg_sample args with
                | Some sample => params ++ [(py "sample", float_str sample)]
                | None => params
                end in
  {| req_endpoint := fmt endpoint;
     req_params := params;
     req_headers := [(py "Authorization", py "Bearer " ++ token);
                     (py "Accept", py "application/json")] |}.

(** Lines 166-178: the one GET. *)
Definition main_fetch (net : request -> net_result) (r : request) : M pystr :=
  result <- urlopen net r ;;
  match result with
  | Body payload => ret payload
  | HTTPError code reason body =>
      print_stderr (py "Logpull error: " ++ of_Z code ++ py " " ++ reason) ;;
      match body with
      | Some text => print_stderr text
      | None => ret tt
      end ;;
      return_ 1
  | URLError reason =>
      print_stderr (py "Logpull request failed: " ++ reason) ;; return_ 1
  | Failure e => throw e
  end.

Definition RAY_KEYS := [py "RayID"; py "RayId"; py "ray_id"].
Definition WORKER_KEYS :=
  [py "ScriptName"; py "WorkerName"; py "worker"; py "script_name"].
Definition STATUS_KEYS := [py "Status"; py "EdgeStatus"; py "status"; py "Outcome"].
Definition PATH_KEYS :=
  [py "Path"; py "RequestPath"; py "RequestURL"; py "URL"; py "uri"].

(** One filter block of the loop, [if args.f: value = get_value(..); if
    not value or args.f not in value: continue]: [true] when the block
    says [continue]. *)
Definition skips (flt : option pystr) (record : dict) (keys : list pystr)
  : bool :=
  match flt with
  | Some ((_ :: _) as f) =>
      match get_value record keys with
      | Some ((_ :: _) as value) => negb (contains f value)
      | _ => true
      end
  | _ => false
  end.

(** The block for [--contains]. *)
Definition skips_contains (flt : option pystr) (record : dict) : bool :=
  match flt with
  | Some ((_ :: _) as f) => negb (contains f (dumps_record record))
  | _ => false
  end.

(** Lines 191-213: whether the loop body reaches [print] for [record]. *)
Definition passes (args : Args) (record : dict) : bool :=
  if skips (arg_ray args) record RAY_KEYS then false
  else if skips (arg_worker args) record WORKER_KEYS then false
  else if skips (arg_status args) record STATUS_KEYS then false
  else if skips (arg_path args) record PATH_KEYS then false
  else if skips_contains (arg_contains args) record then false
  else true.

(** [args.limit and output_count >= args.limit]. *)
Definition limit_reached (limit : option Z) (output_count : Z) : bool :=
  match limit with
  | None => false
  | Some l => negb (l =? 0) && (output_count >=? l)
  end.

(** Lines 190-218: the loop [for record in records].  Its value is what
    the iterator has not handed out when the loop is left: the empty
    list when the records ran out, the rest of them after [break]. *)
Fixpoint main_loop (args : Args) (records : list dict) (output_count : Z)
  : M (list dict) :=
  match records with
  | [] => ret []
  | record :: rest =>
      if passes args record then
        print (dumps_record record) ;;
        let output_count := output_count + 1 in
        if limit_reached (arg_limit args) output_count then ret rest
        else main_loop args rest output_count
      else main_loop args rest output_count
  end.

(** Lines 180-220: what is done with the payload. *)
Definition main_output (args : Args) (payload : pystr) : M Z :=
  if arg_raw args then print payload ;; return_ 0
  else
    let records := parse_records payload in
    match records with
    | [] => print (strip payload) ;; return_ 0
    | _ =>
        let output_count := 0 in
        main_loop args records output_count ;;
        return_ 0
    end.

(** Lines 105-178: from the credentials to the payload.  The request is
    taken to be one that lines 157-164 build without an error
    ([sendable] below); on a URL without a scheme
    [urllib.request.Request] raises [ValueError] before [urlopen], which
    is not modelled. *)
Definition main_input (args : Args) (env : environ) (now : Z)
    (net : request -> net_result) : M pystr :=
  let account_id := read_env env (py "CLOUDFLARE_ACCOUNT_ID") None in
  let token := read_env env (py "CLOUDFLARE_API_TOKEN") None in
  if negb (truthy account_id) || negb (truthy token) then
    print_stderr (py "Missing CLOUDFLARE_ACCOUNT_ID or CLOUDFLARE_API_TOKEN")
    ;; return_ 1
  else
    let time_format :=
      fmt (py_or (read_env env (py "CLOUDFLARE_LOGPULL_TIME_FORMAT")
                    (Some (py "rfc3339")))
             (Some (py "rfc3339"))) in
    window <- main_window args now ;;
    let (start_time, end_time) := window in
    main_fetch net
      (main_request args env (fmt account_id) (fmt token)
         time_format start_time end_time).

Definition main (args : Args) (env : environ) (now : Z)
    (net : request -> net_result) : M Z :=
  payload <- main_input args env now net ;;
  main_output args payload.

(** *** The newline-delimited reading, in the words of the specification

    "Split the body into lines, parse each non-blank line independently
    as JSON, keep only lines that parse to a mapping." *)

Definition nonblank (line : pystr) : bool :=
  match strip line with
  | [] => false
  | _ => true
  end.

Definition mapping_of (line : pystr) : list dict :=
  match json_loads (strip line) with
  | Some (JObj d) => [d]
  | _ => []
  end.

Definition ndjson_lines (payload : pystr) : list dict :=
  flat_map mapping_of (filter nonblank (splitlines payload)).

(** *** The alias lookup, in the words of the specification

    "Resolved by trying each candidate in a fixed priority order and
    taking the first present." *)

Fixpoint first_present (record : dict) (keys : list pystr) : option json :=
  match keys with
  | [] => None
  | key :: keys' =>
      match dict_get record key with
      | Some value => Some value
      | None => first_present record keys'
      end
  end.

(** The four logical fields with a filter of their own. *)
Inductive field := Ray | Worker | Status | Path.

Definition field_filter (args : Args) (f : field) : option pystr :=
  match f with
  | Ray => arg_ray args
  | Worker => arg_worker args
  | Status => arg_status args
  | Path => arg_path args
  end.

Definition field_keys (f : field) : list pystr :=
  match f with
  | Ray => RAY_KEYS
  | Worker => WORKER_KEYS
  | Status => STATUS_KEYS
  | Path => PATH_KEYS
  end.

(** [args] as it is when [--from] and [--to] are not given. *)
Definition without_bounds (args : Args) : Args := {|
  arg_since := arg_since args; arg_start := None; arg_end := None;
  arg_ray := arg_ray args; arg_worker := arg_worker args;
  arg_status := arg_status args; arg_path := arg_path args;
  arg_contains := arg_contains args; arg_fields := arg_fields args;
  arg_dataset := arg_dataset args; arg_endpoint := arg_endpoint args;
  arg_limit := arg_limit args; arg_sample := arg_sample args;
  arg_raw := arg_raw args |}.

(** The length of a unit of [parse_duration], in seconds. *)
Definition unit_seconds (unit : N) : Z :=
  if N.eqb unit (ch "s") then 1
  else if N.eqb unit (ch "m") then 60
  else if N.eqb unit (ch "h") then 3600
  else 86400.

(** How the process ends: [raise SystemExit(main())], or an exception
    that nothing caught. *)
Inductive outcome :=
| Exit (code : Z)
| Crash (e : exn).

Definition run (m : M Z) : outcome * world :=
  match m world0 with
  | Next code w | Return code w => (Exit code, w)
  | Throw e w => (Crash e, w)
  end.

End Script.

(** ** Notions used to state further properties of the script *)

Section Notions.
Context {rt : PyRuntime}.
Local Open Scope Z_scope.

(** How many records the loop of [main] prints at most: no bound for no
    limit and for the limit 0, one record for a negative limit. *)
Definition limit_cap (limit : option Z) : option nat :=
  match limit with
  | None => None
  | Some l => if l =? 0 then None else Some (Z.to_nat (Z.max 1 l))
  end.

Definition capped {A : Type} (cap : option nat) (xs : list A) : list A :=
  match cap with
  | None => xs
  | Some k => firstn k xs
  end.

(** The request [main] builds, when the credentials are there and the
    window is resolved. *)
Definition main_built_request (args : Args) (env : environ) (now : Z)
  : option request :=
  let account_id := read_env env (py "CLOUDFLARE_ACCOUNT_ID") None in
  let token := read_env env (py "CLOUDFLARE_API_TOKEN") None in
  if negb (truthy account_id) || negb (truthy token) then None
  else
    match main_window args now world0 with
    | Next (start_time, end_time) _ =>
        Some (main_request args env (fmt account_id) (fmt token)
                (fmt (py_or (read_env env (py "CLOUDFLARE_LOGPULL_TIME_FORMAT")
                               (Some (py "rfc3339")))
                        (Some (py "rfc3339"))))
                start_time end_time)
    | _ => None
    end.

(** The texts [parse_duration] takes: decimal digits and one unit. *)
Definition duration_text (s : pystr) : Prop :=
  exists cs u,
    cs <> [] /\ Forall (fun c => decimal_digit c <> None) cs
    /\ is_unit u = true /\ s = cs ++ [u].

(** The value of a decimal digit, 0 for any other code point. *)
Definition digit_value (c : N) : Z :=
  match decimal_digit c with
  | Some d => d
  | None => 0
  end.

(** No filter is in force: each is absent or the empty string. *)
Definition no_filters (args : Args) : bool :=
  negb (truthy (arg_ray args)) && negb (truthy (arg_worker args))
  && negb (truthy (arg_status args)) && negb (truthy (arg_path args))
  && negb (truthy (arg_contains args)).

(** The value of a query parameter of a request. *)
Fixpoint param (name : pystr) (params : list (pystr * pystr))
  : option pystr :=
  match params with
  | [] => None
  | (k, v) :: rest => if Str.eqb k name then Some v else param name rest
  end.

(** A printable ASCII code point. *)
Definition printable (c : N) : bool := in_range 0x20 0x7E c.

(** Every float in [v] is written in printable ASCII by [json.dumps]. *)
Fixpoint ascii_floats (v : json) : bool :=
  match v with
  | JFloat lit => forallb printable (float_json lit)
  | JArr items => forallb ascii_floats items
  | JObj members => forallb (fun kv => ascii_floats (snd kv)) members
  | _ => true
  end.

(** Whether a line, trimmed, is a JSON mapping. *)
Definition mapping_line (line : pystr) : bool :=
  match json_loads (strip line) with
  | Some (JObj _) => true
  | _ => false
  end.

(** A body in which [parse_records] finds no record. *)
Definition no_records (payload : pystr) : bool :=
  match json_loads payload with
  | Some (JArr data) => forallb (fun item => negb (is_dict item)) data
  | Some (JObj _) => false
  | _ => forallb (fun line => negb (mapping_line line)) (splitlines payload)
  end.

(** A Unicode scalar value: a code point that is not a surrogate. *)
Definition scalar (c : N) : bool :=
  N.ltb c 0xD800 || in_range 0xE000 0x10FFFF c.

(** No text occurs twice in [ks]. *)
Fixpoint unique (ks : list pystr) : bool :=
  match ks with
  | [] => true
  | k :: rest => negb (existsb (Str.eqb k) rest) && unique rest
  end.

(** The values [json.loads] reads back from their [json.dumps] text as
    they are: no float, which this file keeps as the literal it was read
    from; strings and keys of scalar values, since [json.loads] joins an
    escaped pair of surrogates; the keys of a mapping distinct, as those
    of a [dict] are. *)
Fixpoint plain (v : json) : bool :=
  match v with
  | JNull | JBool _ | JInt _ => true
  | JFloat _ => false
  | JStr s => forallb scalar s
  | JArr items => forallb plain items
  | JObj members =>
      unique (map fst members)
      && forallb (fun kv => match kv with
                            | (k, x) => forallb scalar k && plain x
                            end) members
  end.

(** The code units [json.loads] reads from what [escape_char] writes
    for a code point. *)
Definition units_of (c : N) : list Json.unit_ :=
  if in_range 0x20 0x7E c || N.eqb c 0x0A || N.eqb c 0x0D || N.eqb c 0x09
     || N.eqb c 0x08 || N.eqb c 0x0C
  then [(c, false)]
  else if N.ltb c 0x10000 then [(c, true)]
  else [((0xD800 + N.div (c - 0x10000) 0x400)%N, true);
        ((0xDC00 + N.modulo (c - 0x10000) 0x400)%N, true)].

(** Token lists with a comma between them. *)
Fixpoint separated (parts : list (list Json.token)) : list Json.token :=
  match parts with
  | [] => []
  | [p] => p
  | p :: rest => p ++ Json.TComma :: separated rest
  end.

(** The tokens of the text [json.dumps] writes for a value. *)
Fixpoint tokens (v : json) : list Json.token :=
  match v with
  | JArr items =>
      Json.TLBrack :: separated (map tokens items) ++ [Json.TRBrack]
  | JObj members =>
      Json.TLBrace
      :: separated
           (map (fun kv => match kv with
                           | (k, x) =>
                               Json.TScalar (JStr k) :: Json.TColon :: tokens x
                           end) members)
      ++ [Json.TRBrace]
  | _ => [Json.TScalar v]
  end.

(** The scanner from a mode to the end of the text. *)
Definition lex_from (m : Json.mode) (s : pystr) : option (list Json.token) :=
  match Json.lex_run m s with
  | None => None
  | Some (m', ts) => option_map (app ts) (Json.lex_finish m')
  end.

(** A text before which an atom ends: the empty text, or one whose
    first code point cannot belong to an atom. *)
Definition boundary (s : pystr) : bool :=
  match s with
  | [] => true
  | c :: _ => negb (Json.is_atom_char c)
  end.

(** The phases of the decoder in which a value may start. *)
Definition opens (ph : Json.phase) : Prop :=
  ph = Json.Value \/ ph = Json.ArrFirst.

(** The tokens of a member of a mapping. *)
Definition member_tokens (kv : pystr * json) : list Json.token :=
  match kv with
  | (k, x) => Json.TScalar (JStr k) :: Json.TColon :: tokens x
  end.

(** What [print] puts on standard output for a list of lines. *)
Definition printed_lines (lines : list pystr) : pystr :=
  flat_map (fun line => line ++ [0x0A%N]) lines.

(** *** Where the embedding and the interpreter agree

    The embedding has no limit of the interpreter in it and builds a
    request from any endpoint.  The three notions below mark out the
    inputs on which the interpreter does what the embedding does. *)

(** [sys.int_info.default_max_str_digits]: [int()] and [json.loads]
    raise a plain [ValueError] on an integer written with more digits,
    leading zeros counted. *)
Definition INT_MAX_STR_DIGITS : nat := 4300.

(** The longest run of ASCII digits in a text; [cur] is the length of
    the run being read. *)
Fixpoint digit_run (cur : nat) (s : pystr) : nat :=
  match s with
  | [] => cur
  | c :: rest =>
      if Json.is_digit c then digit_run (S cur) rest
      else Nat.max cur (digit_run 0 rest)
  end.

(** The opening brackets and braces of a text: no value in it, and no
    value in a part of it, nests deeper. *)
Definition openers (s : pystr) : nat :=
  List.length (filter (fun c => N.eqb c (ch "[") || N.eqb c (ch "{")) s).

(** A nesting depth well below the default recursion limit of the
    interpreter, which gives out near 990 levels. *)
Definition NESTING_BOUND : nat := 500.

(** A body on which [json.loads], given the body or any line of it,
    returns or raises [JSONDecodeError] and nothing else: no integer in
    it has more digits than [int] takes, and it cannot nest deeper than
    the recursion limit allows.  Beyond, [json.loads] raises a plain
    [ValueError] or [RecursionError], which [parse_records] does not
    catch. *)
Definition within_limits (s : pystr) : bool :=
  Nat.leb (digit_run 0 s) INT_MAX_STR_DIGITS
  && Nat.leb (openers s) NESTING_BOUND.

(** A request that lines 157-164 build without an error: the endpoint
    opens with the scheme of an HTTP URL, which [urllib.request.Request]
    needs (it raises [ValueError] on a URL without a scheme), and no
    parameter holds a surrogate, which [urlencode] cannot encode. *)
Definition sendable (r : request) : bool :=
  (startswith (py "http://") (req_endpoint r)
   || startswith (py "https://") (req_endpoint r))
  && forallb (fun kv => forallb scalar (fst kv) && forallb scalar (snd kv))
       (req_params r).

End Notions.

(** ** A runtime to run the script on

    An instance of [PyRuntime] for evaluating the script on concrete
    inputs.  It knows the ASCII digits, prints a float as the literal it
    was read from and a container as its JSON text, renders instants in the
    proleptic Gregorian calendar, and reads timestamps of the one shape
    [YYYY-MM-DDTHH:MM:SS] with an optional [+HH:MM] or [-HH:MM]. *)

Module Sample.
Local Open Scope Z_scope.

(** Year, month and day of the day numbered [d] from 0001-01-01. *)
Definition civil_of_days (d : Z) : Z * Z * Z :=
  let z := d + 306 in
  let era := z / 146097 in
  let doe := z mod 146097 in
  let yoe := (doe - doe / 1460 + doe / 36524 - doe / 146096) / 365 in
  let doy := doe - (365 * yoe + yoe / 4 - yoe / 100) in
  let mp := (5 * doy + 2) / 153 in
  let day := doy - (153 * mp + 2) / 5 + 1 in
  let month := if mp <? 10 then mp + 3 else mp - 9 in
  let year := yoe + era * 400 + (if month <=? 2 then 1 else 0) in
  (year, month, day).

Definition days_of_civil (year month day : Z) : Z :=
  let y := if month <=? 2 then year - 1 else year in
  let era := y / 400 in
  let yoe := y - era * 400 in
  let doy := (153 * (if month >? 2 then month - 3 else month + 9) + 2) / 5
             + day - 1 in
  era * 146097 + (yoe * 365 + yoe / 4 - yoe / 100 + doy) - 306.

(** [n] in decimal on at least [width] digits. *)
Definition padded (width : nat) (n : Z) : pystr :=
  let s := of_Z n in
  repeat (ch "0") (width - List.length s) ++ s.

Definition strftime (t : Z) : pystr :=
  let secs := t / Time.US_PER_SECOND in
  let '(year, month, day) := civil_of_days (secs / 86400) in
  let sod := secs mod 86400 in
  padded 4 year ++ py "-" ++ padded 2 month ++ py "-" ++ padded 2 day
  ++ py "T" ++ padded 2 (sod / 3600) ++ py ":" ++ padded 2 (sod / 60 mod 60)
  ++ py ":" ++ padded 2 (sod mod 60) ++ py "Z".

(** 1970-01-01 is day 719162 from 0001-01-01. *)
Definition timestamp (t : Z) : pystr :=
  of_Z (Z.quot (t - 719162 * Time.US_PER_DAY) Time.US_PER_SECOND).

(** [width] ASCII digits at the head of [s], as a number. *)
Definition digits (width : nat) (s : pystr) : option (Z * pystr) :=
  let ds := firstn width s in
  if Nat.eqb (List.length ds) width && forallb Json.is_digit ds
  then Some (Json.int_of_digits ds, skipn width s)
  else None.

Definition expect (c : ascii) (s : pystr) : option pystr :=
  match s with
  | x :: rest => if N.eqb x (ch c) then Some rest else None
  | [] => None
  end.

Notation "'let?' x := m 'in' k" :=
  (match m with Some x => k | None => None end)
  (at level 10, x pattern, k at level 200, only parsing).

(** The offset [+HH:MM] or [-HH:MM], in microseconds. *)
Definition iso_offset (s : pystr) : option Z :=
  match s with
  | [] => None
  | sign :: s =>
      let? (oh, s) := digits 2 s in
      let? s := expect ":" s in
      let? (om, s) := digits 2 s in
      let off := (oh * 3600 + om * 60) * Time.US_PER_SECOND in
      match s with
      | [] =>
          if (oh <? 24) && (om <? 60) then
            if N.eqb sign (ch "+") then Some off
            else if N.eqb sign (ch "-") then Some (- off)
            else None
          else None
      | _ => None
      end
  end.

Definition valid_date (year month day : Z) : bool :=
  (1 <=? year) && (year <=? 9999) && (1 <=? month) && (month <=? 12)
  && (1 <=? day)
  && (let '(y, m, d) := civil_of_days (days_of_civil year month day) in
      (y =? year) && (m =? month) && (d =? day)).

Definition from_iso (s : pystr) : option (Z * option Z) :=
  let? (year, s) := digits 4 s in
  let? s := expect "-" s in
  let? (month, s) := digits 2 s in
  let? s := expect "-" s in
  let? (day, s) := digits 2 s in
  let? s := expect "T" s in
  let? (hh, s) := digits 2 s in
  let? s := expect ":" s in
  let? (mm, s) := digits 2 s in
  let? s := expect ":" s in
  let? (ss, s) := digits 2 s in
  if valid_date year month day && (hh <? 24) && (mm <? 60) && (ss <? 60)
  then
    let wall := (days_of_civil year month day * 86400
                 + hh * 3600 + mm * 60 + ss) * Time.US_PER_SECOND in
    match s with
    | [] => Some (wall, None)
    | _ => let? off := iso_offset s in Some (wall, Some off)
    end
  else None.

Definition decimal (c : N) : option Z :=
  if Json.is_digit c then Some (Z.of_N c - 0x30) else None.

Definition decimal_ascii (c : N) (_ : (c < 128)%N)
  : decimal c = if Json.is_digit c then Some (Z.of_N c - 0x30) else None
  := eq_refl.

Definition runtime_with (container : json -> pystr) : PyRuntime := {|
  decimal_digit := decimal;
  decimal_digit_ascii := decimal_ascii;
  float_str := fun lit => lit;
  float_json := fun lit => lit;
  container_str := container;
  fromisoformat := from_iso;
  strftime_rfc3339 := strftime;
  timestamp_str := timestamp
|}.

#[export] Instance runtime : PyRuntime :=
  runtime_with (@json_dumps (runtime_with (fun _ => []))).

(** An environment with the two credentials and nothing else. *)
Definition env : environ :=
  fun name =>
    if Str.eqb name (py "CLOUDFLARE_ACCOUNT_ID") then Some (py "acct")
    else if Str.eqb name (py "CLOUDFLARE_API_TOKEN") then Some (py "secret")
    else None.

(** 2026-11-04T12:00:00Z. *)
Definition noon : Z :=
  (days_of_civil 2026 11 4 * 86400 + 12 * 3600) * Time.US_PER_SECOND.

(** [args] with no option given. *)
Definition no_args : Args := {|
  arg_since := None; arg_start := None; arg_end := None; arg_ray := None;
  arg_worker := None; arg_status := None; arg_path := None;
  arg_contains := None; arg_fields := None; arg_dataset := None;
  arg_endpoint := None; arg_limit := None; arg_sample := None;
  arg_raw := false |}.

(** [--since since] alone. *)
Definition since_args (since : pystr) : Args := {|
  arg_since := Some since; arg_start := None; arg_end := None;
  arg_ray := None; arg_worker := None; arg_status := None; arg_path := None;
  arg_contains := None; arg_fields := None; arg_dataset := None;
  arg_endpoint := None; arg_limit := None; arg_sample := None;
  arg_raw := false |}.

(** [--since 15m --ray ray --limit limit]. *)
Definition ray_args (ray : pystr) (limit : option Z) : Args := {|
  arg_since := Some (py "15m"); arg_start := None; arg_end := None;
  arg_ray := Some ray; arg_worker := None; arg_status := None;
  arg_path := None; arg_contains := None; arg_fields := None;
  arg_dataset := None; arg_endpoint := None; arg_limit := limit;
  arg_sample := None; arg_raw := false |}.

(** [--since 15m --from 2026-11-01T00:00:00Z --to 2026-11-02T00:00:00Z]. *)
Definition both_args : Args := {|
  arg_since := Some (py "15m");
  arg_start := Some (py "2026-11-01T00:00:00Z");
  arg_end := Some (py "2026-11-02T00:00:00Z");
  arg_ray := None; arg_worker := None; arg_status := None; arg_path := None;
  arg_contains := None; arg_fields := None; arg_dataset := None;
  arg_endpoint := None; arg_limit := None; arg_sample := None;
  arg_raw := false |}.

(** A server that answers every request with [payload]. *)
Definition serves (payload : pystr) : request -> net_result :=
  fun _ => Body payload.

(** The runs the claims are tried on. *)

(** Nothing about the window on the command line. *)
Definition run_no_window : outcome * world :=
  run (main no_args env noon (serves (py "[]"))).

(** A duration together with [--from] and [--to]. *)
Definition run_both : outcome * world :=
  run (main both_args env noon (serves (py "[]"))).

(** An empty body. *)
Definition run_empty_body : outcome * world :=
  run (main (since_args (py "15m")) env noon (serves [])).

(** A duration of a million days. *)
Definition run_long_since : outcome * world :=
  run (main (since_args (py "1000000d")) env noon (serves (py "[]"))).

(** Two mappings, each valid JSON on one line; the string of the first
    holds U+0085. *)
Definition line_nel : pystr := pyq "{'a':'x" ++ [0x85%N] ++ pyq "y'}".
Definition line_b : pystr := pyq "{'b':1}".
Definition record_nel : dict := [(py "a", JStr (py "x" ++ [0x85%N] ++ py "y"))].
Definition record_b : dict := [(py "b", JInt 1)].

(** Three lines, two opening brackets, an empty mapping and two closing
    brackets: as a whole, an array holding an array. *)
Definition nested_body : pystr :=
  py "[[" ++ [0x0A%N] ++ py "{}" ++ [0x0A%N] ++ py "]]".

(** Five records with a ray identifier that contains [abc]. *)
Definition five_records : list dict :=
  map (fun n => [(py "RayID", JStr (py "abc" ++ of_Z n))]) [1; 2; 3; 4; 5].

(** [{"RayID": null, "ray_id": "abc"}]. *)
Definition null_ray_record : dict :=
  [(py "RayID", JNull); (py "ray_id", JStr (py "abc"))].

(** The inputs the further properties are tried on. *)

(** An environment without the credentials. *)
Definition bare_env : environ := fun _ => None.

(** [--since 15m --raw]. *)
Definition raw_args : Args := {|
  arg_since := Some (py "15m"); arg_start := None; arg_end := None;
  arg_ray := None; arg_worker := None; arg_status := None; arg_path := None;
  arg_contains := None; arg_fields := None; arg_dataset := None;
  arg_endpoint := None; arg_limit := None; arg_sample := None;
  arg_raw := true |}.

(** [--since 15m --contains needle]. *)
Definition contains_args (needle : pystr) : Args := {|
  arg_since := Some (py "15m"); arg_start := None; arg_end := None;
  arg_ray := None; arg_worker := None; arg_status := None; arg_path := None;
  arg_contains := Some needle; arg_fields := None; arg_dataset := None;
  arg_endpoint := None; arg_limit := None; arg_sample := None;
  arg_raw := false |}.


(** A server that refuses every request. *)
Definition refuses : request -> net_result :=
  fun _ => HTTPError 403 (py "Forbidden") (Some (py "denied")).

(** The request of a run with [--since 15m] at [noon] in [env]. *)
Definition since_request : request :=
  main_request (since_args (py "15m")) env (py "acct") (py "secret")
    (py "rfc3339") (noon - 15 * 60 * Time.US_PER_SECOND) noon.

(** A record with a quote, a code point above U+FFFF, a negative
    number and a nested mapping. *)
Definition mixed_record : dict :=
  [(py "msg", JStr (py "say " ++ [0x22%N; 0x1F600%N; 0x85%N]));
   (py "n", JArr [JInt (-20); JNull; JBool true; JObj [([], JArr [])]])].

End Sample.

(** * Properties *)

Unset Implicit Arguments.

(** ** The runtime on known inputs

    What the interpreter returns on these inputs, as a check of the
    definitions above. *)

Example splitlines_boundaries :
  splitlines (py "a" ++ [0x0D; 0x0A]%N ++ py "b" ++ [0x0A; 0x0A]%N ++ py "c")
  = [py "a"; py "b"; []; py "c"]
  /\ splitlines [] = []
  /\ splitlines [0x0A%N] = [[]]
  /\ splitlines (py "a" ++ [0x0B%N] ++ py "b" ++ [0x1C%N] ++ py "c"
                 ++ [0x2028%N] ++ py "d" ++ [0x1F%N] ++ py "e" ++ [0x0C%N])
     = [py "a"; py "b"; py "c"; py "d" ++ [0x1F%N] ++ py "e"].
Proof. repeat split. Qed.

Example strip_whitespace :
  strip (py " 15m " ++ [0x85; 0xA0; 0x09; 0x0A]%N) = py "15m"
  /\ strip (py "a b") = py "a b"
  /\ strip [0x3000; 0x2003]%N = [].
Proof. repeat split. Qed.

Example loads_accepts :
  json_loads (pyq "{'a': [1, -2, true, null, 'x\u00e9'], 'b': {}} ")
  = Some (JObj [(py "a", JArr [JInt 1; JInt (-2); JBool true; JNull;
                               JStr (py "x" ++ [0xE9%N])]);
                (py "b", JObj [])])
  /\ json_loads (pyq "{'a':1,'b':2,'a':3}")
     = Some (JObj [(py "a", JInt 3); (py "b", JInt 2)])
  /\ json_loads (pyq "'\ud83d\ude00'") = Some (JStr [0x1F600%N])
  /\ json_loads ([0x22; 0x1F600; 0x85; 0x22]%N)
     = Some (JStr [0x1F600; 0x85]%N)
  /\ json_loads (pyq "'\ud83d'") = Some (JStr [0xD83D%N])
  /\ json_loads (py "-0") = Some (JInt 0)
  /\ json_loads (py " 12 ") = Some (JInt 12)
  /\ json_loads (py "2.5E-3") = Some (JFloat (py "2.5E-3"))
  /\ json_loads (py "-Infinity") = Some (JFloat (py "-Infinity"))
  /\ json_loads (py "[]") = Some (JArr []).
Proof. vm_compute. repeat split. Qed.

Example loads_refuses :
  forallb (fun text => match json_loads text with None => true | _ => false end)
    [py "[1,]"; py "{} {}"; py "01"; py "-"; py "1."; py "1e"; py "+1";
     py ".5"; py "nulll"; py "[1 2]"; pyq "{'a':1,}"; py "{'a':1}"; [];
     py " "; 0xFEFF%N :: py "{}"; pyq "'a" ++ [0x09%N] ++ pyq "b'";
     pyq "'\x41'"; 0x0C%N :: py "1"; py "1" ++ [0xA0%N]]
  = true.
Proof. vm_compute. reflexivity. Qed.

Example parse_duration_examples :
  @parse_duration Sample.runtime (py "15m")
  = Ok (15 * 60 * Time.US_PER_SECOND)%Z
  /\ @parse_duration Sample.runtime (py " 2h ")
     = Ok (2 * 3600 * Time.US_PER_SECOND)%Z
  /\ @parse_duration Sample.runtime (py "1.5h")
     = Raise (ValueError (py "Duration must be like 15m, 2h, 1d"))
  /\ @parse_duration Sample.runtime (py "1000000000d") = Raise OverflowError.
Proof. vm_compute. repeat split. Qed.

Example dumps_example :
  @json_dumps Sample.runtime
    (JObj [(py "a", JStr ([0xE9; 0x0A; 0x7F; 0x1F600; 0x22; 0x5C]%N));
           (py "b", JArr [JInt (-15); JInt 0; JNull; JBool true]);
           (py "c", JObj [])])
  = pyq "{'a': '\u00e9\n\u007f\ud83d\ude00\'\\', 'b': [-15, 0, null, true], 'c': {}}".
Proof. vm_compute. reflexivity. Qed.

(** ** Blank text *)

Lemma lstrip_split (s : pystr) :
  exists pre, s = pre ++ lstrip s /\ forallb isspace pre = true.
Proof.
  induction s as [|c s IH]; simpl.
  - exists []; auto.
  - destruct (isspace c) eqn:Hc.
    + destruct IH as [pre [E F]]. exists (c :: pre); simpl.
      rewrite Hc, F. split; [f_equal; exact E | reflexivity].
    + exists []; auto.
Qed.

Lemma strip_nil_blank (s : pystr) :
  strip s = [] -> forallb isspace s = true.
Proof.
  unfold strip, rstrip. intros H.
  destruct (lstrip_split s) as [pre [E F]].
  destruct (lstrip_split (rev (lstrip s))) as [pre' [E' F']].
  assert (Hn : lstrip (rev (lstrip s)) = []).
  { destruct (lstrip (rev (lstrip s))); [reflexivity|].
    apply (f_equal (@List.length N)) in H. rewrite length_rev in H. discriminate. }
  rewrite Hn, app_nil_r in E'.
  rewrite E, forallb_app, F. simpl.
  rewrite <- (rev_involutive (lstrip s)), E'.
  rewrite forallb_forall in *. intros x Hx. apply F'. now apply in_rev.
Qed.

Lemma blank_strip_nil (s : pystr) :
  forallb isspace s = true -> strip s = [].
Proof.
  intros H. unfold strip, rstrip.
  assert (L : forall t, forallb isspace t = true -> lstrip t = []).
  { induction t as [|c t IH]; simpl; [reflexivity|].
    intros Ht. apply andb_true_iff in Ht as [Hc Ht]. rewrite Hc. auto. }
  rewrite (L s H). reflexivity.
Qed.

(** A code point [strip] removes either is one of the four blanks of
    JSON or cannot start a token. *)
Lemma lex_idle_space (c : N) :
  isspace c = true ->
  Json.lex_idle c = Some (Json.Idle, []) \/ Json.lex_idle c = None.
Proof.
  intros H.
  assert (D : (c = 9 \/ c = 10 \/ c = 11 \/ c = 12 \/ c = 13 \/ c = 28
               \/ c = 29 \/ c = 30 \/ c = 31 \/ c = 32 \/ 128 <= c)%N).
  { unfold isspace, in_range in H.
    repeat rewrite ?orb_true_iff, ?andb_true_iff, ?N.eqb_eq, ?N.leb_le in H.
    lia. }
  repeat (destruct D as [D|D]; [subst c; vm_compute; auto|]).
  right. unfold Json.lex_idle, Json.is_ws, Json.structural, Json.is_atom_char,
    Json.is_digit, in_range, ch. simpl N_of_ascii.
  repeat match goal with
         | |- context [N.eqb c ?k] => destruct (N.eqb_spec c k); [lia|]
         | |- context [N.leb c ?k] => destruct (N.leb_spec c k); [lia|]
         end.
  simpl. rewrite ?andb_false_r. reflexivity.
Qed.

(** Blank text leaves the scanner where it was, or stops it. *)
Lemma lex_run_blank (s : pystr) :
  forallb isspace s = true ->
  Json.lex_run Json.Idle s = Some (Json.Idle, [])
  \/ Json.lex_run Json.Idle s = None.
Proof.
  induction s as [|c s IH]; simpl; intros H; [auto|].
  apply andb_true_iff in H as [Hc Hs].
  destruct (lex_idle_space c Hc) as [E|E]; rewrite E; [|auto].
  destruct (IH Hs) as [E'|E']; rewrite E'; simpl; auto.
Qed.

(** [json.loads] raises on text that [strip()] empties. *)
Lemma loads_blank (s : pystr) :
  strip s = [] -> json_loads s = None.
Proof.
  intros H. apply strip_nil_blank in H.
  unfold json_loads, Json.loads, Json.lex.
  destruct (startswith _ s); [reflexivity|].
  destruct (lex_run_blank s H) as [E|E]; rewrite E; reflexivity.
Qed.

(** ** The payload parser *)

Lemma parse_lines_ndjson (lines : list pystr) :
  parse_lines lines = flat_map mapping_of (filter nonblank lines).
Proof.
  induction lines as [|line lines IH]; simpl; [reflexivity|].
  unfold nonblank, mapping_of.
  destruct (strip line) as [|c l] eqn:E; [exact IH|].
  simpl. rewrite E.
  destruct (json_loads (c :: l)) as [[| | | | | |d]|]; simpl; now rewrite IH.
Qed.

Lemma only_dicts_objects (ms : list dict) : only_dicts (map JObj ms) = ms.
Proof. induction ms as [|m ms IH]; simpl; [reflexivity | now rewrite IH]. Qed.

(** What [parse_records] returns once the whole body has parsed. *)
Lemma parse_records_loaded (payload : pystr) (v : json) :
  json_loads payload = Some v ->
  parse_records payload =
    match v with
    | JArr data => only_dicts data
    | JObj data => [data]
    | _ => parse_lines (splitlines payload)
    end.
Proof.
  intros H. unfold parse_records.
  destruct (strip payload) eqn:E.
  - rewrite (loads_blank payload E) in H. discriminate.
  - rewrite H. reflexivity.
Qed.

(** A body that is one JSON array of [N] mappings gives these [N]
    mappings, in order. *)
Lemma parse_records_array (payload : pystr) (ms : list dict) :
  json_loads payload = Some (JArr (map JObj ms)) ->
  parse_records payload = ms.
Proof.
  intros H. rewrite (parse_records_loaded payload _ H). apply only_dicts_objects.
Qed.

(** ** Newline-delimited bodies *)

Lemma lex_run_app (m : Json.mode) (a b : pystr) :
  Json.lex_run m (a ++ b)
  = match Json.lex_run m a with
    | None => None
    | Some (m', ts) =>
        match Json.lex_run m' b with
        | None => None
        | Some (m'', ts') => Some (m'', ts ++ ts')
        end
    end.
Proof.
  revert m. induction a as [|c a IH]; intros m; simpl.
  - destruct (Json.lex_run m b) as [[m' ts]|]; reflexivity.
  - destruct (Json.lex_step m c) as [[m1 ts1]|]; [|reflexivity].
    rewrite IH. destruct (Json.lex_run m1 a) as [[m2 ts2]|]; [|reflexivity].
    destruct (Json.lex_run m2 b) as [[m3 ts3]|]; [|reflexivity].
    now rewrite app_assoc.
Qed.

Lemma parse_run_app (s : Json.pstate) (a b : list Json.token) :
  Json.parse_run s (a ++ b)
  = match Json.parse_run s a with
    | None => None
    | Some s' => Json.parse_run s' b
    end.
Proof.
  revert s. induction a as [|t a IH]; intros s; simpl; [reflexivity|].
  destruct (Json.parse_step s t); [apply IH | reflexivity].
Qed.

(** The scanner never makes a mapping by itself. *)
Lemma classify_atom_scalar (a : pystr) (v : json) :
  Json.classify_atom a = Some v -> is_dict v = false.
Proof.
  unfold Json.classify_atom, Json.number_of.
  repeat match goal with
         | |- context [if ?b then _ else _] => destruct b
         | |- context [match ?x with _ => _ end] => destruct x
         end; intros H; inversion H; reflexivity.
Qed.

(** Once the document is complete no token may follow. *)
Lemma parse_run_done (st : list Json.frame) (v : json) (ts : list Json.token)
    (s : Json.pstate) :
  Json.parse_run (st, Json.Done v) ts = Some s -> ts = [].
Proof. destruct ts; [reflexivity | discriminate]. Qed.

(** A scalar token completes the document only as that scalar. *)
Lemma parse_step_scalar_done (s : Json.pstate) (x v : json)
    (st : list Json.frame) :
  Json.parse_step s (Json.TScalar x) = Some (st, Json.Done v) -> v = x.
Proof.
  destruct s as [fs ph]. unfold Json.parse_step, Json.start_value,
    Json.read_key, Json.complete.
  destruct ph; try discriminate;
    repeat match goal with
           | |- context [match ?y with _ => _ end] => destruct y
           end; intros H; inversion H; reflexivity.
Qed.

(** What [json.loads] goes through on a text it accepts. *)
Lemma loads_tokens (l : pystr) (v : json) :
  json_loads l = Some v ->
  startswith [0xFEFF%N] l = false
  /\ exists m ts fin,
       Json.lex_run Json.Idle l = Some (m, ts)
       /\ Json.lex_finish m = Some fin
       /\ Json.parse (ts ++ fin) = Some v.
Proof.
  unfold json_loads, Json.loads, Json.lex. intros H.
  destruct (startswith _ l); [discriminate|]. split; [reflexivity|].
  destruct (Json.lex_run Json.Idle l) as [[m ts]|]; [|discriminate].
  destruct (Json.lex_finish m) as [fin|] eqn:F; [|discriminate].
  exists m, ts, fin. auto.
Qed.

(** A text that is one mapping ends outside any token, and its tokens
    complete a document. *)
Lemma loads_object_tokens (l : pystr) (d : dict) :
  json_loads l = Some (JObj d) ->
  exists t ts st,
    Json.lex_run Json.Idle l = Some (Json.Idle, t :: ts)
    /\ Json.parse_run ([], Json.Value) (t :: ts)
       = Some (st, Json.Done (JObj d)).
Proof.
  intros H. apply loads_tokens in H as (_ & m & ts & fin & L & F & P).
  unfold Json.parse in P.
  destruct (Json.parse_run ([], Json.Value) (ts ++ fin))
    as [[st [| | | | | |v]]|] eqn:R; try discriminate.
  inversion P; subst v. clear P.
  destruct m; try discriminate.
  - inversion F; subst fin. rewrite app_nil_r in R.
    destruct ts as [|t ts]; [discriminate|].
    exists t, ts, st. auto.
  - simpl in F. destruct (Json.classify_atom acc) as [x|] eqn:C;
      [|discriminate].
    inversion F; subst fin. rewrite parse_run_app in R.
    destruct (Json.parse_run ([], Json.Value) ts) as [s1|]; [|discriminate].
    simpl in R.
    destruct (Json.parse_step s1 (Json.TScalar x)) as [[st' ph']|] eqn:S;
      [|discriminate].
    inversion R; subst. apply parse_step_scalar_done in S. subst x.
    apply classify_atom_scalar in C. discriminate.
Qed.

Lemma space_cases (c : N) :
  isspace c = true ->
  (c = 9 \/ c = 10 \/ c = 11 \/ c = 12 \/ c = 13 \/ c = 28 \/ c = 29
   \/ c = 30 \/ c = 31 \/ c = 32 \/ 128 <= c)%N.
Proof.
  unfold isspace, in_range. intros H.
  repeat rewrite ?orb_true_iff, ?andb_true_iff, ?N.eqb_eq, ?N.leb_le in H.
  lia.
Qed.

Ltac small_or_big D c :=
  repeat (destruct D as [D|D]; [subst c; vm_compute; auto|]).

Ltac compare_consts c :=
  repeat match goal with
         | |- context [N.eqb c ?k] => destruct (N.eqb_spec c k); [lia|]
         | |- context [N.leb c ?k] => destruct (N.leb_spec c k); [lia|]
         end.

(** A blank inside a string stays in the string or is refused; after a
    backslash or inside [\uXXXX] it is refused; after an atom it ends the
    atom. *)
Lemma lex_step_space (m : Json.mode) (c : N) :
  isspace c = true ->
  match m with
  | Json.Idle =>
      Json.lex_step m c = Some (Json.Idle, []) \/ Json.lex_step m c = None
  | Json.InString acc =>
      Json.lex_step m c = Some (Json.InString (acc ++ [(c, false)]), [])
      \/ Json.lex_step m c = None
  | Json.InEscape _ | Json.InHex _ _ => Json.lex_step m c = None
  | Json.InAtom a =>
      Json.lex_step m c = None
      \/ exists v, Json.classify_atom a = Some v
                   /\ Json.lex_step m c = Some (Json.Idle, [Json.TScalar v])
  end.
Proof.
  intros H. pose proof (space_cases c H) as D.
  destruct m as [|acc|acc|acc ds|a].
  - simpl. destruct (lex_idle_space c H); auto.
  - small_or_big D c. left. unfold Json.lex_step.
    compare_consts c. reflexivity.
  - small_or_big D c. unfold Json.lex_step, Json.unescape, ch.
    simpl N_of_ascii. compare_consts c. reflexivity.
  - small_or_big D c. unfold Json.lex_step, Json.hex_value, Json.is_digit,
      in_range. compare_consts c. simpl. rewrite ?andb_false_r. reflexivity.
  - assert (A : Json.is_atom_char c = false).
    { small_or_big D c. unfold Json.is_atom_char, Json.is_digit, in_range, ch.
      simpl N_of_ascii. compare_consts c. simpl.
      rewrite ?andb_false_r. reflexivity. }
    unfold Json.lex_step. rewrite A.
    destruct (Json.classify_atom a) as [v|]; [|auto].
    destruct (lex_idle_space c H) as [E|E]; rewrite E; [|auto].
    right. exists v. auto.
Qed.

(** Blank text after a complete text adds no token. *)
Lemma lex_run_trailing_blank (trail : pystr) :
  forallb isspace trail = true ->
  forall (m m' : Json.mode) (ts fin : list Json.token),
    Json.lex_run m trail = Some (m', ts) ->
    Json.lex_finish m' = Some fin ->
    Json.lex_finish m = Some (ts ++ fin).
Proof.
  induction trail as [|c t IH]; simpl; intros Hb m m' ts fin R F.
  - inversion R; subst. exact F.
  - apply andb_true_iff in Hb as [Hc Ht].
    pose proof (lex_step_space m c Hc) as S.
    destruct (Json.lex_step m c) as [[m1 ts1]|] eqn:E; [|discriminate].
    destruct (Json.lex_run m1 t) as [[m2 ts2]|] eqn:R2; [|discriminate].
    inversion R; subst m2 ts. clear R.
    pose proof (IH Ht m1 m' ts2 fin R2 F) as F1.
    destruct m as [|acc|acc|acc ds|a].
    + destruct S as [S|S]; [|discriminate]. inversion S; subst. exact F1.
    + destruct S as [S|S]; [|discriminate]. inversion S; subst. discriminate.
    + discriminate.
    + discriminate.
    + destruct S as [S|(v & C & S)]; [discriminate|].
      inversion S; subst. simpl in F1 |- *. rewrite C. simpl.
      inversion F1 as [F2]. rewrite <- ?F2. reflexivity.
Qed.

(** Blank text before a text the scanner accepts is skipped. *)
Lemma lex_run_leading_blank (pre s : pystr) :
  forallb isspace pre = true ->
  Json.lex_run Json.Idle (pre ++ s) <> None ->
  Json.lex_run Json.Idle (pre ++ s) = Json.lex_run Json.Idle s.
Proof.
  induction pre as [|c pre IH]; simpl; intros Hb Hn; [reflexivity|].
  apply andb_true_iff in Hb as [Hc Hp].
  destruct (lex_idle_space c Hc) as [E|E]; rewrite E in Hn |- *;
    [|congruence].
  assert (Hn' : Json.lex_run Json.Idle (pre ++ s) <> None).
  { intros N. rewrite N in Hn. congruence. }
  rewrite (IH Hp Hn').
  destruct (Json.lex_run Json.Idle s) as [[m ts]|]; reflexivity.
Qed.

Lemma rstrip_split (s : pystr) :
  exists trail, s = rstrip s ++ trail /\ forallb isspace trail = true.
Proof.
  unfold rstrip. destruct (lstrip_split (rev s)) as [pre [E F]].
  exists (rev pre). split.
  - rewrite <- rev_app_distr, <- E. now rewrite rev_involutive.
  - rewrite forallb_forall in *. intros x Hx. apply F. now apply in_rev.
Qed.

(** [json.loads(line.strip())] is [json.loads(line)] whenever the
    latter returns. *)
Lemma loads_strip (l : pystr) (v : json) :
  json_loads l = Some v -> json_loads (strip l) = Some v.
Proof.
  intros H. apply loads_tokens in H as (_ & m & ts & fin & L & F & P).
  destruct (lstrip_split l) as [pre [E Hpre]].
  destruct (rstrip_split (lstrip l)) as [trail [E' Htrail]].
  fold (strip l) in E'.
  assert (L1 : Json.lex_run Json.Idle (lstrip l) = Some (m, ts)).
  { rewrite <- L. rewrite E at 2. symmetry.
    apply lex_run_leading_blank; [exact Hpre|]. rewrite <- E. congruence. }
  rewrite E', lex_run_app in L1.
  destruct (Json.lex_run Json.Idle (strip l)) as [[mb tsb]|] eqn:Lb;
    [|discriminate].
  destruct (Json.lex_run mb trail) as [[m2 ts2]|] eqn:Lt; [|discriminate].
  inversion L1; subst m2 ts. clear L1.
  pose proof (lex_run_trailing_blank trail Htrail mb m ts2 fin Lt F) as Fb.
  assert (B : startswith [0xFEFF%N] (strip l) = false).
  { revert Lb. destruct (strip l) as [|c body]; [reflexivity|]. intros Lb.
    cbn [startswith]. destruct (N.eqb_spec 0xFEFF c) as [<-|];
      [simpl in Lb; discriminate | reflexivity]. }
  unfold json_loads, Json.loads, Json.lex. rewrite B, Lb, Fb. simpl.
  rewrite <- app_assoc in P. exact P.
Qed.

Lemma splitlines_from_line (l : pystr) :
  one_line l = true ->
  forall (b : bool) (cur s : pystr),
    splitlines_from b cur (l ++ s)
    = match l with
      | [] => splitlines_from b cur s
      | _ => splitlines_from false (cur ++ l) s
      end.
Proof.
  unfold one_line.
  induction l as [|c l IH]; simpl; intros H b cur s; [reflexivity|].
  apply andb_true_iff in H as [Hc Hl]. apply negb_true_iff in Hc.
  assert (Hlf : N.eqb c 0x0A = false).
  { destruct (N.eqb_spec c 0x0A) as [->|]; [discriminate Hc | reflexivity]. }
  rewrite Hlf, andb_false_r, Hc, (IH Hl false (cur ++ [c]) s).
  rewrite <- app_assoc. simpl. destruct l; [reflexivity|].
  reflexivity.
Qed.

(** Lines without a line boundary in them, joined by line feeds, are
    what [splitlines] gives back. *)
Lemma splitlines_join (lines : list pystr) :
  Forall (fun l => one_line l = true /\ l <> []) lines ->
  splitlines (join [0x0A%N] lines) = lines.
Proof.
  unfold splitlines.
  induction lines as [|l [|l2 rest] IH]; intros H.
  - reflexivity.
  - inversion H as [|? ? [Hl Hne] _]; subst. simpl.
    rewrite <- (app_nil_r l) at 1.
    rewrite (splitlines_from_line l Hl). destruct l; [congruence|].
    reflexivity.
  - inversion H as [|? ? [Hl Hne] Hrest]; subst.
    change (join [0x0A%N] (l :: l2 :: rest))
      with (l ++ [0x0A%N] ++ join [0x0A%N] (l2 :: rest)).
    rewrite (splitlines_from_line l Hl). destruct l as [|c l]; [congruence|].
    simpl app at 1. cbn [splitlines_from app]. simpl andb. cbv iota.
    change (islinebreak 10) with true. cbv iota.
    change (N.eqb 10 13) with false.
    f_equal. apply IH. exact Hrest.
Qed.

(** Two mappings one after the other are not one JSON document. *)
Lemma loads_two_documents (l1 l2 s : pystr) (d1 d2 : dict) :
  json_loads l1 = Some (JObj d1) ->
  json_loads l2 = Some (JObj d2) ->
  json_loads (l1 ++ [0x0A%N] ++ l2 ++ s) = None.
Proof.
  intros H1 H2.
  apply loads_object_tokens in H1 as (t1 & ts1 & st1 & L1 & P1).
  apply loads_object_tokens in H2 as (t2 & ts2 & st2 & L2 & P2).
  unfold json_loads, Json.loads, Json.lex.
  destruct (startswith _ _); [reflexivity|].
  rewrite lex_run_app, L1.
  change ([0x0A%N] ++ l2 ++ s) with (0x0A%N :: (l2 ++ s)).
  cbn [Json.lex_run]. change (Json.lex_step Json.Idle 10) with
    (Some (Json.Idle, @nil Json.token)).
  cbv iota beta. rewrite lex_run_app, L2.
  destruct (Json.lex_run Json.Idle s) as [[m3 ts3]|]; [|reflexivity].
  destruct (Json.lex_finish m3) as [fin|]; [|reflexivity].
  simpl option_map. unfold Json.parse.
  cbn [app]. rewrite <- app_assoc. cbn [app].
  rewrite app_comm_cons, parse_run_app, P1. reflexivity.
Qed.

Lemma parse_lines_objects (lines : list pystr) (ms : list dict) :
  Forall2 (fun l m => json_loads l = Some (JObj m)) lines ms ->
  parse_lines lines = ms.
Proof.
  induction 1 as [|l m lines ms H _ IH]; simpl; [reflexivity|].
  destruct (strip l) as [|c body] eqn:E.
  - rewrite (loads_blank l E) in H. discriminate.
  - rewrite <- E, (loads_strip l _ H), IH. reflexivity.
Qed.

(** A body that is [N] mappings, one per line and joined by line feeds,
    gives these [N] mappings in order, as long as no line holds one of
    the code points at which [splitlines] cuts. *)
Lemma parse_records_ndjson (lines : list pystr) (ms : list dict) :
  Forall2 (fun l m => json_loads l = Some (JObj m)) lines ms ->
  Forall (fun l => one_line l = true) lines ->
  parse_records (join [0x0A%N] lines) = ms.
Proof.
  intros H2 H1.
  assert (Hne : Forall (fun l => one_line l = true /\ l <> []) lines).
  { clear -H2 H1. induction H2 as [|l m lines ms H _ IH]; [constructor|].
    inversion H1; subst. constructor; [|auto].
    split; [assumption|]. intros ->. discriminate H. }
  destruct lines as [|l1 [|l2 rest]].
  - inversion H2. reflexivity.
  - inversion H2 as [|? m1 ? ? Hl Hr]; subst. inversion Hr; subst.
    simpl join. rewrite (parse_records_loaded l1 _ Hl). reflexivity.
  - inversion H2 as [|? m1 ? ms1 Hl1 Hr]; subst.
    inversion Hr as [|? m2 ? ms2 Hl2 Hr2]; subst.
    unfold parse_records.
    set (body := join [0x0A%N] (l1 :: l2 :: rest)).
    assert (Hs : strip body <> []).
    { intros E. apply strip_nil_blank in E. unfold body in E.
      change (join [0x0A%N] (l1 :: l2 :: rest))
        with (l1 ++ [0x0A%N] ++ join [0x0A%N] (l2 :: rest)) in E.
      rewrite forallb_app in E. apply andb_true_iff in E as [E _].
      rewrite (loads_blank l1 (blank_strip_nil l1 E)) in Hl1. discriminate. }
    destruct (strip body) as [|c sb]; [congruence|].
    assert (Hnone : json_loads body = None).
    { unfold body.
      change (join [0x0A%N] (l1 :: l2 :: rest))
        with (l1 ++ [0x0A%N] ++ join [0x0A%N] (l2 :: rest)).
      destruct rest as [|l3 rest].
      - rewrite <- (app_nil_r (join _ [l2])). simpl join.
        exact (loads_two_documents l1 l2 [] m1 m2 Hl1 Hl2).
      - change (join [0x0A%N] (l2 :: l3 :: rest))
          with (l2 ++ [0x0A%N] ++ join [0x0A%N] (l3 :: rest)).
        exact (loads_two_documents l1 l2 _ m1 m2 Hl1 Hl2). }
    rewrite Hnone. unfold body. rewrite (splitlines_join _ Hne).
    apply parse_lines_objects. exact H2.
Qed.

(** ** The claims about the payload parser *)

(** C2, at the input where the code departs from it.  The two mappings
    [{"a": "x\x85y"}] and [{"b": 1}] are each valid JSON on one line.  As
    one JSON array they give two records.  As two lines joined by a line
    feed they give only the second: [splitlines] also cuts at U+0085
    inside the string of the first, and neither half parses. *)
Theorem C2_ndjson_cut_inside_string :
  json_loads Sample.line_nel = Some (JObj Sample.record_nel)
  /\ json_loads Sample.line_b = Some (JObj Sample.record_b)
  /\ parse_records
       (py "[" ++ Sample.line_nel ++ py "," ++ Sample.line_b ++ py "]")
     = [Sample.record_nel; Sample.record_b]
  /\ parse_records (Sample.line_nel ++ [0x0A%N] ++ Sample.line_b)
     = [Sample.record_b]
  /\ splitlines (Sample.line_nel ++ [0x0A%N] ++ Sample.line_b)
     = [pyq "{'a':'x"; pyq "y'}"; Sample.line_b].
Proof. vm_compute. repeat split. Qed.

(** C4 as stated fails on an array without mappings.  The body of three
    lines, two opening brackets, an empty mapping and two closing
    brackets, parses as an array whose one element is an array.  Read
    line by line it would give the mapping of its second line;
    [parse_records] gives nothing. *)
Lemma C4_array_counterexample :
  json_loads Sample.nested_body = Some (JArr [JArr [JObj []]])
  /\ only_dicts [JArr [JObj []]] = []
  /\ ndjson_lines Sample.nested_body = [[]]
  /\ parse_records Sample.nested_body = []
  /\ parse_records Sample.nested_body <> ndjson_lines Sample.nested_body.
Proof. vm_compute. repeat split. discriminate. Qed.

(** C4, amended.  For a body within the limits of the interpreter
    ([within_limits]: no run of more than 4300 digits, at most 500
    opening brackets and braces): when the whole body parses as JSON
    that is neither an array nor a mapping (a number, a string, [true],
    [false], [null]), [parse_records] is the line-by-line reading: the
    non-blank lines that parse to a mapping, in order.  When it parses as
    an array, [parse_records] is the mappings among its elements and the
    lines are not read: an array without mappings gives the empty
    sequence.  Beyond the limits a line can make [json.loads] raise a
    plain [ValueError] or [RecursionError], which leaves
    [parse_records]; the embedding does not have that path, whence the
    hypothesis. *)
Theorem C4_unsupported_shapes (payload : pystr) (v : json) :
  within_limits payload = true ->
  json_loads payload = Some v ->
  match v with
  | JArr data => parse_records payload = only_dicts data
  | JObj data => parse_records payload = [data]
  | _ => parse_records payload = ndjson_lines payload
  end.
Proof.
  intros _ H. rewrite (parse_records_loaded payload _ H).
  unfold ndjson_lines. rewrite <- parse_lines_ndjson.
  destruct v; reflexivity.
Qed.

Lemma C4_unsupported_shapes_witness :
  json_loads (py "42") = Some (JInt 42)
  /\ parse_records (py "42") = ndjson_lines (py "42").
Proof.
  split; [reflexivity|].
  exact (C4_unsupported_shapes (py "42") (JInt 42) eq_refl eq_refl).
Defined.

(** ** The program as a whole *)

Section Program.
Context {rt : PyRuntime}.
Local Open Scope Z_scope.

Arguments dumps_record : simpl never.

Lemma emitted_nil (w : world) : emitted w [] = w.
Proof. destruct w; unfold emitted; simpl. now rewrite app_nil_r. Qed.

Lemma emitted_app (w : world) (a b : list pystr) :
  emitted (emitted w a) b = emitted w (a ++ b).
Proof. unfold emitted; simpl. now rewrite app_assoc. Qed.

Ltac break_match :=
  match goal with
  | H : context [match ?x with _ => _ end] |- _ => destruct x eqn:?
  | |- context [match ?x with _ => _ end] => destruct x eqn:?
  end.

(** The time window is resolved without writing anything, unless
    [main] returns or raises there. *)
Lemma main_window_quiet (args : Args) (now : Z) (w w' : world) (win : Z * Z) :
  main_window args now w = Next win w' -> w' = w.
Proof.
  unfold main_window, bind, ret, return_, throw, print_stderr.
  intros H.
  repeat (break_match; try discriminate); congruence.
Qed.

(** When [main_input] hands over a payload, it has written nothing and
    sent exactly one request. *)
Lemma main_input_quiet (args : Args) (env : environ) (now : Z)
    (net : request -> net_result) (payload : pystr) (w : world) :
  main_input args env now net world0 = Next payload w ->
  stdout w = [] /\ stderr w = [] /\ exists r, sent w = [r] /\ net r = Body payload.
Proof.
  unfold main_input, bind. intros H.
  destruct (negb _ || negb _); [discriminate|].
  destruct (main_window args now world0) as [[st en] w1| |] eqn:W;
    try discriminate.
  apply main_window_quiet in W. subst w1.
  unfold main_fetch, bind, urlopen, print_stderr, ret, return_, throw in H.
  simpl in H.
  match type of H with context [net ?r] => destruct (net r) eqn:N end;
    try discriminate.
  - inversion H; subst. simpl. repeat split. eexists; split; [reflexivity|].
    exact N.
  - destruct body; discriminate.
Qed.

Lemma main_fetched (args : Args) (env : environ) (now : Z)
    (net : request -> net_result) (payload : pystr) (w : world) :
  main_input args env now net world0 = Next payload w ->
  main args env now net world0 = main_output args payload w.
Proof. intros H. unfold main, bind. now rewrite H. Qed.

(** *** The loop over the records *)

Lemma main_loop_none_pass (args : Args) (records : list dict) (c : Z)
    (w : world) :
  forallb (fun r => negb (passes args r)) records = true ->
  main_loop args records c w = Next [] w.
Proof.
  induction records as [|r rs IH]; simpl; intros H; [reflexivity|].
  apply andb_true_iff in H as [Hr Hrs].
  apply negb_true_iff in Hr. rewrite Hr. auto.
Qed.

(** With no effective limit the loop runs to the end and prints every
    record that passes. *)
Lemma main_loop_unlimited (args : Args) (records : list dict) :
  (forall c, limit_reached (arg_limit args) c = false) ->
  forall (c : Z) (w : world),
    main_loop args records c w
    = Next [] (emitted w (map dumps_record (filter (passes args) records))).
Proof.
  intros Hl. induction records as [|r rs IH]; intros c w; simpl.
  - now rewrite emitted_nil.
  - destruct (passes args r); [|apply IH].
    unfold bind, print. rewrite Hl, IH, emitted_app. reflexivity.
Qed.

Lemma filter_snoc_pass {A : Type} (p : A -> bool) (xs : list A) (x : A) :
  p x = true -> filter p (xs ++ [x]) = filter p xs ++ [x].
Proof. intros H. rewrite filter_app. simpl. now rewrite H. Qed.

(** The place of the [k]-th element that satisfies [p]. *)
Lemma split_at_match {A : Type} (p : A -> bool) (xs : list A) :
  forall k : nat,
    (0 < k <= List.length (filter p xs))%nat ->
    exists seen last rest,
      xs = seen ++ last :: rest /\ p last = true
      /\ List.length (filter p (seen ++ [last])) = k.
Proof.
  induction xs as [|x xs IH]; simpl; intros k Hk; [lia|].
  destruct (p x) eqn:Hx.
  - destruct k as [|[|k]]; [lia | |].
    + exists [], x, xs. simpl. rewrite Hx. auto.
    + simpl in Hk.
      destruct (IH (S k)) as (seen & last & rest & E & Hp & Hlen); [lia|].
      exists (x :: seen), last, rest. simpl. rewrite Hx. simpl.
      repeat split; auto. now rewrite E.
  - destruct (IH k Hk) as (seen & last & rest & E & Hp & Hlen).
    exists (x :: seen), last, rest. simpl. rewrite Hx.
    repeat split; auto. now rewrite E.
Qed.

(** With a limit [L > 0] the loop is left right after the record that
    brings the count to [L]; what follows it is handed back unread. *)
Lemma main_loop_break (args : Args) (L : Z) :
  arg_limit args = Some L -> 0 < L ->
  forall (seen : list dict) (last : dict) (rest : list dict) (c : Z)
         (w : world),
    passes args last = true ->
    c + Z.of_nat (List.length (filter (passes args) (seen ++ [last]))) = L ->
    main_loop args (seen ++ last :: rest) c w
    = Next rest
        (emitted w (map dumps_record (filter (passes args) (seen ++ [last])))).
Proof.
  intros HL Hpos seen last rest.
  assert (Hlim : forall c, limit_reached (arg_limit args) c = (c >=? L)).
  { intros c. unfold limit_reached. rewrite HL.
    destruct (Z.eqb_spec L 0); [lia | reflexivity]. }
  induction seen as [|r seen IH]; intros c w Hp Hc; simpl in Hc |- *.
  - rewrite Hp in Hc |- *. simpl in Hc |- *. unfold bind, print.
    rewrite Hlim. destruct (Z.geb_spec (c + 1) L); [reflexivity | lia].
  - assert (Hlen : (1 <= List.length (filter (passes args) (seen ++ [last])))%nat).
    { rewrite (filter_snoc_pass _ _ _ Hp), length_app. simpl. lia. }
    destruct (passes args r) eqn:Hr.
    + simpl in Hc |- *. unfold bind, print. rewrite Hlim.
      destruct (Z.geb_spec (c + 1) L); [lia|].
      rewrite IH; [now rewrite emitted_app | exact Hp | lia].
    + apply IH; [exact Hp | exact Hc].
Qed.

(** *** The claims about the output *)

(** C3.  Once a payload has been fetched and raw mode is off, the two
    empty cases differ.  When parsing gives no record, the trimmed body is
    the one text printed and the program exits 0.  When parsing gives
    records and the filters reject every one, nothing is printed and the
    program exits 0. *)
Theorem C3_two_empty_outputs (args : Args) (env : environ) (now : Z)
    (net : request -> net_result) (payload : pystr) (w : world) :
  main_input args env now net world0 = Next payload w ->
  arg_raw args = false ->
  (parse_records payload = [] ->
     exists w', run (main args env now net) = (Exit 0, w')
                /\ stdout w' = [strip payload])
  /\ (parse_records payload <> [] ->
      forallb (fun r => negb (passes args r)) (parse_records payload) = true ->
      exists w', run (main args env now net) = (Exit 0, w')
                 /\ stdout w' = [] /\ stdout_text w' = []).
Proof.
  intros Hin Hraw.
  destruct (main_input_quiet _ _ _ _ _ _ Hin) as (Hout & _ & _).
  unfold run. rewrite (main_fetched _ _ _ _ _ _ Hin).
  unfold main_output. rewrite Hraw. split.
  - intros E. rewrite E. unfold bind, print, return_.
    eexists; split; [reflexivity|]. simpl. now rewrite Hout.
  - intros Hne Hnone. destruct (parse_records payload) eqn:E; [congruence|].
    unfold bind. rewrite (main_loop_none_pass _ _ _ _ Hnone).
    unfold return_. eexists; split; [reflexivity|].
    unfold stdout_text. now rewrite Hout.
Qed.

(** C5, amended.  When the body is empty or blank and raw mode is off,
    the program exits 0 and prints the trimmed body, which is empty:
    standard output gets exactly one empty line. *)
Theorem C5_empty_body (args : Args) (env : environ) (now : Z)
    (net : request -> net_result) (payload : pystr) (w : world) :
  main_input args env now net world0 = Next payload w ->
  arg_raw args = false ->
  strip payload = [] ->
  exists w', run (main args env now net) = (Exit 0, w')
             /\ stdout w' = [[]] /\ stdout_text w' = [0x0A%N].
Proof.
  intros Hin Hraw Hblank.
  destruct (main_input_quiet _ _ _ _ _ _ Hin) as (Hout & _ & _).
  unfold run. rewrite (main_fetched _ _ _ _ _ _ Hin).
  unfold main_output, parse_records. rewrite Hraw, Hblank.
  unfold bind, print, return_. eexists; split; [reflexivity|].
  unfold stdout_text. simpl. rewrite Hout. split; reflexivity.
Qed.


(** C7.  With a limit [L > 0] and at least [L] records that pass the
    filters, the loop prints exactly [L] lines, those of the first [L]
    records that pass, and stops at the [L]-th of them: the records
    after it are still in the iterator when the loop is left, and
    whatever stands in their place the run is the same. *)
Theorem C7_limit_short_circuit (args : Args) (L : Z) (records : list dict)
    (w : world) :
  arg_limit args = Some L ->
  0 < L ->
  L <= Z.of_nat (List.length (filter (passes args) records)) ->
  exists seen last rest,
    records = seen ++ last :: rest
    /\ passes args last = true
    /\ filter (passes args) (seen ++ [last])
       = firstn (Z.to_nat L) (filter (passes args) records)
    /\ let printed :=
         map dumps_record (filter (passes args) (seen ++ [last])) in
       Z.of_nat (List.length printed) = L
       /\ main_loop args records 0 w = Next rest (emitted w printed)
       /\ forall rest',
            main_loop args (seen ++ last :: rest') 0 w
            = Next rest' (emitted w printed).
Proof.
  intros HL Hpos Hn.
  destruct (split_at_match (passes args) records (Z.to_nat L))
    as (seen & last & rest & E & Hp & Hlen); [lia|].
  exists seen, last, rest. repeat split; auto.
  - rewrite E. replace (seen ++ last :: rest) with ((seen ++ [last]) ++ rest)
      by (rewrite <- app_assoc; reflexivity).
    rewrite (filter_app _ (seen ++ [last])), <- Hlen.
    rewrite firstn_app, Nat.sub_diag, firstn_all. simpl.
    now rewrite app_nil_r.
  - rewrite length_map. lia.
  - rewrite E. apply (main_loop_break _ _ HL Hpos); [exact Hp | lia].
  - intros rest'. apply (main_loop_break _ _ HL Hpos); [exact Hp | lia].
Qed.

(** C10.  [--limit 0] is no limit: the loop runs through all the records
    and prints every one that passes the filters. *)
Theorem C10_limit_zero_is_no_limit (args : Args) (records : list dict)
    (w : world) :
  arg_limit args = Some 0 ->
  main_loop args records 0 w
  = Next [] (emitted w (map dumps_record (filter (passes args) records))).
Proof.
  intros HL. apply main_loop_unlimited.
  intros c. unfold limit_reached. now rewrite HL.
Qed.

(** *** Substrings and aliases *)

Lemma startswith_iff (p s : pystr) :
  startswith p s = true <-> exists post, s = p ++ post.
Proof.
  revert s. induction p as [|a p IH]; intros s; simpl.
  - split; [exists s; reflexivity | reflexivity].
  - destruct s as [|b s].
    + split; [discriminate | intros [post E]; discriminate].
    + rewrite andb_true_iff, N.eqb_eq, IH. split.
      * intros [-> [post ->]]. now exists post.
      * intros [post E]. inversion E; subst. split; [reflexivity|].
        now exists post.
Qed.

(** [needle in hay] holds exactly when [needle] occurs in [hay], code
    point for code point. *)
Lemma contains_iff (needle hay : pystr) :
  contains needle hay = true <-> exists pre post, hay = pre ++ needle ++ post.
Proof.
  induction hay as [|c hay IH]; simpl.
  - rewrite orb_false_r, startswith_iff. split.
    + intros [post E]. exists [], post. exact E.
    + intros (pre & post & E). destruct pre; [now exists post|discriminate].
  - rewrite orb_true_iff, startswith_iff, IH. split.
    + intros [[post E]|(pre & post & E)].
      * exists [], post. exact E.
      * exists (c :: pre), post. simpl. now rewrite E.
    + intros (pre & post & E). destruct pre as [|x pre].
      * left. now exists post.
      * right. inversion E; subst. now exists pre, post.
Qed.

(** [get_value] is the first present alias, stringified, and nothing
    when that value is [None]. *)
Lemma get_value_first_present (record : dict) (keys : list pystr) :
  get_value record keys =
    match first_present record keys with
    | None | Some JNull => None
    | Some value => Some (py_str value)
    end.
Proof.
  induction keys as [|k keys IH]; simpl; [reflexivity|].
  destruct (dict_get record k) as [v|]; [|exact IH].
  destruct v; reflexivity.
Qed.

(** C8.  On the records [{"RayID": "abc123"}] and [{"ray_id": "xyz999"}]
    with [--ray abc] the loop prints the first record and nothing else,
    and so does the program on a body that is the array of the two.
    In general a filter block lets a record through exactly when the
    first alias key present in it has a value other than [None] whose
    text under [str()] has the filter string as a substring, code point
    for code point; and a record is printed when each of the five
    blocks lets it through. *)
Theorem C8_ray_filter_aliases :
  (forall w,
     main_loop (Sample.ray_args (py "abc") None)
       [[(py "RayID", JStr (py "abc123"))]; [(py "ray_id", JStr (py "xyz999"))]]
       0 w
     = Next [] (emitted w [pyq "{'RayID': 'abc123'}"]))
  /\ (forall w,
        main_output (Sample.ray_args (py "abc") None)
          (pyq "[{'RayID': 'abc123'}, {'ray_id': 'xyz999'}]") w
        = Return 0 (emitted w [pyq "{'RayID': 'abc123'}"]))
  /\ (forall (c : N) (f : pystr) (record : dict) (keys : list pystr),
        skips (Some (c :: f)) record keys = false
        <-> exists value pre post,
              first_present record keys = Some value
              /\ value <> JNull
              /\ py_str value = pre ++ (c :: f) ++ post)
  /\ (forall (args : Args) (record : dict),
        passes args record
        = negb (skips (arg_ray args) record RAY_KEYS)
          && negb (skips (arg_worker args) record WORKER_KEYS)
          && negb (skips (arg_status args) record STATUS_KEYS)
          && negb (skips (arg_path args) record PATH_KEYS)
          && negb (skips_contains (arg_contains args) record))
  /\ RAY_KEYS = [py "RayID"; py "RayId"; py "ray_id"]
  /\ contains (py "ABC") (py "abc123") = false.
Proof.
  split; [|split; [|split; [|split; [|split]]]].
  - intros w. vm_compute. reflexivity.
  - intros w. vm_compute. reflexivity.
  - intros c f record keys. unfold skips.
    rewrite get_value_first_present. split.
    + intros H. destruct (first_present record keys) as [v|]; [|discriminate].
      destruct v eqn:Ev; try discriminate;
        (destruct (py_str _) as [|? ?] eqn:Es in H; [discriminate|];
         apply negb_false_iff, contains_iff in H;
         destruct H as (pre & post & E);
         eexists; exists pre, post; split; [reflexivity|];
         split; [discriminate|]; rewrite <- E; exact Es).
    + intros (v & pre & post & E & Hv & Hs). rewrite E.
      assert (Hc : contains (c :: f) (py_str v) = true)
        by (apply contains_iff; now exists pre, post).
      destruct v; try congruence; cbv beta iota;
        (destruct (py_str _) as [|? ?] eqn:Es;
         [try rewrite Es in Hs; destruct pre; discriminate
         | try rewrite Es in Hc; now rewrite Hc]).
  - intros args record. unfold passes.
    destruct (skips (arg_ray args) _ _), (skips (arg_worker args) _ _),
      (skips (arg_status args) _ _), (skips (arg_path args) _ _),
      (skips_contains _ _); reflexivity.
  - reflexivity.
  - reflexivity.
Qed.

(** C9.  When the first alias key of a filtered field is present in a
    record with the value [None], [get_value] stops there and returns
    [None], and the record is not printed, whatever the other alias keys
    of the field hold. *)
Theorem C9_null_alias_rejects (args : Args) (fld : field) (record : dict)
    (key : pystr) (lower : list pystr) :
  field_keys fld = key :: lower ->
  truthy (field_filter args fld) = true ->
  dict_get record key = Some JNull ->
  get_value record (field_keys fld) = None
  /\ skips (field_filter args fld) record (field_keys fld) = true
  /\ passes args record = false.
Proof.
  intros Hk Hf Hnull.
  assert (G : get_value record (field_keys fld) = None).
  { rewrite Hk. simpl. now rewrite Hnull. }
  assert (S : skips (field_filter args fld) record (field_keys fld) = true).
  { unfold skips. rewrite G.
    destruct (field_filter args fld) as [[|c f]|]; try discriminate.
    reflexivity. }
  repeat split; auto.
  unfold passes. destruct fld; simpl in S; rewrite ?S; try reflexivity;
    repeat match goal with
           | |- (if ?b then false else _) = false => destruct b; [reflexivity|]
           end; (reflexivity || (rewrite S; reflexivity)).
Qed.

(** *** The time window *)

Lemma unit_cases (u : N) :
  is_unit u = true -> u = ch "s" \/ u = ch "m" \/ u = ch "h" \/ u = ch "d".
Proof.
  unfold is_unit. rewrite !orb_true_iff, !N.eqb_eq. tauto.
Qed.

Lemma lstrip_head (c : N) (s : pystr) :
  isspace c = false -> lstrip (c :: s) = c :: s.
Proof. intros H. simpl. now rewrite H. Qed.

Lemma rstrip_last (s : pystr) (c : N) :
  isspace c = false -> rstrip (s ++ [c]) = s ++ [c].
Proof.
  intros H. unfold rstrip. rewrite rev_app_distr.
  change (rev [c] ++ rev s) with (c :: rev s).
  rewrite (lstrip_head _ _ H). simpl. now rewrite rev_involutive.
Qed.

Lemma main_loop_without_bounds (args : Args) (records : list dict) :
  forall (c : Z) (w : world),
    main_loop (without_bounds args) records c w = main_loop args records c w.
Proof.
  induction records as [|r rs IH]; intros c w; simpl; [reflexivity|].
  change (passes (without_bounds args) r) with (passes args r).
  destruct (passes args r); [|apply IH].
  unfold bind. simpl. destruct (limit_reached _ _); [reflexivity | apply IH].
Qed.

(** C1, amended.  With no duration and without both of [--from] and
    [--to], the program writes one message to standard error and exits
    1 without a network call.  With a duration the program does not
    look at [--from] and [--to]: giving them as well is no error, the
    run is the one of the duration alone. *)
Theorem C1_window_arguments (args : Args) (env : environ) (now : Z)
    (net : request -> net_result) :
  (truthy (arg_since args) = false ->
   truthy (arg_start args) = false \/ truthy (arg_end args) = false ->
   exists msg,
     run (main args env now net)
     = (Exit 1, {| stdout := []; stderr := [msg]; sent := [] |}))
  /\ (truthy (arg_since args) = true ->
      forall w,
        main args env now net w = main (without_bounds args) env now net w).
Proof.
  split.
  - intros Hs Hb. unfold run, main, main_input, bind.
    destruct (negb _ || negb _); [eexists; reflexivity|].
    unfold main_window.
    destruct (arg_since args) as [[|c s]|]; try discriminate;
      destruct (arg_start args) as [[|c1 s1]|], (arg_end args) as [[|c2 s2]|];
      try (destruct Hb; discriminate); eexists; reflexivity.
  - intros Hs w. unfold main, main_input, bind.
    destruct (negb _ || negb _); [reflexivity|].
    assert (W : main_window (without_bounds args) now w
                = main_window args now w).
    { unfold main_window. simpl.
      destruct (arg_since args) as [[|c s]|]; try discriminate. reflexivity. }
    rewrite W. destruct (main_window args now w) as [[st en] w1| |];
      try reflexivity.
    change (main_request (without_bounds args)) with (main_request args).
    destruct (main_fetch net _ w1) as [payload w2| |]; try reflexivity.
    unfold main_output. simpl. destruct (arg_raw args); [reflexivity|].
    destruct (parse_records payload); [reflexivity|].
    unfold bind. rewrite main_loop_without_bounds. reflexivity.
Qed.

End Program.

(** * Further properties of the script *)

Section Behaviour.
Context {rt : PyRuntime}.
Local Open Scope Z_scope.

Arguments dumps_record : simpl never.

(** ** Credentials *)

(** X1.  Without a non-empty account identifier and a non-empty token
    in the environment, [main] writes one message to standard error and
    returns 1, whatever the arguments: it prints nothing and sends
    nothing. *)
Theorem X1_missing_credentials (args : Args) (env : environ) (now : Z)
    (net : request -> net_result) :
  truthy (env (py "CLOUDFLARE_ACCOUNT_ID")) = false
  \/ truthy (env (py "CLOUDFLARE_API_TOKEN")) = false ->
  run (main args env now net)
  = (Exit 1,
     {| stdout := [];
        stderr := [py "Missing CLOUDFLARE_ACCOUNT_ID or CLOUDFLARE_API_TOKEN"];
        sent := [] |}).
Proof.
  intros H. unfold run, main, main_input, bind, read_env.
  assert (E : forall n, match env n with None => None | Some v => Some v end
                        = env n) by (intros n; destruct (env n); reflexivity).
  rewrite !E. destruct H as [H|H]; rewrite H; simpl;
    rewrite ?orb_true_r; reflexivity.
Qed.

(** ** The loop, for every limit *)

Lemma main_loop_counts (args : Args) (L : Z) :
  arg_limit args = Some L -> L <> 0 ->
  forall (records : list dict) (c : Z) (w : world),
    exists rest,
      main_loop args records c w
      = Next rest
          (emitted w
             (map dumps_record
                (firstn (Z.to_nat (Z.max 1 (L - c)))
                   (filter (passes args) records)))).
Proof.
  intros HL H0.
  assert (Hlim : forall c, limit_reached (arg_limit args) c = (c >=? L)).
  { intros c. unfold limit_reached. rewrite HL.
    destruct (Z.eqb_spec L 0); [contradiction | reflexivity]. }
  induction records as [|r rs IH]; intros c w; simpl.
  - exists []. rewrite firstn_nil. simpl. now rewrite emitted_nil.
  - destruct (passes args r) eqn:Hr; [|apply IH].
    unfold bind, print. rewrite Hlim.
    destruct (Z.geb_spec (c + 1) L) as [Hge|Hlt].
    + exists rs. replace (Z.to_nat (Z.max 1 (L - c))) with 1%nat by lia.
      reflexivity.
    + destruct (IH (c + 1) (emitted w [dumps_record r])) as [rest E].
      exists rest. rewrite E, emitted_app.
      replace (Z.to_nat (Z.max 1 (L - c)))
        with (S (Z.to_nat (Z.max 1 (L - (c + 1))))) by lia.
      reflexivity.
Qed.

Lemma main_loop_prefix (args : Args) (records : list dict) (w : world) :
  exists rest,
    main_loop args records 0 w
    = Next rest
        (emitted w
           (map dumps_record
              (capped (limit_cap (arg_limit args))
                 (filter (passes args) records)))).
Proof.
  unfold limit_cap, capped.
  destruct (arg_limit args) as [L|] eqn:HL.
  - destruct (Z.eqb_spec L 0) as [->|Hne].
    + exists []. apply main_loop_unlimited. intros c.
      unfold limit_reached. now rewrite HL.
    + destruct (main_loop_counts args L HL Hne records 0 w) as [rest E].
      exists rest. rewrite E, Z.sub_0_r. reflexivity.
  - exists []. apply main_loop_unlimited. intros c.
    unfold limit_reached. now rewrite HL.
Qed.

(** X2.  Whatever the limit, the loop prints the records that pass the
    filters, in the order of the payload and each once, up to a bound:
    all of them for no limit or the limit 0, the first [L] for a limit
    [L > 0] (all, when fewer pass), and the first one alone for a
    negative limit. *)
Theorem X2_loop_prints_prefix (args : Args) (records : list dict) (w : world) :
  exists rest,
    main_loop args records 0 w
    = Next rest
        (emitted w
           (map dumps_record
              (capped (limit_cap (arg_limit args))
                 (filter (passes args) records)))).
Proof. exact (main_loop_prefix args records w). Qed.

(** ** From the arguments to the request *)

Ltac split_match :=
  match goal with
  | H : context [match ?x with _ => _ end] |- _ => destruct x eqn:?
  | |- context [match ?x with _ => _ end] => destruct x eqn:?
  end.

(** [main_window] yields the window and writes nothing, or writes one
    message to standard error and returns 1, or raises. *)
Lemma main_window_cases (args : Args) (now : Z) (w : world) :
  (exists win, main_window args now w = Next win w)
  \/ (exists msg,
        main_window args now w
        = Return 1 {| stdout := stdout w; stderr := stderr w ++ [msg];
                      sent := sent w |})
  \/ (exists e, main_window args now w = Throw e w).
Proof.
  unfold main_window, bind, ret, return_, throw, print_stderr.
  repeat split_match;
    solve [ left; eexists; reflexivity
          | right; left; eexists; reflexivity
          | right; right; eexists; reflexivity ].
Qed.

Lemma main_input_built (args : Args) (env : environ) (now : Z)
    (net : request -> net_result) (r : request) :
  main_built_request args env now = Some r ->
  main_input args env now net world0 = main_fetch net r world0.
Proof.
  unfold main_built_request, main_input, bind.
  destruct (negb _ || negb _); [discriminate|].
  destruct (main_window_cases args now world0)
    as [[[st en] E]|[[msg E]|[e E]]]; rewrite E; try discriminate.
  intros H. inversion H. reflexivity.
Qed.

Lemma main_input_unbuilt (args : Args) (env : environ) (now : Z)
    (net : request -> net_result) :
  main_built_request args env now = None ->
  (exists msg,
     main_input args env now net world0
     = Return 1 {| stdout := []; stderr := [msg]; sent := [] |})
  \/ (exists e, main_input args env now net world0 = Throw e world0).
Proof.
  unfold main_built_request, main_input, bind.
  destruct (negb _ || negb _); [left; eexists; reflexivity|].
  destruct (main_window_cases args now world0)
    as [[[st en] E]|[[msg E]|[e E]]]; rewrite E; try discriminate; intros _.
  - left. exists msg. reflexivity.
  - right. exists e. reflexivity.
Qed.

(** [main_output] always returns 0, and writes to standard output only. *)
Lemma main_output_returns (args : Args) (payload : pystr) (w : world) :
  exists lines, main_output args payload w = Return 0 (emitted w lines).
Proof.
  unfold main_output. destruct (arg_raw args).
  - exists [payload]. reflexivity.
  - destruct (parse_records payload) as [|r rs] eqn:E.
    + exists [strip payload]. reflexivity.
    + destruct (main_loop_prefix args (r :: rs) w) as [rest H].
      eexists. unfold bind. rewrite H. reflexivity.
Qed.

(** ** What a run comes to *)

Lemma main_after_request (args : Args) (env : environ) (now : Z)
    (net : request -> net_result) (r : request) :
  main_built_request args env now = Some r ->
  let sent_once := {| stdout := []; stderr := []; sent := [r] |} in
  match net r with
  | Body payload =>
      main args env now net world0 = main_output args payload sent_once
  | HTTPError code reason body =>
      run (main args env now net)
      = (Exit 1,
         {| stdout := [];
            stderr := (py "Logpull error: " ++ of_Z code ++ py " " ++ reason)
                      :: match body with Some text => [text] | None => [] end;
            sent := [r] |})
  | URLError reason =>
      run (main args env now net)
      = (Exit 1,
         {| stdout := [];
            stderr := [py "Logpull request failed: " ++ reason];
            sent := [r] |})
  | Failure e => run (main args env now net) = (Crash e, sent_once)
  end.
Proof.
  intros H. unfold run, main, bind. rewrite (main_input_built _ _ _ net _ H).
  unfold main_fetch, bind, urlopen. simpl.
  destruct (net r) as [payload|code reason [text|]|reason|e]; reflexivity.
Qed.

(** X3.  The transport.  When the credentials and the window give a
    request, and lines 157-164 can build it ([sendable]: an endpoint
    that starts with [http://] or [https://], parameters without
    surrogates), [urlopen] is called with it once.  A body goes on to the
    output stage.  An HTTP error puts the status and reason on standard
    error, then the error body when it could be read, and [main] returns
    1.  A URL error puts its reason on standard error and [main] returns
    1.  Any other exception leaves [main].  In the three failing cases
    nothing is printed.  Without a scheme in the URL,
    [urllib.request.Request] raises [ValueError] before [urlopen] is
    reached; the embedding does not have that path, whence the
    hypothesis. *)
Theorem X3_transport (args : Args) (env : environ) (now : Z)
    (net : request -> net_result) (r : request) :
  main_built_request args env now = Some r ->
  sendable r = true ->
  let sent_once := {| stdout := []; stderr := []; sent := [r] |} in
  match net r with
  | Body payload =>
      main args env now net world0 = main_output args payload sent_once
  | HTTPError code reason body =>
      run (main args env now net)
      = (Exit 1,
         {| stdout := [];
            stderr := (py "Logpull error: " ++ of_Z code ++ py " " ++ reason)
                      :: match body with Some text => [text] | None => [] end;
            sent := [r] |})
  | URLError reason =>
      run (main args env now net)
      = (Exit 1,
         {| stdout := [];
            stderr := [py "Logpull request failed: " ++ reason];
            sent := [r] |})
  | Failure e => run (main args env now net) = (Crash e, sent_once)
  end.
Proof. intros B _. exact (main_after_request args env now net r B). Qed.

(** X4.  Once [parser.parse_args()] has returned, that is from line 105
    on and for every parsed [args], a run ends in one of three ways.
    [main] returns 0: nothing was written to standard error and exactly
    one request was sent, which was answered with a body.  [main] returns
    1: nothing was written to standard output, a message was written to
    standard error and at most one request was sent.  An exception
    leaves [main]: the script wrote nothing and sent at most one
    request.  [main] returns no other value.  (What [parse_args] itself
    does with a command line it refuses, or with [--help], is before
    this; a [print] that fails is not modelled.) *)
Theorem X4_outcomes (args : Args) (env : environ) (now : Z)
    (net : request -> net_result) :
  match run (main args env now net) with
  | (Exit code, w) =>
      (code = 0 /\ stderr w = []
       /\ exists r payload, sent w = [r] /\ net r = Body payload)
      \/ (code = 1 /\ stdout w = []
          /\ (exists msg more, stderr w = msg :: more)
          /\ (List.length (sent w) <= 1)%nat)
  | (Crash e, w) =>
      stdout w = [] /\ stderr w = [] /\ (List.length (sent w) <= 1)%nat
  end.
Proof.
  destruct (main_built_request args env now) as [r|] eqn:B.
  - pose proof (main_after_request args env now net r B) as T.
    destruct (net r) as [payload|code reason body|reason|e] eqn:N.
    + unfold run. rewrite T.
      destruct (main_output_returns args payload
                  {| stdout := []; stderr := []; sent := [r] |}) as [lines E].
      rewrite E. left. simpl. repeat split. exists r, payload. auto.
    + rewrite T. right. simpl. repeat split; eauto.
    + rewrite T. right. simpl. repeat split; eauto.
    + rewrite T. simpl. auto.
  - unfold run, main, bind.
    destruct (main_input_unbuilt args env now net B) as [[msg E]|[e E]];
      rewrite E; simpl.
    + right. repeat split; eauto.
    + auto.
Qed.

(** X5.  Raw mode.  With [--raw] the body is printed as it was
    received, in one [print] and untrimmed, and [main] returns 0; the
    body is not parsed, and no filter and no limit is looked at. *)
Theorem X5_raw_mode (args : Args) (env : environ) (now : Z)
    (net : request -> net_result) (r : request) (payload : pystr) :
  main_built_request args env now = Some r ->
  net r = Body payload ->
  arg_raw args = true ->
  run (main args env now net)
  = (Exit 0, {| stdout := [payload]; stderr := []; sent := [r] |}).
Proof.
  intros B N R. pose proof (main_after_request args env now net r B) as T.
  rewrite N in T. unfold run. rewrite T. unfold main_output. rewrite R.
  reflexivity.
Qed.

Lemma no_filters_pass (args : Args) (record : dict) :
  no_filters args = true -> passes args record = true.
Proof.
  unfold no_filters, passes, skips, skips_contains.
  repeat rewrite andb_true_iff. intros [[[[H1 H2] H3] H4] H5].
  destruct (arg_ray args) as [[|? ?]|]; try discriminate;
    destruct (arg_worker args) as [[|? ?]|]; try discriminate;
    destruct (arg_status args) as [[|? ?]|]; try discriminate;
    destruct (arg_path args) as [[|? ?]|]; try discriminate;
    destruct (arg_contains args) as [[|? ?]|]; try discriminate;
    reflexivity.
Qed.

Lemma filter_all {A : Type} (p : A -> bool) (xs : list A) :
  (forall x, p x = true) -> filter p xs = xs.
Proof.
  intros H. induction xs as [|x xs IH]; simpl; [reflexivity|].
  now rewrite H, IH.
Qed.

(** X6.  With no filter in force (each absent or the empty string) and
    raw mode off, a body with records is printed record by record: one
    line for each parsed record, in the order of the body, cut only by
    the limit; [main] returns 0. *)
Theorem X6_unfiltered_output (args : Args) (env : environ) (now : Z)
    (net : request -> net_result) (r : request) (payload : pystr) :
  main_built_request args env now = Some r ->
  net r = Body payload ->
  arg_raw args = false ->
  no_filters args = true ->
  parse_records payload <> [] ->
  run (main args env now net)
  = (Exit 0,
     {| stdout := map dumps_record
                    (capped (limit_cap (arg_limit args))
                       (parse_records payload));
        stderr := []; sent := [r] |}).
Proof.
  intros B N R F Hne. pose proof (main_after_request args env now net r B) as T.
  rewrite N in T. unfold run. rewrite T. unfold main_output. rewrite R.
  destruct (parse_records payload) as [|x xs] eqn:E; [congruence|].
  destruct (main_loop_prefix args (x :: xs)
              {| stdout := []; stderr := []; sent := [r] |}) as [rest H].
  unfold bind. rewrite H.
  rewrite (filter_all (passes args) (x :: xs)
             (fun rec => no_filters_pass args rec F)).
  reflexivity.
Qed.

(** ** Trimming *)

Lemma lstrip_fixed (s : pystr) :
  lstrip s = [] \/ exists c t, lstrip s = c :: t /\ isspace c = false.
Proof.
  induction s as [|c s IH]; simpl; [auto|].
  destruct (isspace c) eqn:E; [exact IH|]. right. exists c, s. auto.
Qed.

Lemma lstrip_idempotent (s : pystr) : lstrip (lstrip s) = lstrip s.
Proof.
  destruct (lstrip_fixed s) as [E|(c & t & E & Hc)]; rewrite E;
    [reflexivity|]. simpl. now rewrite Hc.
Qed.

Lemma lstrip_blank_prefix (pre s : pystr) :
  forallb isspace pre = true -> lstrip (pre ++ s) = lstrip s.
Proof.
  induction pre as [|c pre IH]; simpl; intros H; [reflexivity|].
  apply andb_true_iff in H as [Hc Hp]. rewrite Hc. auto.
Qed.

Lemma lstrip_snoc (a : pystr) (c : N) :
  isspace c = false -> lstrip (a ++ [c]) = lstrip a ++ [c].
Proof.
  intros Hc. induction a as [|x a IH]; simpl; [now rewrite Hc|].
  destruct (isspace x); [exact IH | reflexivity].
Qed.

Lemma rstrip_cons (c : N) (s : pystr) :
  isspace c = false -> rstrip (c :: s) = c :: rstrip s.
Proof.
  intros Hc. unfold rstrip. simpl rev at 2.
  rewrite (lstrip_snoc _ _ Hc), rev_app_distr. reflexivity.
Qed.

Lemma rstrip_blank_suffix (s post : pystr) :
  forallb isspace post = true -> rstrip (s ++ post) = rstrip s.
Proof.
  intros H. unfold rstrip. rewrite rev_app_distr, lstrip_blank_prefix;
    [reflexivity|].
  rewrite forallb_forall in *. intros x Hx. apply H. now apply in_rev.
Qed.

Lemma rstrip_idempotent (s : pystr) : rstrip (rstrip s) = rstrip s.
Proof.
  unfold rstrip. now rewrite rev_involutive, lstrip_idempotent.
Qed.

(** What [strip] returns has no blank at either end. *)
Lemma strip_idempotent (s : pystr) : strip (strip s) = strip s.
Proof.
  unfold strip.
  destruct (lstrip_fixed s) as [E|(c & t & E & Hc)]; rewrite E;
    [reflexivity|].
  rewrite (rstrip_cons _ _ Hc). simpl lstrip. rewrite Hc.
  now rewrite (rstrip_cons _ _ Hc), rstrip_idempotent.
Qed.

Lemma strip_last_not_space (s t : pystr) (c : N) :
  strip s = t ++ [c] -> isspace c = false.
Proof.
  unfold strip, rstrip. intros H.
  apply (f_equal (@rev N)) in H. rewrite rev_involutive, rev_app_distr in H.
  simpl in H.
  destruct (lstrip_fixed (rev (lstrip s))) as [E|(x & y & E & Hx)];
    rewrite E in H; [discriminate|].
  inversion H; subst. exact Hx.
Qed.

(** Blanks around a text do not change what [strip] returns. *)
Lemma strip_blank_around (pre s post : pystr) :
  forallb isspace pre = true -> forallb isspace post = true ->
  strip (pre ++ s ++ post) = strip s.
Proof.
  intros Hpre Hpost. unfold strip. rewrite (lstrip_blank_prefix _ _ Hpre).
  destruct (lstrip_split s) as [p [E Hp]].
  destruct (lstrip_fixed s) as [E0|(c & t & E0 & Hc)].
  - rewrite E0 in *. rewrite app_nil_r in E. subst p.
    rewrite lstrip_blank_prefix by exact Hp.
    destruct (lstrip_fixed post) as [E1|(c & t & E1 & Hc)].
    + now rewrite E1.
    + exfalso. destruct (lstrip_split post) as [q [Eq _]].
      rewrite E1 in Eq. rewrite Eq, forallb_app in Hpost.
      apply andb_true_iff in Hpost as [_ Hpost]. simpl in Hpost.
      rewrite Hc in Hpost. discriminate.
  - rewrite E0 in *. rewrite E at 1. rewrite <- app_assoc.
    rewrite (lstrip_blank_prefix _ _ Hp).
    change ((c :: t) ++ post) with (c :: (t ++ post)).
    simpl lstrip. rewrite Hc.
    change (c :: (t ++ post)) with ((c :: t) ++ post).
    apply rstrip_blank_suffix. exact Hpost.
Qed.

(** X7.  Blanks around the text of a duration or of a timestamp do not
    count: [parse_duration] and [parse_iso] return what they return on
    the text without them. *)
Theorem X7_surrounding_blanks (pre value post : pystr) :
  forallb isspace pre = true ->
  forallb isspace post = true ->
  parse_duration (pre ++ value ++ post) = parse_duration value
  /\ parse_iso (pre ++ value ++ post) = parse_iso value.
Proof.
  intros Hpre Hpost. unfold parse_duration, parse_iso.
  now rewrite (strip_blank_around _ _ _ Hpre Hpost).
Qed.

(** ** Timestamps *)

Lemma lstrip_app_head (s t : pystr) (c : N) :
  isspace c = false -> lstrip (s ++ c :: t) = lstrip s ++ c :: t.
Proof.
  intros Hc. induction s as [|x s IH]; simpl; [now rewrite Hc|].
  destruct (isspace x); [exact IH | reflexivity].
Qed.

(** X8.  A timestamp that ends in [Z] and the same timestamp with
    [+00:00] in its place are read alike by [parse_iso]: both give the
    same instant, or both raise the same exception. *)
Theorem X8_zulu_suffix (value : pystr) :
  parse_iso (value ++ py "Z") = parse_iso (value ++ py "+00:00").
Proof.
  assert (L : strip (value ++ py "Z") = lstrip value ++ py "Z").
  { unfold strip. change (py "Z") with [ch "Z"].
    rewrite (lstrip_app_head value [] (ch "Z") eq_refl).
    apply rstrip_last. reflexivity. }
  assert (R : strip (value ++ py "+00:00")
              = (lstrip value ++ py "+00:0") ++ [ch "0"]).
  { unfold strip. change (py "+00:00") with (ch "+" :: py "00:00").
    rewrite (lstrip_app_head value (py "00:00") (ch "+") eq_refl).
    change (ch "+" :: py "00:00") with (py "+00:0" ++ [ch "0"]).
    rewrite app_assoc. apply rstrip_last. reflexivity. }
  unfold parse_iso. rewrite L, R. unfold endswith.
  change (py "Z") with [ch "Z"]. rewrite !rev_app_distr. simpl rev at 1 3.
  cbn [app startswith]. change (N.eqb (ch "Z") (ch "Z")) with true.
  change (N.eqb (ch "Z") (ch "0")) with false. cbn [andb].
  rewrite removelast_last, <- app_assoc. reflexivity.
Qed.

(** ** Durations *)

Lemma span_decimal_split (s : pystr) :
  exists cs,
    s = cs ++ snd (span_decimal s)
    /\ Forall (fun c => decimal_digit c <> None) cs
    /\ fst (span_decimal s) = map digit_value cs.
Proof.
  induction s as [|c s IH]; simpl.
  - exists []. auto.
  - destruct (decimal_digit c) as [d|] eqn:D.
    + destruct IH as (cs & E & F & V).
      destruct (span_decimal s) as [ds r]. simpl in *.
      exists (c :: cs). repeat split.
      * simpl. now rewrite <- E.
      * constructor; [congruence | exact F].
      * simpl. unfold digit_value at 1. rewrite D. now rewrite V.
    + exists []. auto.
Qed.

Lemma unit_not_decimal (u : N) : is_unit u = true -> decimal_digit u = None.
Proof.
  intros Hu.
  destruct (unit_cases u Hu) as [->|[->|[->| ->]]];
    rewrite decimal_digit_ascii; reflexivity.
Qed.

Lemma span_decimal_text (cs : pystr) (u : N) :
  Forall (fun c => decimal_digit c <> None) cs -> is_unit u = true ->
  span_decimal (cs ++ [u]) = (map digit_value cs, [u]).
Proof.
  intros F Hu. induction F as [|c cs Hc _ IH]; simpl.
  - now rewrite (unit_not_decimal u Hu).
  - unfold digit_value at 1.
    destruct (decimal_digit c) as [d|]; [|congruence]. now rewrite IH.
Qed.

(** On a trimmed text the pattern of [parse_duration] matches exactly
    the texts made of decimal digits and one unit. *)
Lemma re_match_duration_text (value : pystr) :
  match re_match_duration (strip value) with
  | Some (ds, u) =>
      exists cs, strip value = cs ++ [u] /\ cs <> []
                 /\ Forall (fun c => decimal_digit c <> None) cs
                 /\ is_unit u = true /\ ds = map digit_value cs
  | None => ~ duration_text (strip value)
  end.
Proof.
  unfold re_match_duration.
  destruct (span_decimal_split (strip value)) as (cs & E & F & V).
  destruct (span_decimal (strip value)) as [ds r] eqn:S. simpl in *.
  assert (No : forall cs' u', cs' <> [] ->
            Forall (fun c => decimal_digit c <> None) cs' ->
            is_unit u' = true -> strip value = cs' ++ [u'] ->
            ds = map digit_value cs' /\ r = [u']).
  { intros cs' u' _ F' Hu' E'. rewrite E' in S.
    rewrite (span_decimal_text cs' u' F' Hu') in S. inversion S. auto. }
  destruct ds as [|d ds].
  - intros (cs' & u' & Hne & F' & Hu' & E').
    destruct (No cs' u' Hne F' Hu' E') as [Hd _].
    destruct cs'; [congruence | discriminate].
  - destruct r as [|u [|nl [|x r]]].
    + intros (cs' & u' & Hne & F' & Hu' & E').
      destruct (No cs' u' Hne F' Hu' E') as [_ Hr]. discriminate.
    + destruct (is_unit u) eqn:Hu.
      * exists cs. repeat split; auto. destruct cs; [discriminate | congruence].
      * intros (cs' & u' & Hne & F' & Hu' & E').
        destruct (No cs' u' Hne F' Hu' E') as [_ Hr]. congruence.
    + destruct (is_unit u && N.eqb nl 0x0A) eqn:Hu.
      * exfalso. apply andb_true_iff in Hu as [_ Hnl].
        apply N.eqb_eq in Hnl. subst nl.
        assert (Hs : isspace 0x0A = false).
        { apply (strip_last_not_space value (cs ++ [u])).
          rewrite <- app_assoc. exact E. }
        discriminate.
      * intros (cs' & u' & Hne & F' & Hu' & E').
        destruct (No cs' u' Hne F' Hu' E') as [_ Hr]. discriminate.
    + intros (cs' & u' & Hne & F' & Hu' & E').
      destruct (No cs' u' Hne F' Hu' E') as [_ Hr]. discriminate.
Qed.

Lemma timedelta_no_value_error (d h m s : Z) (msg : pystr) :
  Time.timedelta d h m s <> Raise (ValueError msg).
Proof.
  unfold Time.timedelta. destruct (_ >? _); discriminate.
Qed.

Lemma parse_duration_cases (value : pystr) :
  (duration_text (strip value)
   /\ forall msg, parse_duration value <> Raise (ValueError msg))
  \/ (~ duration_text (strip value)
      /\ parse_duration value
         = Raise (ValueError (py "Duration must be like 15m, 2h, 1d"))).
Proof.
  pose proof (re_match_duration_text value) as M. unfold parse_duration.
  destruct (re_match_duration (strip value)) as [[ds u]|].
  - left. destruct M as (cs & E & Hne & F & Hu & _). split.
    + exists cs, u. auto.
    + intros msg.
      destruct (N.eqb u (ch "s")); [apply timedelta_no_value_error|].
      destruct (N.eqb u (ch "m")); [apply timedelta_no_value_error|].
      destruct (N.eqb u (ch "h")); apply timedelta_no_value_error.
  - right. auto.
Qed.

(** X9.  [parse_duration] takes exactly the texts that, once trimmed,
    are decimal digits followed by one of [s], [m], [h], [d].  On every
    other text, such as one with a sign, a fraction, a blank inside, two
    units, no unit or no digit, it raises [ValueError] with its fixed
    message; on the texts it takes it never raises [ValueError]. *)
Theorem X9_duration_syntax (value : pystr) :
  (duration_text (strip value)
   /\ forall msg, parse_duration value <> Raise (ValueError msg))
  \/ (~ duration_text (strip value)
      /\ parse_duration value
         = Raise (ValueError (py "Duration must be like 15m, 2h, 1d"))).
Proof. exact (parse_duration_cases value). Qed.

Lemma credentials_present (env : environ) :
  truthy (env (py "CLOUDFLARE_ACCOUNT_ID")) = true ->
  truthy (env (py "CLOUDFLARE_API_TOKEN")) = true ->
  negb (truthy (read_env env (py "CLOUDFLARE_ACCOUNT_ID") None))
  || negb (truthy (read_env env (py "CLOUDFLARE_API_TOKEN") None)) = false.
Proof.
  unfold read_env. intros A T.
  destruct (env (py "CLOUDFLARE_ACCOUNT_ID")); [|discriminate].
  destruct (env (py "CLOUDFLARE_API_TOKEN")); [|discriminate].
  now rewrite A, T.
Qed.

(** X10.  With the credentials in place, a non-empty [--since] that is
    not a duration text makes [main] write the message of
    [parse_duration] to standard error and return 1; nothing is printed
    and no request is sent, whatever [--from] and [--to] are. *)
Theorem X10_malformed_duration (args : Args) (env : environ) (now : Z)
    (net : request -> net_result) (since : pystr) :
  truthy (env (py "CLOUDFLARE_ACCOUNT_ID")) = true ->
  truthy (env (py "CLOUDFLARE_API_TOKEN")) = true ->
  arg_since args = Some since ->
  since <> [] ->
  ~ duration_text (strip since) ->
  run (main args env now net)
  = (Exit 1,
     {| stdout := [];
        stderr := [py "Duration must be like 15m, 2h, 1d"];
        sent := [] |}).
Proof.
  intros A T S Hne Hd. unfold run, main, main_input, bind.
  rewrite (credentials_present env A T). unfold main_window. rewrite S.
  destruct since as [|c since]; [congruence|].
  destruct (parse_duration_cases (c :: since)) as [[Hd' _]|[_ E]];
    [contradiction|].
  rewrite E. reflexivity.
Qed.


(** ** The request *)

(** X13.  The query of the request.  [start] and [end] are always
    there, rendered by [format_time].  [dataset] is the flag when it is
    not empty, else the environment value, else [workers_trace_events];
    an environment value that is the empty string leaves the parameter
    out.  [fields] is the flag when it is not empty, else a non-empty
    environment value, else left out.  [sample] is there exactly when
    the flag is. *)
Theorem X13_query_parameters (args : Args) (env : environ)
    (account_id token time_format : pystr) (start_time end_time : Z) :
  let params := req_params (main_request args env account_id token
                              time_format start_time end_time) in
  param (py "start") params = Some (format_time start_time time_format)
  /\ param (py "end") params = Some (format_time end_time time_format)
  /\ param (py "dataset") params
     = (if truthy (arg_dataset args) then arg_dataset args
        else match env (py "CLOUDFLARE_LOGPULL_DATASET") with
             | None => Some (py "workers_trace_events")
             | Some [] => None
             | Some value => Some value
             end)
  /\ param (py "fields") params
     = (if truthy (arg_fields args) then arg_fields args
        else if truthy (env (py "CLOUDFLARE_LOGPULL_FIELDS"))
             then env (py "CLOUDFLARE_LOGPULL_FIELDS") else None)
  /\ param (py "sample") params = option_map float_str (arg_sample args).
Proof.
  unfold main_request, read_env, py_or. cbv zeta. simpl req_params.
  destruct (arg_dataset args) as [[|c1 d1]|];
    destruct (env (py "CLOUDFLARE_LOGPULL_DATASET")) as [[|c2 d2]|];
    destruct (arg_fields args) as [[|c3 d3]|];
    destruct (env (py "CLOUDFLARE_LOGPULL_FIELDS")) as [[|c4 d4]|];
    destruct (arg_sample args) as [sample|];
    repeat split; reflexivity.
Qed.

(** X14.  The endpoint of the request is the [--endpoint] flag when it
    is not empty, else a non-empty [CLOUDFLARE_LOGPULL_ENDPOINT], else the
    base URL, from [CLOUDFLARE_LOGPULL_BASE_URL] when set (even to the
    empty string) and the public API root otherwise, followed by the
    path of the account.  The request always carries the bearer token
    and asks for JSON. *)
Theorem X14_endpoint_and_headers (args : Args) (env : environ)
    (account_id token time_format : pystr) (start_time end_time : Z) :
  let r := main_request args env account_id token time_format
             start_time end_time in
  req_endpoint r
  = match arg_endpoint args, env (py "CLOUDFLARE_LOGPULL_ENDPOINT") with
    | Some ((_ :: _) as flag), _ => flag
    | _, Some ((_ :: _) as value) => value
    | _, _ =>
        match env (py "CLOUDFLARE_LOGPULL_BASE_URL") with
        | Some base => base
        | None => py "https://api.cloudflare.com/client/v4"
        end ++ py "/accounts/" ++ account_id ++ py "/logs/received"
    end
  /\ req_headers r = [(py "Authorization", py "Bearer " ++ token);
                      (py "Accept", py "application/json")].
Proof.
  unfold main_request, read_env, py_or. cbv zeta. simpl req_endpoint.
  simpl req_headers. split; [|reflexivity].
  destruct (arg_endpoint args) as [[|c1 d1]|];
    destruct (env (py "CLOUDFLARE_LOGPULL_ENDPOINT")) as [[|c2 d2]|];
    destruct (env (py "CLOUDFLARE_LOGPULL_BASE_URL")) as [base|];
    reflexivity.
Qed.

(** ** The payload parser, for every body *)

Lemma splitlines_from_blank (s : pystr) :
  forallb isspace s = true ->
  forall (b : bool) (cur : pystr),
    forallb isspace cur = true ->
    Forall (fun l => forallb isspace l = true) (splitlines_from b cur s).
Proof.
  induction s as [|c s IH]; intros Hs b cur Hc; simpl.
  - destruct cur; constructor; [assumption|constructor].
  - simpl in Hs. apply andb_true_iff in Hs as [Hc' Hs].
    destruct (b && N.eqb c 0x0A)%bool; [now apply IH|].
    destruct (islinebreak c).
    + constructor; [assumption|]. now apply IH.
    + apply IH; [assumption|]. rewrite forallb_app, Hc. simpl. now rewrite Hc'.
Qed.

Lemma ndjson_lines_blank (payload : pystr) :
  strip payload = [] -> ndjson_lines payload = [].
Proof.
  intros H. apply strip_nil_blank in H. unfold ndjson_lines, splitlines.
  pose proof (splitlines_from_blank payload H false [] eq_refl) as F.
  induction F as [|l ls Hl _ IH]; [reflexivity|].
  simpl. unfold nonblank at 1. now rewrite (blank_strip_nil l Hl).
Qed.

Lemma parse_records_cases (payload : pystr) :
  parse_records payload
  = match json_loads payload with
    | Some (JArr data) => only_dicts data
    | Some (JObj data) => [data]
    | _ => ndjson_lines payload
    end.
Proof.
  destruct (json_loads payload) as [v|] eqn:L.
  - rewrite (parse_records_loaded payload v L).
    destruct v; try reflexivity; apply parse_lines_ndjson.
  - unfold parse_records. rewrite L.
    destruct (strip payload) as [|c s] eqn:S.
    + symmetry. now apply ndjson_lines_blank.
    + apply parse_lines_ndjson.
Qed.

(** X15.  The test for a blank body, lines 61-62 of [parse_records],
    changes no result: on a body that [strip] empties, [json.loads]
    raises [JSONDecodeError] and the loop over the lines keeps nothing,
    so the rest of the function returns the empty list as well. *)
Theorem X15_blank_test_redundant (payload : pystr) :
  strip payload = [] ->
  json_loads payload = None
  /\ parse_lines (splitlines payload) = []
  /\ parse_records payload = [].
Proof.
  intros B. split; [now apply loads_blank|]. split.
  - rewrite parse_lines_ndjson. exact (ndjson_lines_blank payload B).
  - unfold parse_records. now rewrite B.
Qed.

Lemma only_dicts_none (data : list json) :
  forallb (fun item => negb (is_dict item)) data = true -> only_dicts data = [].
Proof.
  induction data as [|x data IH]; simpl; [reflexivity|].
  intros H. apply andb_true_iff in H as [Hx H].
  destruct x; try discriminate; now apply IH.
Qed.

Lemma flat_map_mapping_none (lines : list pystr) :
  forallb (fun line => negb (mapping_line line)) lines = true ->
  flat_map mapping_of (filter nonblank lines) = [].
Proof.
  induction lines as [|l lines IH]; simpl; [reflexivity|].
  intros H. apply andb_true_iff in H as [Hl H].
  destruct (nonblank l); [|now apply IH].
  simpl. rewrite (IH H). unfold mapping_line in Hl. unfold mapping_of.
  destruct (json_loads (strip l)) as [[]|]; try reflexivity; discriminate.
Qed.

Lemma no_records_parse (payload : pystr) :
  no_records payload = true -> parse_records payload = [].
Proof.
  unfold no_records. rewrite parse_records_cases. unfold ndjson_lines.
  destruct (json_loads payload) as [[]|];
    try apply flat_map_mapping_none; try discriminate.
  apply only_dicts_none.
Qed.

(** X16.  The fallback for a body without records.  When the body is
    within the limits of the interpreter ([within_limits]) and is a JSON
    list without a mapping among its elements, or is neither a JSON list
    nor a JSON mapping and has no line that is a mapping, and raw mode is
    off, the body is printed trimmed, in one [print]; [main] returns 0
    and writes nothing to standard error.  (Beyond the limits
    [json.loads] can raise [RecursionError] or a plain [ValueError],
    which leaves [main] after the request.) *)
Theorem X16_body_without_records (args : Args) (env : environ) (now : Z)
    (net : request -> net_result) (r : request) (payload : pystr) :
  main_built_request args env now = Some r ->
  net r = Body payload ->
  arg_raw args = false ->
  within_limits payload = true ->
  no_records payload = true ->
  run (main args env now net)
  = (Exit 0, {| stdout := [strip payload]; stderr := []; sent := [r] |}).
Proof.
  intros B N R _ E. pose proof (main_after_request args env now net r B) as T.
  rewrite N in T. unfold run. rewrite T. unfold main_output. rewrite R.
  rewrite (no_records_parse payload E). reflexivity.
Qed.

(** ** The serializer *)

(** Induction on a JSON value, with the hypothesis for every element of
    a list and every member of a mapping. *)
Lemma json_nested_ind (P : json -> Prop) :
  P JNull ->
  (forall b, P (JBool b)) ->
  (forall n, P (JInt n)) ->
  (forall lit, P (JFloat lit)) ->
  (forall s, P (JStr s)) ->
  (forall items, Forall P items -> P (JArr items)) ->
  (forall members, Forall (fun kv => P (snd kv)) members -> P (JObj members)) ->
  forall v, P v.
Proof.
  intros HN HB HI HF HS HA HO. fix IH 1.
  intros [ |b|n|lit|s|items|members].
  - exact HN.
  - apply HB.
  - apply HI.
  - apply HF.
  - apply HS.
  - apply HA. induction items as [|x items IHi]; constructor.
    + apply IH.
    + exact IHi.
  - apply HO. induction members as [|[k x] members IHm]; constructor.
    + apply IH.
    + exact IHm.
Qed.

Lemma printable_cases (c : N) :
  printable c = true <-> (0x20 <= c <= 0x7E)%N.
Proof.
  unfold printable, in_range. rewrite andb_true_iff, !N.leb_le. tauto.
Qed.

Lemma hex_digit_printable (n : N) :
  (n < 16)%N -> printable (hex_digit n) = true.
Proof.
  intros H. apply printable_cases. unfold hex_digit.
  destruct (N.ltb_spec n 10); lia.
Qed.

Lemma u_escape_printable (u : N) : forallb printable (u_escape u) = true.
Proof.
  unfold u_escape. simpl.
  rewrite !hex_digit_printable by (apply N.mod_lt; discriminate).
  reflexivity.
Qed.

Lemma escape_char_printable (c : N) :
  forallb printable (escape_char c) = true.
Proof.
  unfold escape_char.
  repeat match goal with
         | |- context [if N.eqb c ?k then _ else _] =>
             destruct (N.eqb c k); [reflexivity|]
         end.
  destruct (in_range 32 126 c) eqn:R.
  - simpl. unfold printable. now rewrite R.
  - destruct (N.ltb c 65536).
    + apply u_escape_printable.
    + rewrite forallb_app, !u_escape_printable. reflexivity.
Qed.

Lemma encode_string_printable (s : pystr) :
  forallb printable (encode_string s) = true.
Proof.
  unfold encode_string. rewrite !forallb_app. simpl.
  rewrite andb_true_r. induction s as [|c s IH]; simpl; [reflexivity|].
  now rewrite forallb_app, escape_char_printable, IH.
Qed.

(** The digits [str] writes for a natural number. *)
Lemma string_of_uint_digits (d : Decimal.uint) :
  forallb Json.is_digit (py (NilEmpty.string_of_uint d)) = true.
Proof.
  induction d; simpl; try reflexivity; exact IHd.
Qed.

Lemma digit_printable (c : N) : Json.is_digit c = true -> printable c = true.
Proof.
  unfold Json.is_digit, in_range. rewrite andb_true_iff, !N.leb_le.
  intros H. apply printable_cases. lia.
Qed.

Lemma forallb_impl {A : Type} (p q : A -> bool) (xs : list A) :
  (forall x, p x = true -> q x = true) ->
  forallb p xs = true -> forallb q xs = true.
Proof.
  intros H. induction xs as [|x xs IH]; simpl; [reflexivity|].
  intros E. apply andb_true_iff in E as [E1 E2].
  now rewrite (H x E1), (IH E2).
Qed.

Lemma py_cons (a : ascii) (s : string) :
  py (String a s) = N_of_ascii a :: py s.
Proof. reflexivity. Qed.

Ltac ascii_value :=
  repeat match goal with
         | |- context [Z.of_N (N_of_ascii ?a)] =>
             let v := eval vm_compute in (Z.of_N (N_of_ascii a)) in
             change (Z.of_N (N_of_ascii a)) with v
         end.

(** [str(n)] is [0], or the digits of [n] without a leading zero, after
    a minus sign when [n] is negative. *)
Lemma of_Z_cases (n : Z) :
  exists c ds,
    Json.is_digit c = true /\ forallb Json.is_digit ds = true
    /\ (ds = [] \/ c <> ch "0")
    /\ Json.int_of_digits (c :: ds) = Z.abs n
    /\ of_Z n = if n <? 0 then ch "-" :: c :: ds else c :: ds.
Proof.
  assert (V : forall d acc,
             fold_left (fun a c => a * 10 + (Z.of_N c - 0x30))
               (py (NilEmpty.string_of_uint d)) (Z.pos acc)
             = Z.pos (Pos.of_uint_acc d acc)).
  { induction d; intros acc;
      cbn [NilEmpty.string_of_uint Pos.of_uint_acc]; [reflexivity|..];
      rewrite py_cons; cbn [fold_left]; rewrite <- IHd; f_equal;
      ascii_value; lia. }
  assert (W : forall d,
             Json.int_of_digits (py (NilEmpty.string_of_uint d))
             = Z.of_N (Pos.of_uint d)).
  { unfold Json.int_of_digits.
    induction d; cbn [NilEmpty.string_of_uint Pos.of_uint];
      [reflexivity|..]; rewrite py_cons; cbn [fold_left];
      [exact IHd|..]; apply V. }
  assert (P : forall p,
             exists c ds,
               Json.is_digit c = true /\ forallb Json.is_digit ds = true
               /\ c <> ch "0"
               /\ Json.int_of_digits (c :: ds) = Z.pos p
               /\ py (NilZero.string_of_uint (Pos.to_uint p)) = c :: ds).
  { intros p.
    pose proof (string_of_uint_digits (Pos.to_uint p)) as D.
    pose proof (W (Pos.to_uint p)) as I.
    rewrite DecimalPos.Unsigned.of_to in I.
    pose proof (DecimalPos.Unsigned.to_of (Pos.to_uint p)) as U.
    rewrite DecimalPos.Unsigned.of_to in U. simpl in U.
    pose proof (DecimalPos.Unsigned.to_uint_nonzero p) as Z0.
    assert (E : NilZero.string_of_uint (Pos.to_uint p)
                = NilEmpty.string_of_uint (Pos.to_uint p)).
    { destruct (Pos.to_uint p) eqn:T; try reflexivity.
      now apply DecimalPos.Unsigned.to_uint_nonnil in T. }
    rewrite E.
    destruct (Pos.to_uint p) as [|u|u|u|u|u|u|u|u|u|u] eqn:T;
      [now apply DecimalPos.Unsigned.to_uint_nonnil in T| |..].
    { exfalso. rewrite DecimalFacts.unorm_D0 in U.
      destruct (Decimal.nzhead u) eqn:Hn;
        [apply DecimalFacts.unorm_0 in Hn; congruence|..];
        rewrite DecimalFacts.unorm_nzhead in U by congruence; symmetry in U;
        now apply DecimalFacts.nzhead_nonzero in U. }
    all: cbn [NilEmpty.string_of_uint] in D, I |- *;
      rewrite py_cons in D, I |- *; cbn [forallb] in D;
      apply andb_true_iff in D as [D1 D2];
      eexists; eexists; repeat split;
      [exact D1|exact D2|discriminate|exact I]. }
  destruct n as [|p|p].
  - exists (ch "0"), []. repeat split; auto.
  - destruct (P p) as (c & ds & H1 & H2 & H3 & H4 & H5).
    exists c, ds. repeat split; auto.
  - destruct (P p) as (c & ds & H1 & H2 & H3 & H4 & H5).
    exists c, ds. repeat split; auto.
    unfold of_Z. simpl. unfold py in H5 |- *. simpl. now rewrite H5.
Qed.

Lemma of_Z_printable (n : Z) : forallb printable (of_Z n) = true.
Proof.
  destruct (of_Z_cases n) as (c & ds & Hc & Hds & _ & _ & E). rewrite E.
  assert (forallb printable (c :: ds) = true) as P.
  { simpl. rewrite (digit_printable c Hc). simpl.
    exact (forallb_impl _ _ ds digit_printable Hds). }
  destruct (n <? 0); [|exact P].
  change (forallb printable (ch "-" :: c :: ds))
    with (printable (ch "-") && forallb printable (c :: ds))%bool.
  now rewrite P.
Qed.

Lemma join_printable (sep : pystr) (parts : list pystr) :
  forallb printable sep = true ->
  Forall (fun p => forallb printable p = true) parts ->
  forallb printable (join sep parts) = true.
Proof.
  intros Hs F. induction F as [|p ps Hp F IH]; [reflexivity|].
  destruct ps as [|q ps]; simpl; [exact Hp|].
  rewrite !forallb_app, Hp, Hs. exact IH.
Qed.

Lemma json_dumps_printable (v : json) :
  ascii_floats v = true -> forallb printable (json_dumps v) = true.
Proof.
  induction v as [ |b|n|lit|s|items IH|members IH] using json_nested_ind;
    intros A.
  - reflexivity.
  - destruct b; reflexivity.
  - apply of_Z_printable.
  - exact A.
  - apply encode_string_printable.
  - cbn [json_dumps]. rewrite !forallb_app. cbn [ascii_floats] in A.
    rewrite join_printable; [reflexivity|reflexivity|].
    induction IH as [|x xs Hx _ IHxs]; [constructor|].
    simpl in A. apply andb_true_iff in A as [A1 A2].
    constructor; [now apply Hx|now apply IHxs].
  - cbn [json_dumps]. rewrite !forallb_app. cbn [ascii_floats] in A.
    rewrite join_printable; [reflexivity|reflexivity|].
    induction IH as [|[k x] xs Hx _ IHxs]; [constructor|].
    simpl in A. apply andb_true_iff in A as [A1 A2].
    constructor; [|now apply IHxs].
    rewrite !forallb_app, encode_string_printable. simpl in Hx.
    now rewrite (Hx A1).
Qed.

Lemma printable_one_line (s : pystr) :
  forallb printable s = true -> one_line s = true.
Proof.
  unfold one_line. apply forallb_impl. intros c H.
  apply printable_cases in H. unfold islinebreak, in_range.
  repeat match goal with
         | |- context [N.eqb c ?k] => destruct (N.eqb_spec c k); [lia|]
         | |- context [N.leb c ?k] => destruct (N.leb_spec c k); try lia
         | |- context [N.leb ?k c] => destruct (N.leb_spec k c); try lia
         end; reflexivity.
Qed.

(** X17.  What the loop prints is one line of printable ASCII: the
    text [json.dumps] gives for a value, with [ensure_ascii], has no code
    point outside U+0020..U+007E and no line boundary of [splitlines],
    provided the floats in the value are written so. *)
Theorem X17_ascii_line (v : json) :
  ascii_floats v = true ->
  forallb printable (json_dumps v) = true /\ one_line (json_dumps v) = true.
Proof.
  intros A. pose proof (json_dumps_printable v A) as P.
  split; [exact P|]. now apply printable_one_line.
Qed.

Lemma contains_printable (needle hay : pystr) :
  contains needle hay = true ->
  forallb printable hay = true -> forallb printable needle = true.
Proof.
  intros C H. apply contains_iff in C as (pre & post & E). subst hay.
  rewrite !forallb_app in H.
  apply andb_true_iff in H as [_ H]. now apply andb_true_iff in H as [H _].
Qed.

(** X18.  [--contains] is matched against the ASCII-escaped text, so a
    filter with a code point outside U+0020..U+007E, an accented letter
    or a tab say, rejects every record. *)
Theorem X18_contains_beyond_ascii (args : Args) (record : dict)
    (needle : pystr) :
  arg_contains args = Some needle ->
  forallb printable needle = false ->
  ascii_floats (JObj record) = true ->
  passes args record = false.
Proof.
  intros C N A. unfold passes, skips_contains. rewrite C.
  destruct needle as [|c needle]; [discriminate|].
  destruct (contains (c :: needle) (dumps_record record)) eqn:E.
  - apply contains_printable in E; [congruence|].
    now apply json_dumps_printable.
  - simpl. repeat match goal with
                  | |- context [if ?b then _ else _] => destruct b
                  end; reflexivity.
Qed.

(** ** Reading back what was written *)

Lemma str_eqb_eq (a b : pystr) : Str.eqb a b = true <-> a = b.
Proof.
  revert b. induction a as [|x a IH]; intros [|y b]; simpl;
    try (split; [discriminate|congruence]); [tauto|].
  rewrite andb_true_iff, N.eqb_eq, IH. split; [intros []|intros E];
    [subst; reflexivity|inversion E; auto].
Qed.

Lemma hex_value_digit (n : N) :
  (n < 16)%N -> Json.hex_value (hex_digit n) = Some n.
Proof.
  intros H. unfold Json.hex_value, hex_digit, Json.is_digit, in_range.
  destruct (N.ltb_spec n 10).
  - replace (N.leb 48 (48 + n)) with true by (symmetry; apply N.leb_le; lia).
    replace (N.leb (48 + n) 57) with true by (symmetry; apply N.leb_le; lia).
    cbn [andb]. f_equal. lia.
  - replace (N.leb (97 + (n - 10)) 57) with false
      by (symmetry; apply N.leb_gt; lia).
    rewrite andb_false_r.
    replace (N.leb 97 (97 + (n - 10))) with true
      by (symmetry; apply N.leb_le; lia).
    replace (N.leb (97 + (n - 10)) 102) with true
      by (symmetry; apply N.leb_le; lia).
    cbn [andb]. f_equal. lia.
Qed.

Lemma hex_digits_value (u : N) :
  (u < 0x10000)%N ->
  ((((0 * 16 + N.modulo (N.div u 4096) 16) * 16
     + N.modulo (N.div u 256) 16) * 16
    + N.modulo (N.div u 16) 16) * 16 + N.modulo u 16 = u)%N.
Proof.
  intros H.
  replace (N.div u 4096) with (N.div (N.div (N.div u 16) 16) 16)
    by (rewrite !N.Div0.div_div; reflexivity).
  replace (N.div u 256) with (N.div (N.div u 16) 16)
    by (rewrite !N.Div0.div_div; reflexivity).
  pose proof (N.Div0.div_mod u 16) as E1.
  pose proof (N.Div0.div_mod (N.div u 16) 16) as E2.
  pose proof (N.Div0.div_mod (N.div (N.div u 16) 16) 16) as E3.
  assert (N.div (N.div (N.div u 16) 16) 16 < 16)%N as S.
  { rewrite !N.Div0.div_div. apply N.Div0.div_lt_upper_bound.
    exact H. }
  rewrite (N.mod_small _ _ S).
  generalize dependent (N.modulo u 16).
  generalize dependent (N.modulo (N.div u 16) 16).
  generalize dependent (N.modulo (N.div (N.div u 16) 16) 16).
  generalize dependent (N.div (N.div (N.div u 16) 16) 16).
  generalize dependent (N.div (N.div u 16) 16).
  generalize dependent (N.div u 16).
  intros. lia.
Qed.

Lemma lex_u_escape (acc : list Json.unit_) (u : N) :
  (u < 0x10000)%N ->
  Json.lex_run (Json.InString acc) (u_escape u)
  = Some (Json.InString (acc ++ [(u, true)]), []).
Proof.
  intros H. pose proof (hex_digits_value u H) as V.
  rewrite N.mul_0_l, N.add_0_l in V. unfold u_escape.
  assert (B : forall x, (N.modulo x 16 < 16)%N)
    by (intros x; apply N.mod_lt; discriminate).
  pose proof (hex_value_digit _ (B (N.div u 4096))) as H3.
  pose proof (hex_value_digit _ (B (N.div u 256))) as H2.
  pose proof (hex_value_digit _ (B (N.div u 16))) as H1.
  pose proof (hex_value_digit _ (B u)) as H0.
  revert H3 H2 H1 H0.
  generalize (hex_digit (N.modulo (N.div u 4096) 16)) as h3.
  generalize (hex_digit (N.modulo (N.div u 256) 16)) as h2.
  generalize (hex_digit (N.modulo (N.div u 16) 16)) as h1.
  generalize (hex_digit (N.modulo u 16)) as h0.
  intros h0 h1 h2 h3 H3 H2 H1 H0.
  simpl. rewrite H3. simpl. rewrite H2. simpl. rewrite H1. simpl. rewrite H0.
  simpl. now rewrite V.
Qed.

Lemma scalar_cases (c : N) :
  scalar c = true <-> (c < 0xD800 \/ 0xE000 <= c <= 0x10FFFF)%N.
Proof.
  unfold scalar, in_range.
  rewrite orb_true_iff, andb_true_iff, N.ltb_lt, !N.leb_le. tauto.
Qed.

Lemma lex_escape_char (acc : list Json.unit_) (c : N) :
  (c <= 0x10FFFF)%N ->
  Json.lex_run (Json.InString acc) (escape_char c)
  = Some (Json.InString (acc ++ units_of c), []).
Proof.
  intros H. unfold escape_char, units_of.
  destruct (N.eqb_spec c 0x22) as [->|N1]; [reflexivity|].
  destruct (N.eqb_spec c 0x5C) as [->|N2]; [reflexivity|].
  destruct (N.eqb_spec c 0x0A) as [->|N3]; [reflexivity|].
  destruct (N.eqb_spec c 0x0D) as [->|N4]; [reflexivity|].
  destruct (N.eqb_spec c 0x09) as [->|N5]; [reflexivity|].
  destruct (N.eqb_spec c 0x08) as [->|N6]; [reflexivity|].
  destruct (N.eqb_spec c 0x0C) as [->|N7]; [reflexivity|].
  destruct (in_range 32 126 c) eqn:R.
  - cbn [orb Json.lex_run Json.lex_step].
    rewrite (proj2 (N.eqb_neq _ _) N1), (proj2 (N.eqb_neq _ _) N2).
    unfold in_range in R. apply andb_true_iff in R as [R1 R2].
    apply N.leb_le in R1.
    replace (N.leb c 31) with false by (symmetry; apply N.leb_gt; lia).
    reflexivity.
  - cbn [orb]. destruct (N.ltb_spec c 65536) as [L|L].
    + now apply lex_u_escape.
    + rewrite lex_run_app, lex_u_escape.
      * rewrite lex_u_escape.
        -- rewrite <- app_assoc. reflexivity.
        -- pose proof (N.mod_lt (c - 65536) 1024). lia.
      * assert ((c - 65536) / 1024 < 1024)%N
          by (apply N.Div0.div_lt_upper_bound; lia).
        lia.
Qed.

Lemma join_surrogates_plain (c : N) (rest : list Json.unit_) :
  Json.join_surrogates ((c, false) :: rest) = c :: Json.join_surrogates rest.
Proof. destruct rest as [|[lo []] rest]; reflexivity. Qed.

Lemma join_surrogates_single (c : N) (rest : list Json.unit_) :
  Json.is_high c = false ->
  Json.join_surrogates ((c, true) :: rest) = c :: Json.join_surrogates rest.
Proof.
  intros H. destruct rest as [|[lo []] rest]; simpl; rewrite ?H; reflexivity.
Qed.

Lemma join_surrogates_pair (hi lo : N) (rest : list Json.unit_) :
  Json.is_high hi = true -> Json.is_low lo = true ->
  Json.join_surrogates ((hi, true) :: (lo, true) :: rest)
  = (0x10000 + (hi - 0xD800) * 0x400 + (lo - 0xDC00))%N
    :: Json.join_surrogates rest.
Proof. intros H1 H2. simpl. now rewrite H1, H2. Qed.

Lemma join_surrogates_units (s : pystr) :
  forallb scalar s = true ->
  Json.join_surrogates (flat_map units_of s) = s.
Proof.
  induction s as [|c s IH]; [reflexivity|]. simpl. intros H.
  apply andb_true_iff in H as [Hc Hs]. specialize (IH Hs).
  apply scalar_cases in Hc.
  remember (flat_map units_of s) as R eqn:ER. clear ER. unfold units_of.
  destruct (in_range 32 126 c || N.eqb c 10 || N.eqb c 13 || N.eqb c 9
            || N.eqb c 8 || N.eqb c 12)%bool.
  - cbn [app]. now rewrite join_surrogates_plain, IH.
  - destruct (N.ltb_spec c 65536) as [L|L].
    + cbn [app]. rewrite join_surrogates_single; [now rewrite IH|].
      unfold Json.is_high, in_range.
      destruct (N.leb_spec 55296 c); [|reflexivity].
      destruct (N.leb_spec c 56319); [lia|reflexivity].
    + cbn [app].
      pose proof (N.Div0.div_mod (c - 65536) 1024) as D.
      assert ((c - 65536) mod 1024 < 1024)%N as M
          by (apply N.mod_lt; discriminate).
      assert ((c - 65536) / 1024 < 1024)%N as Q
          by (apply N.Div0.div_lt_upper_bound; lia).
      revert D M Q.
      generalize ((c - 65536) / 1024)%N as q.
      generalize ((c - 65536) mod 1024)%N as m. intros m q D M Q.
      rewrite join_surrogates_pair.
      * rewrite IH. f_equal. lia.
      * unfold Json.is_high, in_range. apply andb_true_iff.
        rewrite !N.leb_le. lia.
      * unfold Json.is_low, in_range. apply andb_true_iff.
        rewrite !N.leb_le. lia.
Qed.

Lemma lex_string_body (s : pystr) :
  forallb scalar s = true ->
  forall acc,
    Json.lex_run (Json.InString acc) (flat_map escape_char s ++ [0x22%N])
    = Some (Json.Idle,
            [Json.TScalar
               (JStr (Json.join_surrogates (acc ++ flat_map units_of s)))]).
Proof.
  induction s as [|c s IH]; intros H acc.
  - simpl. now rewrite app_nil_r.
  - simpl in H. apply andb_true_iff in H as [Hc Hs].
    apply scalar_cases in Hc. simpl flat_map. rewrite <- app_assoc.
    rewrite lex_run_app, lex_escape_char by lia.
    rewrite (IH Hs). now rewrite <- app_assoc.
Qed.

Lemma lex_encode_string (s : pystr) :
  forallb scalar s = true ->
  Json.lex_run Json.Idle (encode_string s)
  = Some (Json.Idle, [Json.TScalar (JStr s)]).
Proof.
  intros H. unfold encode_string.
  change ([34%N] ++ flat_map escape_char s ++ [34%N])
    with (34%N :: (flat_map escape_char s ++ [34%N])).
  cbn [Json.lex_run]. change (Json.lex_step Json.Idle 34)
    with (Some (Json.InString [], @nil Json.token)).
  cbv iota beta. rewrite (lex_string_body s H []). simpl.
  now rewrite (join_surrogates_units s H).
Qed.

Ltac ch_values :=
  repeat match goal with
         | |- context [ch ?a] =>
             let v := eval vm_compute in (ch a) in change (ch a) with v
         | H : context [ch ?a] |- _ =>
             let v := eval vm_compute in (ch a) in change (ch a) with v in H
         end.

Lemma atom_char_cases (c : N) :
  Json.is_atom_char c = true ->
  (48 <= c <= 57 \/ 65 <= c <= 90 \/ 97 <= c <= 122
   \/ c = 43 \/ c = 45 \/ c = 46)%N.
Proof.
  unfold Json.is_atom_char, Json.is_digit, in_range. ch_values.
  rewrite !orb_true_iff, !andb_true_iff, !N.leb_le, !N.eqb_eq. tauto.
Qed.

Lemma lex_idle_atom (c : N) :
  Json.is_atom_char c = true ->
  Json.lex_idle c = Some (Json.InAtom [c], []).
Proof.
  intros H. unfold Json.lex_idle. rewrite H.
  apply atom_char_cases in H.
  unfold Json.is_ws, Json.structural. ch_values.
  repeat match goal with
         | |- context [N.eqb c ?k] => destruct (N.eqb_spec c k); [lia|]
         end.
  reflexivity.
Qed.

Lemma lex_run_atom (a : pystr) :
  forallb Json.is_atom_char a = true ->
  forall acc,
    Json.lex_run (Json.InAtom acc) a = Some (Json.InAtom (acc ++ a), []).
Proof.
  induction a as [|c a IH]; intros H acc; simpl.
  - now rewrite List.app_nil_r.
  - simpl in H. apply andb_true_iff in H as [Hc Ha]. rewrite Hc.
    rewrite (IH Ha). now rewrite <- List.app_assoc.
Qed.

(** An atom ends where no atom character follows. *)
Lemma lex_from_atom (c : N) (a rest : pystr) (v : json)
    (ts : list Json.token) :
  forallb Json.is_atom_char (c :: a) = true ->
  Json.classify_atom (c :: a) = Some v ->
  boundary rest = true ->
  lex_from Json.Idle rest = Some ts ->
  lex_from Json.Idle ((c :: a) ++ rest) = Some (Json.TScalar v :: ts).
Proof.
  intros A C B R. unfold lex_from in *. simpl in A.
  apply andb_true_iff in A as [Hc Ha].
  cbn [app Json.lex_run Json.lex_step]. rewrite (lex_idle_atom c Hc).
  rewrite lex_run_app, (lex_run_atom a Ha [c]). cbn [app].
  destruct rest as [|d rest].
  - simpl. rewrite C. simpl. simpl in R. congruence.
  - simpl in B. apply negb_true_iff in B.
    cbn [Json.lex_run Json.lex_step] in R |- *. rewrite B, C.
    destruct (Json.lex_idle d) as [[m' ts1]|]; [|discriminate].
    destruct (Json.lex_run m' rest) as [[m'' ts2]|]; [|discriminate].
    simpl in R |- *. destruct (Json.lex_finish m''); [|discriminate].
    simpl in R |- *. congruence.
Qed.

(** A text read from rest to rest is read the same before any text. *)
Lemma lex_from_idle (a rest : pystr) (ts ts' : list Json.token) :
  Json.lex_run Json.Idle a = Some (Json.Idle, ts) ->
  lex_from Json.Idle rest = Some ts' ->
  lex_from Json.Idle (a ++ rest) = Some (ts ++ ts').
Proof.
  intros A R. unfold lex_from in *. rewrite lex_run_app, A.
  destruct (Json.lex_run Json.Idle rest) as [[m ts1]|]; [|discriminate].
  destruct (Json.lex_finish m); [|discriminate].
  simpl in R |- *. injection R as <-. now rewrite List.app_assoc.
Qed.

Lemma span_digits_all (s : pystr) :
  forallb Json.is_digit s = true -> Json.span_digits s = (s, []).
Proof.
  induction s as [|c s IH]; [reflexivity|]. simpl. intros H.
  apply andb_true_iff in H as [Hc Hs]. now rewrite Hc, (IH Hs).
Qed.

Lemma digit_cases (c : N) :
  Json.is_digit c = true <-> (48 <= c <= 57)%N.
Proof.
  unfold Json.is_digit, in_range. rewrite andb_true_iff, !N.leb_le. tauto.
Qed.

(** The digits of a natural number without a leading zero are an int. *)
Lemma number_of_digits (c : N) (ds : pystr) :
  Json.is_digit c = true -> forallb Json.is_digit ds = true ->
  ds = [] \/ c <> ch "0" ->
  Json.number_of (c :: ds) = Some (JInt (Json.int_of_digits (c :: ds)))
  /\ Json.number_of (ch "-" :: c :: ds)
     = Some (JInt (- Json.int_of_digits (c :: ds))).
Proof.
  intros Hc Hds Z0.
  assert (S : Json.span_digits (c :: ds) = (c :: ds, []))
    by (apply span_digits_all; simpl; now rewrite Hc, Hds).
  assert (L : (N.eqb c (ch "0") && negb (Nat.eqb (List.length ds) 0))%bool
              = false).
  { destruct Z0 as [->|Z0]; [apply andb_false_r|].
    now rewrite (proj2 (N.eqb_neq _ _) Z0). }
  assert (M : N.eqb c (ch "-") = false).
  { apply digit_cases in Hc. ch_values. apply N.eqb_neq. lia. }
  unfold Json.number_of. rewrite M.
  change (N.eqb (ch "-") (ch "-")) with true. cbv iota beta.
  rewrite S, L. split; reflexivity.
Qed.

Lemma classify_atom_int (n : Z) :
  Json.classify_atom (of_Z n) = Some (JInt n)
  /\ forallb Json.is_atom_char (of_Z n) = true
  /\ exists c a, of_Z n = c :: a.
Proof.
  destruct (of_Z_cases n) as (c & ds & Hc & Hds & Z0 & V & E).
  destruct (number_of_digits c ds Hc Hds Z0) as [P Q].
  assert (A : forallb Json.is_atom_char (c :: ds) = true).
  { apply (forallb_impl Json.is_digit); [|simpl; now rewrite Hc, Hds].
    intros x Hx. unfold Json.is_atom_char. now rewrite Hx. }
  pose proof Hc as Hc'. apply digit_cases in Hc'.
  rewrite E. destruct (Z.ltb_spec n 0) as [Neg|Pos].
  - split; [|split; [|eauto]].
    + unfold Json.classify_atom.
      replace (Str.eqb (ch "-" :: c :: ds) (py "-Infinity")) with false
        by (simpl; destruct (N.eqb_spec c 73); [lia|reflexivity]).
      simpl Str.eqb. cbv iota beta. cbn [orb]. rewrite Q, V.
      do 2 f_equal. lia.
    + change (Json.is_atom_char (ch "-") && forallb Json.is_atom_char (c :: ds)
              = true)%bool. now rewrite A.
  - split; [|split; [exact A|eauto]].
    unfold Json.classify_atom. simpl Str.eqb.
    repeat match goal with
           | |- context [N.eqb c ?k] => destruct (N.eqb_spec c k); [lia|]
           end.
    cbn [andb orb]. rewrite P, V. do 2 f_equal. lia.
Qed.

Lemma lex_from_cons_idle (c : N) (t : list Json.token) (rest : pystr)
    (ts : list Json.token) :
  Json.lex_idle c = Some (Json.Idle, t) ->
  lex_from Json.Idle rest = Some ts ->
  lex_from Json.Idle (c :: rest) = Some (t ++ ts).
Proof.
  intros C R. apply (lex_from_idle [c] rest t ts); [|exact R].
  simpl. rewrite C. now rewrite List.app_nil_r.
Qed.

(** The scanner on a joined list of texts, each of which it reads to
    [tokens_of x] before a comma or the closing bracket. *)
Lemma lex_from_joined {A : Type} (text : A -> pystr)
    (tokens_of : A -> list Json.token) (closer : N) (t : Json.token)
    (xs : list A) (rest : pystr) (ts : list Json.token) :
  Json.lex_idle closer = Some (Json.Idle, [t]) ->
  Forall (fun x => forall rest ts,
            boundary rest = true -> lex_from Json.Idle rest = Some ts ->
            lex_from Json.Idle (text x ++ rest) = Some (tokens_of x ++ ts)) xs ->
  lex_from Json.Idle rest = Some ts ->
  lex_from Json.Idle (join (py ", ") (map text xs) ++ closer :: rest)
  = Some (separated (map tokens_of xs) ++ t :: ts).
Proof.
  intros C F R.
  assert (B : boundary (closer :: rest) = true).
  { simpl. destruct (Json.is_atom_char closer) eqn:E; [|reflexivity].
    rewrite (lex_idle_atom closer E) in C. discriminate. }
  assert (E : lex_from Json.Idle (closer :: rest) = Some (t :: ts))
    by exact (lex_from_cons_idle closer [t] rest ts C R).
  induction F as [|x xs Hx F IH]; [exact E|].
  destruct xs as [|y xs].
  - simpl. now apply Hx.
  - change (join (py ", ") (map text (x :: y :: xs)))
      with (text x ++ py ", " ++ join (py ", ") (map text (y :: xs))).
    change (separated (map tokens_of (x :: y :: xs)))
      with (tokens_of x ++ Json.TComma :: separated (map tokens_of (y :: xs))).
    rewrite <- !List.app_assoc. apply Hx; [reflexivity|].
    change (py ", " ++ ?s) with (44%N :: 32%N :: s).
    apply (lex_from_cons_idle 44 [Json.TComma]); [reflexivity|].
    apply (lex_from_cons_idle 32 []); [reflexivity|]. exact IH.
Qed.

Lemma lex_from_dumps (v : json) :
  plain v = true ->
  forall rest ts,
    boundary rest = true -> lex_from Json.Idle rest = Some ts ->
    lex_from Json.Idle (json_dumps v ++ rest) = Some (tokens v ++ ts).
Proof.
  induction v as [ |b|n|lit|s|items IH|members IH] using json_nested_ind;
    intros P rest ts B R.
  - now apply (lex_from_atom 110 [117; 108; 108]%N rest JNull ts).
  - destruct b.
    + now apply (lex_from_atom 116 [114; 117; 101]%N rest (JBool true) ts).
    + now apply (lex_from_atom 102 [97; 108; 115; 101]%N rest
                   (JBool false) ts).
  - destruct (classify_atom_int n) as (C & A & c & a & E).
    cbn [json_dumps tokens]. rewrite E in *.
    now apply (lex_from_atom c a rest (JInt n) ts).
  - discriminate.
  - cbn [json_dumps tokens]. apply lex_from_idle; [|exact R].
    now apply lex_encode_string.
  - cbn [json_dumps tokens].
    change (py "[" ++ ?a ++ py "]") with (91%N :: (a ++ [93%N])).
    rewrite <- !List.app_comm_cons, <- !List.app_assoc.
    apply (lex_from_cons_idle 91 [Json.TLBrack] _
             (separated (map tokens items) ++ Json.TRBrack :: ts));
      [reflexivity|].
    apply (lex_from_joined json_dumps tokens 93 Json.TRBrack);
      [reflexivity| |exact R].
    cbn [plain] in P. clear R B. revert P.
    induction IH as [|x xs Hx _ IHxs]; intros P; constructor.
    + simpl in P. apply andb_true_iff in P as [P _]. now apply Hx.
    + simpl in P. apply andb_true_iff in P as [_ P]. now apply IHxs.
  - cbn [json_dumps tokens].
    change (py "{" ++ ?a ++ py "}") with (123%N :: (a ++ [125%N])).
    rewrite <- !List.app_comm_cons, <- !List.app_assoc.
    apply (lex_from_cons_idle 123 [Json.TLBrace] _
             (separated
                (map (fun kv => match kv with
                                | (k, x) =>
                                    Json.TScalar (JStr k) :: Json.TColon
                                    :: tokens x
                                end) members) ++ Json.TRBrace :: ts));
      [reflexivity|].
    apply (lex_from_joined
             (fun kv => match kv with
                        | (k, x) => encode_string k ++ py ": " ++ json_dumps x
                        end)
             (fun kv => match kv with
                        | (k, x) =>
                            Json.TScalar (JStr k) :: Json.TColon :: tokens x
                        end) 125 Json.TRBrace);
      [reflexivity| |exact R].
    cbn [plain] in P. apply andb_true_iff in P as [_ P]. clear R B. revert P.
    induction IH as [|[k x] xs Hx _ IHxs]; intros P; constructor.
    + simpl in P. apply andb_true_iff in P as [P _].
      apply andb_true_iff in P as [Pk Px].
      intros rest' ts' B' R'. rewrite <- !List.app_assoc.
      apply (lex_from_idle (encode_string k) _ [Json.TScalar (JStr k)]);
        [now apply lex_encode_string|].
      change (py ": " ++ ?s) with (58%N :: 32%N :: s).
      apply (lex_from_cons_idle 58 [Json.TColon]); [reflexivity|].
      apply (lex_from_cons_idle 32 []); [reflexivity|].
      now apply Hx.
    + simpl in P. apply andb_true_iff in P as [_ P]. now apply IHxs.
Qed.

Lemma unique_NoDup (ks : list pystr) : unique ks = true <-> NoDup ks.
Proof.
  induction ks as [|k ks IH]; simpl.
  - split; [constructor|reflexivity].
  - rewrite andb_true_iff, negb_true_iff, IH. split.
    + intros [E N]. constructor; [|exact N]. intros I.
      assert (existsb (Str.eqb k) ks = true); [|congruence].
      apply existsb_exists. exists k. split; [exact I|now apply str_eqb_eq].
    + intros N. inversion N as [|? ? I N']; subst. split; [|exact N'].
      destruct (existsb (Str.eqb k) ks) eqn:E; [|reflexivity].
      apply existsb_exists in E as (x & Hx & Ex).
      apply str_eqb_eq in Ex. now subst.
Qed.

(** Storing under a key that is not there appends the item. *)
Lemma dict_set_fresh (d : dict) (k : pystr) (v : json) :
  ~ In k (map fst d) -> dict_set d k v = d ++ [(k, v)].
Proof.
  induction d as [|[k' w] d IH]; simpl; [reflexivity|]. intros N.
  destruct (Str.eqb k' k) eqn:E.
  - apply str_eqb_eq in E. tauto.
  - rewrite IH; [reflexivity|tauto].
Qed.

Lemma parse_step_opens (st : list Json.frame) (ph : Json.phase)
    (t : Json.token) :
  opens ph -> t <> Json.TRBrack ->
  Json.parse_step (st, ph) t = Json.start_value st t.
Proof.
  intros [->| ->] N; [reflexivity|].
  destruct t; try congruence; destruct st as [|[] st]; reflexivity.
Qed.

(** The elements of a list, from the first one to the closing bracket. *)
Lemma parse_run_items (st : list Json.frame) (rest : list Json.token)
    (xs : list json) :
  Forall (fun x => forall st ph rest,
            opens ph ->
            Json.parse_run (st, ph) (tokens x ++ rest)
            = Json.parse_run (Json.complete st x) rest) xs ->
  forall x done ph,
    opens ph ->
    (forall st ph rest,
        opens ph ->
        Json.parse_run (st, ph) (tokens x ++ rest)
        = Json.parse_run (Json.complete st x) rest) ->
    Json.parse_run (Json.FArr done :: st, ph)
      (separated (map tokens (x :: xs)) ++ Json.TRBrack :: rest)
    = Json.parse_run (Json.complete st (JArr (done ++ x :: xs))) rest.
Proof.
  induction 1 as [|y xs Hy F IH]; intros x done ph O Hx.
  - cbn [map separated]. rewrite (Hx _ _ _ O). reflexivity.
  - change (separated (map tokens (x :: y :: xs)))
      with (tokens x ++ Json.TComma :: separated (map tokens (y :: xs))).
    rewrite <- List.app_assoc, (Hx _ _ _ O).
    cbn [Json.complete app Json.parse_run Json.parse_step].
    rewrite (IH y (done ++ [x]) Json.Value (or_introl eq_refl) Hy).
    now rewrite <- List.app_assoc.
Qed.

(** The members of a mapping, from the first key to the closing brace. *)
Lemma parse_run_members (st : list Json.frame) (rest : list Json.token)
    (ms : list (pystr * json)) :
  Forall (fun kv => forall st ph rest,
            opens ph ->
            Json.parse_run (st, ph) (tokens (snd kv) ++ rest)
            = Json.parse_run (Json.complete st (snd kv)) rest) ms ->
  forall k x done key ph,
    ph = Json.ObjFirst \/ ph = Json.ObjKey ->
    (forall st ph rest,
        opens ph ->
        Json.parse_run (st, ph) (tokens x ++ rest)
        = Json.parse_run (Json.complete st x) rest) ->
    NoDup (map fst (done ++ (k, x) :: ms)) ->
    Json.parse_run (Json.FObj done key :: st, ph)
      (separated (map member_tokens ((k, x) :: ms)) ++ Json.TRBrace :: rest)
    = Json.parse_run (Json.complete st (JObj (done ++ (k, x) :: ms))) rest.
Proof.
  induction 1 as [|[k' y] ms Hy F IH]; intros k x done key ph O Hx U.
  - cbn [map separated member_tokens app].
    assert (S : Json.parse_step (Json.FObj done key :: st, ph)
                  (Json.TScalar (JStr k))
                = Some (Json.FObj done k :: st, Json.ObjColon))
      by (destruct O as [->| ->]; reflexivity).
    cbn [Json.parse_run]. rewrite S. cbn [Json.parse_step].
    rewrite (Hx _ _ _ (or_introl eq_refl)).
    cbn [Json.complete Json.parse_run Json.parse_step].
    rewrite dict_set_fresh; [reflexivity|].
    rewrite map_app in U. apply NoDup_remove_2 in U.
    rewrite List.app_nil_r in U. exact U.
  - change (separated (map member_tokens ((k, x) :: (k', y) :: ms)))
      with (member_tokens (k, x)
            ++ Json.TComma :: separated (map member_tokens ((k', y) :: ms))).
    cbn [member_tokens]. rewrite <- !List.app_comm_cons.
    assert (S : Json.parse_step (Json.FObj done key :: st, ph)
                  (Json.TScalar (JStr k))
                = Some (Json.FObj done k :: st, Json.ObjColon))
      by (destruct O as [->| ->]; reflexivity).
    cbn [Json.parse_run]. rewrite S. cbn [Json.parse_step].
    rewrite <- List.app_assoc, (Hx _ _ _ (or_introl eq_refl)).
    cbn [Json.complete app Json.parse_run Json.parse_step].
    assert (N : ~ In k (map fst done)).
    { rewrite map_app in U. apply NoDup_remove_2 in U. intros I. apply U.
      apply in_or_app. now left. }
    rewrite (dict_set_fresh done k x N).
    rewrite (IH k' y (done ++ [(k, x)]) k Json.ObjKey (or_intror eq_refl)
               Hy).
    + now rewrite <- List.app_assoc.
    + now rewrite <- List.app_assoc.
Qed.

Lemma parse_run_tokens (v : json) :
  plain v = true ->
  forall st ph rest,
    opens ph ->
    Json.parse_run (st, ph) (tokens v ++ rest)
    = Json.parse_run (Json.complete st v) rest.
Proof.
  assert (scalar_value : forall w st ph rest,
             tokens w = [Json.TScalar w] -> opens ph ->
             Json.parse_run (st, ph) (tokens w ++ rest)
             = Json.parse_run (Json.complete st w) rest).
  { intros w st ph rest E O. rewrite E. cbn [app Json.parse_run].
    rewrite (parse_step_opens st ph _ O) by discriminate. reflexivity. }
  induction v as [ |b|n|lit|s|items IH|members IH] using json_nested_ind;
    intros P st ph rest O;
    try (apply scalar_value; [reflexivity|exact O]).
  - cbn [tokens]. rewrite <- List.app_comm_cons. cbn [Json.parse_run].
    rewrite (parse_step_opens st ph _ O) by discriminate.
    cbn [Json.start_value]. rewrite <- List.app_assoc. cbn [app].
    assert (F : Forall (fun x => forall st ph rest,
                          opens ph ->
                          Json.parse_run (st, ph) (tokens x ++ rest)
                          = Json.parse_run (Json.complete st x) rest) items).
    { cbn [plain] in P. revert P.
      induction IH as [|x xs Hx _ IHxs]; intros P; constructor.
      - simpl in P. apply andb_true_iff in P as [P _]. now apply Hx.
      - simpl in P. apply andb_true_iff in P as [_ P]. now apply IHxs. }
    destruct items as [|x xs]; [reflexivity|].
    inversion F as [|? ? Hx F']; subst.
    exact (parse_run_items st rest xs F' x [] Json.ArrFirst
             (or_intror eq_refl) Hx).
  - cbn [tokens]. rewrite <- List.app_comm_cons. cbn [Json.parse_run].
    rewrite (parse_step_opens st ph _ O) by discriminate.
    cbn [Json.start_value]. rewrite <- List.app_assoc. cbn [app].
    cbn [plain] in P. apply andb_true_iff in P as [U P].
    apply unique_NoDup in U.
    assert (F : Forall (fun kv => forall st ph rest,
                          opens ph ->
                          Json.parse_run (st, ph) (tokens (snd kv) ++ rest)
                          = Json.parse_run (Json.complete st (snd kv)) rest)
                  members).
    { clear U. revert P.
      induction IH as [|[k x] xs Hx _ IHxs]; intros P; constructor.
      - simpl in P. apply andb_true_iff in P as [P _].
        apply andb_true_iff in P as [_ P]. now apply Hx.
      - simpl in P. apply andb_true_iff in P as [_ P]. now apply IHxs. }
    destruct members as [|[k x] ms]; [reflexivity|].
    inversion F as [|? ? Hx F']; subst.
    exact (parse_run_members st rest ms F' k x [] [] Json.ObjFirst
             (or_introl eq_refl) Hx U).
Qed.

Lemma plain_ascii_floats (v : json) : plain v = true -> ascii_floats v = true.
Proof.
  induction v as [ |b|n|lit|s|items IH|members IH] using json_nested_ind;
    intros P; try reflexivity; try discriminate.
  - cbn [plain ascii_floats] in *. revert P.
    induction IH as [|x xs Hx _ IHxs]; intros P; [reflexivity|].
    simpl in P |- *. apply andb_true_iff in P as [P1 P2].
    now rewrite (Hx P1), (IHxs P2).
  - cbn [plain ascii_floats] in *. apply andb_true_iff in P as [_ P].
    revert P.
    induction IH as [|[k x] xs Hx _ IHxs]; intros P; [reflexivity|].
    simpl in P |- *. apply andb_true_iff in P as [P1 P2].
    apply andb_true_iff in P1 as [_ P1]. simpl in Hx.
    now rewrite (Hx P1), (IHxs P2).
Qed.

Lemma loads_dumps (v : json) :
  plain v = true -> json_loads (json_dumps v) = Some v.
Proof.
  intros P. unfold json_loads, Json.loads.
  assert (B : startswith [0xFEFF%N] (json_dumps v) = false).
  { pose proof (json_dumps_printable v (plain_ascii_floats v P)) as A.
    destruct (json_dumps v) as [|c s]; [reflexivity|].
    simpl in A. apply andb_true_iff in A as [A _].
    apply printable_cases in A. cbn [startswith].
    destruct (N.eqb_spec 0xFEFF c); [lia|reflexivity]. }
  rewrite B.
  pose proof (lex_from_dumps v P [] [] eq_refl eq_refl) as L.
  rewrite !List.app_nil_r in L. change (Json.lex (json_dumps v))
    with (lex_from Json.Idle (json_dumps v)). rewrite L.
  unfold Json.parse.
  pose proof (parse_run_tokens v P [] Json.Value [] (or_introl eq_refl)) as R.
  rewrite List.app_nil_r in R. rewrite R. reflexivity.
Qed.

(** X19.  Round trip.  The text [json.dumps] writes for a value is read
    back by [json.loads] as that value, for every value without floats
    whose strings and keys hold no surrogate and whose mappings have
    distinct keys: every escape the serializer writes, the pair of
    [\uXXXX] escapes for a code point above U+FFFF included, is undone
    by the decoder, and every integer is read back from its digits. *)
Theorem X19_loads_dumps (v : json) :
  plain v = true -> json_loads (json_dumps v) = Some v.
Proof. exact (loads_dumps v). Qed.

(** ** The script on its own output *)

Lemma splitlines_printed (lines : list pystr) :
  Forall (fun l => one_line l = true /\ l <> []) lines ->
  splitlines (printed_lines lines) = lines.
Proof.
  unfold splitlines, printed_lines.
  induction 1 as [|l lines [Hl Hne] _ IH]; [reflexivity|].
  cbn [flat_map]. rewrite <- List.app_assoc.
  rewrite (splitlines_from_line l Hl). destruct l as [|c l]; [congruence|].
  cbn [app splitlines_from andb]. change (islinebreak 10) with true.
  cbv iota. change (N.eqb 10 13) with false. now rewrite IH.
Qed.

Lemma loads_line_feed (l : pystr) (d : dict) :
  json_loads l = Some (JObj d) ->
  json_loads (l ++ [0x0A%N]) = Some (JObj d).
Proof.
  intros H. pose proof H as H'.
  apply loads_tokens in H' as (B & _).
  apply loads_object_tokens in H as (t & ts & st & L & P).
  unfold json_loads, Json.loads, Json.lex.
  assert (B' : startswith [0xFEFF%N] (l ++ [0x0A%N]) = false).
  { destruct l as [|c l]; [reflexivity|exact B]. }
  rewrite B', lex_run_app, L.
  change (Json.lex_run Json.Idle [10%N])
    with (Some (Json.Idle, @nil Json.token)).
  cbv iota beta. cbn [Json.lex_finish option_map].
  rewrite !List.app_nil_r. unfold Json.parse. now rewrite P.
Qed.

(** A body that is mappings, one per line and each line ended by a line
    feed, gives these mappings in order. *)
Lemma parse_records_printed (lines : list pystr) (ms : list dict) :
  Forall2 (fun l m => json_loads l = Some (JObj m)) lines ms ->
  Forall (fun l => one_line l = true) lines ->
  parse_records (printed_lines lines) = ms.
Proof.
  intros H2 H1.
  assert (Hne : Forall (fun l => one_line l = true /\ l <> []) lines).
  { clear -H2 H1. induction H2 as [|l m lines ms H _ IH]; [constructor|].
    inversion H1; subst. constructor; [|auto].
    split; [assumption|]. intros ->. discriminate H. }
  destruct H2 as [|l1 m1 lines ms Hl1 H2]; [reflexivity|].
  destruct H2 as [|l2 m2 lines ms Hl2 H2].
  - unfold printed_lines. cbn [flat_map]. rewrite List.app_nil_r.
    now rewrite (parse_records_loaded _ _ (loads_line_feed l1 m1 Hl1)).
  - rewrite parse_records_cases.
    assert (N : json_loads (printed_lines (l1 :: l2 :: lines)) = None).
    { unfold printed_lines. cbn [flat_map]. rewrite <- !List.app_assoc.
      exact (loads_two_documents l1 l2 _ m1 m2 Hl1 Hl2). }
    rewrite N. unfold ndjson_lines. rewrite (splitlines_printed _ Hne).
    rewrite <- parse_lines_ndjson. apply parse_lines_objects.
    constructor; [exact Hl1|]. constructor; [exact Hl2|exact H2].
Qed.

Lemma dumped_records (rs : list dict) :
  forallb (fun r => plain (JObj r)) rs = true ->
  Forall2 (fun l m => json_loads l = Some (JObj m)) (map dumps_record rs) rs
  /\ Forall (fun l => one_line l = true) (map dumps_record rs).
Proof.
  induction rs as [|r rs IH]; intros P; [split; constructor|].
  simpl in P. apply andb_true_iff in P as [Pr P].
  destruct (IH P) as [I1 I2]. split; constructor; auto.
  - now apply loads_dumps.
  - apply printable_one_line, json_dumps_printable.
    now apply plain_ascii_floats.
Qed.

(** X20.  Records that were printed are parsed back.  The lines the
    loop prints for a list of records, as they stand on standard output
    with a line feed after each, are a body from which [parse_records]
    returns these records, in order; the same holds when the lines are
    joined by line feeds.  The records are as for the round trip. *)
Theorem X20_printed_records_parse_back (rs : list dict) :
  forallb (fun r => plain (JObj r)) rs = true ->
  parse_records (printed_lines (map dumps_record rs)) = rs
  /\ parse_records (join [0x0A%N] (map dumps_record rs)) = rs.
Proof.
  intros P. destruct (dumped_records rs P) as [H2 H1]. split.
  - now apply parse_records_printed.
  - now apply parse_records_ndjson.
Qed.

(** X21.  The script reproduces its own output.  When the body is what
    an earlier run printed for records, at least one, and this run has
    no filter, no limit and raw mode off, standard output of this run is
    the body again. *)
Theorem X21_own_output_reproduced (args : Args) (env : environ) (now : Z)
    (net : request -> net_result) (r : request) (rs : list dict) :
  main_built_request args env now = Some r ->
  net r = Body (printed_lines (map dumps_record rs)) ->
  arg_raw args = false ->
  no_filters args = true ->
  arg_limit args = None ->
  rs <> [] ->
  forallb (fun r => plain (JObj r)) rs = true ->
  exists w, run (main args env now net) = (Exit 0, w)
            /\ stdout_text w = printed_lines (map dumps_record rs)
            /\ stderr w = [].
Proof.
  intros B N R F L Hne P.
  pose proof (main_after_request args env now net r B) as T.
  rewrite N in T. unfold run. rewrite T. unfold main_output. rewrite R.
  destruct (dumped_records rs P) as [H2 H1].
  rewrite (parse_records_printed _ _ H2 H1).
  destruct rs as [|x xs]; [congruence|].
  destruct (main_loop_prefix args (x :: xs)
              {| stdout := []; stderr := []; sent := [r] |}) as [rest H].
  unfold bind. rewrite H.
  rewrite (filter_all (passes args) (x :: xs)
             (fun rec => no_filters_pass args rec F)).
  rewrite L. eexists. split; [reflexivity|]. split; reflexivity.
Qed.

(** ** The window of a duration *)

Lemma int_nonneg (ds : list Z) :
  Forall (fun d => 0 <= d) ds -> 0 <= int_ ds.
Proof.
  unfold int_. assert (G : forall acc, 0 <= acc ->
                         Forall (fun d => 0 <= d) ds ->
                         0 <= fold_left (fun a d => a * 10 + d) ds acc).
  { induction ds as [|d ds IH]; intros acc Ha F; simpl; [exact Ha|].
    inversion F; subst. apply IH; [lia|assumption]. }
  intros F. apply G; [lia|exact F].
Qed.

Lemma timedelta_nonneg (d h m s total : Z) :
  0 <= d -> 0 <= h -> 0 <= m -> 0 <= s ->
  Time.timedelta d h m s = Ok total -> 0 <= total.
Proof.
  unfold Time.timedelta, Time.US_PER_SECOND. intros Hd Hh Hm Hs.
  destruct (_ >? _); [discriminate|]. intros E. injection E as <-. nia.
Qed.

Lemma parse_duration_nonneg (value : pystr) (delta : Z) :
  (forall c d, decimal_digit c = Some d -> 0 <= d) ->
  parse_duration value = Ok delta -> 0 <= delta.
Proof.
  intros D. pose proof (re_match_duration_text value) as M.
  unfold parse_duration.
  destruct (re_match_duration (strip value)) as [[ds u]|]; [|discriminate].
  destruct M as (cs & _ & _ & _ & _ & ->).
  assert (A : 0 <= int_ (map digit_value cs)).
  { apply int_nonneg. apply Forall_map, Forall_forall. intros c _.
    unfold digit_value. destruct (decimal_digit c) as [d|] eqn:E; [|lia].
    exact (D c d E). }
  destruct (N.eqb u (ch "s")); [apply timedelta_nonneg; lia|].
  destruct (N.eqb u (ch "m")); [apply timedelta_nonneg; lia|].
  destruct (N.eqb u (ch "h")); apply timedelta_nonneg; lia.
Qed.

(** X22.  The window of a duration is ordered.  When [--since] is given
    and the window is resolved, its end is now and its start is not
    after its end and not before the first instant of a datetime;
    nothing was written on the way.  The decimal digits of the
    interpreter have no negative value, which is what this rests on. *)
Theorem X22_since_window_ordered (args : Args) (now : Z) (w w' : world)
    (start_time end_time : Z) :
  (forall c d, decimal_digit c = Some d -> 0 <= d) ->
  truthy (arg_since args) = true ->
  main_window args now w = Next (start_time, end_time) w' ->
  end_time = now /\ 0 <= start_time <= end_time /\ w' = w.
Proof.
  intros D S. unfold main_window.
  destruct (arg_since args) as [[|c since]|]; try discriminate.
  destruct (parse_duration (c :: since)) as [delta|e] eqn:P.
  - apply (parse_duration_nonneg _ _ D) in P.
    unfold Time.datetime_sub.
    destruct (Z.ltb_spec (now - delta) 0) as [L|L]; cbn [orb].
    + discriminate.
    + destruct (now - delta >? Time.DATETIME_MAX); [discriminate|].
      unfold ret. intros E. injection E as <- <- <-.
      repeat split; try reflexivity; lia.
  - destruct e; discriminate.
Qed.

(** ** The window of a duration, for every decimal digit *)

(** [parse_duration] on a text that, trimmed, is decimal digits and a
    unit: the interval, unless it is longer than a [timedelta] can
    hold. *)
Lemma parse_duration_text (value cs : pystr) (u : N) :
  strip value = cs ++ [u] -> cs <> [] ->
  Forall (fun c => decimal_digit c <> None) cs -> is_unit u = true ->
  parse_duration value
  = let total := int_ (map digit_value cs) * unit_seconds u
                 * Time.US_PER_SECOND in
    if Z.abs (total / Time.US_PER_DAY) >? 999999999 then Raise OverflowError
    else Ok total.
Proof.
  intros E Hne F Hu. unfold parse_duration. rewrite E.
  unfold re_match_duration. rewrite (span_decimal_text cs u F Hu).
  destruct cs as [|c cs]; [congruence|].
  change (map digit_value (c :: cs))
    with (digit_value c :: map digit_value cs).
  rewrite Hu.
  change (digit_value c :: map digit_value cs)
    with (map digit_value (c :: cs)).
  set (n := int_ (map digit_value (c :: cs))).
  unfold unit_seconds, Time.timedelta. cbv zeta.
  destruct (unit_cases _ Hu) as [->|[->|[->| ->]]]; simpl N.eqb; cbv iota.
  - replace ((((0 * 24 + 0) * 60 + 0) * 60 + n) * Time.US_PER_SECOND)
      with (n * 1 * Time.US_PER_SECOND) by ring. reflexivity.
  - replace ((((0 * 24 + 0) * 60 + n) * 60 + 0) * Time.US_PER_SECOND)
      with (n * 60 * Time.US_PER_SECOND) by ring. reflexivity.
  - replace ((((0 * 24 + n) * 60 + 0) * 60 + 0) * Time.US_PER_SECOND)
      with (n * 3600 * Time.US_PER_SECOND) by ring. reflexivity.
  - replace ((((n * 24 + 0) * 60 + 0) * 60 + 0) * Time.US_PER_SECOND)
      with (n * 86400 * Time.US_PER_SECOND) by ring. reflexivity.
Qed.

(** The window of such a text: [OverflowError] leaves [main] when the
    interval is longer than a [timedelta] can hold or the start would
    not be a datetime; otherwise the window is resolved. *)
Lemma main_window_text (args : Args) (since cs : pystr) (u : N) (now : Z)
    (w : world) :
  arg_since args = Some since ->
  strip since = cs ++ [u] -> cs <> [] ->
  Forall (fun c => decimal_digit c <> None) cs -> is_unit u = true ->
  main_window args now w
  = let total := int_ (map digit_value cs) * unit_seconds u
                 * Time.US_PER_SECOND in
    if Z.abs (total / Time.US_PER_DAY) >? 999999999
    then Throw OverflowError w
    else if (now - total <? 0) || (now - total >? Time.DATETIME_MAX)
         then Throw OverflowError w
         else Next (now - total, now) w.
Proof.
  intros S E Hne F Hu. unfold main_window. rewrite S.
  destruct since as [|c since];
    [destruct cs; discriminate E|].
  rewrite (parse_duration_text (c :: since) cs u E Hne F Hu). cbv zeta.
  destruct (Z.abs _ >? 999999999); [reflexivity|].
  unfold Time.datetime_sub. destruct (_ || _); reflexivity.
Qed.

(** C6, amended.  For every duration text that, trimmed, is decimal
    digits, at most 4300 of them, followed by one of [s], [m], [h], [d],
    with [n] the number [int()] reads from the digits: when [n] times
    the length of the unit does not reach back from [now] beyond the
    first instant a datetime can hold, the window is resolved with [end]
    equal to [now] and [end - start] equal to [n] times the length of
    the unit (here in microseconds).  The digits are those of [\d], of
    any script, and have no negative value.  With more than 4300 digits
    [int()] raises [ValueError], which [main] prints before it returns
    1; the embedding does not have that path, whence the hypothesis. *)
Theorem C6_duration_window (args : Args) (since cs : pystr) (u : N)
    (now : Z) (w : world) :
  (forall c d, decimal_digit c = Some d -> 0 <= d) ->
  arg_since args = Some since ->
  strip since = cs ++ [u] ->
  cs <> [] ->
  Forall (fun c => decimal_digit c <> None) cs ->
  Nat.leb (List.length cs) INT_MAX_STR_DIGITS = true ->
  is_unit u = true ->
  0 <= now <= Time.DATETIME_MAX ->
  int_ (map digit_value cs) * unit_seconds u * Time.US_PER_SECOND <= now ->
  exists start_time end_time,
    main_window args now w = Next (start_time, end_time) w
    /\ end_time = now
    /\ end_time - start_time
       = int_ (map digit_value cs) * unit_seconds u * Time.US_PER_SECOND.
Proof.
  intros D S E Hne F _ Hu Hnow Hlen.
  set (total := int_ (map digit_value cs) * unit_seconds u
                * Time.US_PER_SECOND) in *.
  exists (now - total), now. split; [|split; [reflexivity | lia]].
  rewrite (main_window_text args since cs u now w S E Hne F Hu). cbv zeta.
  fold total.
  assert (Hn : 0 <= int_ (map digit_value cs)).
  { apply int_nonneg. apply Forall_map, Forall_forall. intros c _.
    unfold digit_value. destruct (decimal_digit c) as [d|] eqn:Ec; [|lia].
    exact (D c d Ec). }
  assert (Hu0 : 0 < unit_seconds u).
  { destruct (unit_cases u Hu) as [->|[->|[->| ->]]]; reflexivity. }
  assert (Ht : 0 <= total) by (unfold total, Time.US_PER_SECOND; nia).
  assert (Hday : 0 < Time.US_PER_DAY) by reflexivity.
  assert (Hmax : Time.DATETIME_MAX < 999999999 * Time.US_PER_DAY)
    by reflexivity.
  rewrite Z.abs_eq by (apply Z.div_pos; [exact Ht | exact Hday]).
  destruct (Z.gtb_spec (total / Time.US_PER_DAY) 999999999) as [Hbig|Hok].
  - pose proof (Z.mul_div_le total Time.US_PER_DAY Hday). nia.
  - destruct (Z.ltb_spec (now - total) 0); [lia|].
    destruct (Z.gtb_spec (now - total) Time.DATETIME_MAX); [lia|].
    reflexivity.
Qed.

(** X11.  With the credentials in place, a duration text of at most
    4300 decimal digits and a unit that reaches back from now beyond the
    first instant a datetime can hold ends the run with [OverflowError]
    before anything is written or sent.  (With more digits [int()]
    raises [ValueError], which [main] prints before it returns 1; the
    embedding does not have that path, whence the hypothesis.) *)
Theorem X11_duration_overflow (args : Args) (env : environ) (now : Z)
    (net : request -> net_result) (since cs : pystr) (u : N) :
  truthy (env (py "CLOUDFLARE_ACCOUNT_ID")) = true ->
  truthy (env (py "CLOUDFLARE_API_TOKEN")) = true ->
  arg_since args = Some since ->
  strip since = cs ++ [u] ->
  cs <> [] ->
  Forall (fun c => decimal_digit c <> None) cs ->
  Nat.leb (List.length cs) INT_MAX_STR_DIGITS = true ->
  is_unit u = true ->
  now < int_ (map digit_value cs) * unit_seconds u * Time.US_PER_SECOND ->
  run (main args env now net) = (Crash OverflowError, world0).
Proof.
  intros A T S E Hne F _ Hu Hlong. unfold run, main, main_input, bind.
  rewrite (credentials_present env A T).
  rewrite (main_window_text args since cs u now world0 S E Hne F Hu).
  cbv zeta. destruct (Z.abs _ >? 999999999); [reflexivity|].
  destruct (Z.ltb_spec
              (now - int_ (map digit_value cs) * unit_seconds u
                     * Time.US_PER_SECOND) 0); [reflexivity | lia].
Qed.

End Behaviour.

(** * The claims on concrete runs *)

Import Sample.

(** C1 as stated fails when both are given: with [--since 15m] and a
    [--from]/[--to] pair the program sends its request and exits 0. *)
Lemma C1_both_given_counterexample :
  fst run_both = Exit 0
  /\ List.length (sent (snd run_both)) = 1%nat
  /\ stderr (snd run_both) = []
  /\ ~ (fst run_both = Exit 1 /\ sent (snd run_both) = []).
Proof.
  vm_compute. repeat split. intros [H _]. discriminate H.
Qed.

Lemma C1_window_arguments_witness :
  (exists msg,
     run_no_window
     = (Exit 1, {| stdout := []; stderr := [msg]; sent := [] |}))
  /\ (forall w,
        main both_args Sample.env noon (serves (py "[]")) w
        = main (without_bounds both_args) Sample.env noon (serves (py "[]")) w).
Proof.
  split.
  - refine (proj1 (@C1_window_arguments runtime no_args Sample.env noon
                     (serves (py "[]"))) _ _);
      [reflexivity | left; reflexivity].
  - refine (proj2 (@C1_window_arguments runtime both_args Sample.env noon
                     (serves (py "[]"))) _).
    reflexivity.
Defined.

Lemma C3_two_empty_outputs_witness :
  (exists w', run (main (since_args (py "15m")) Sample.env noon
                     (serves (py "no logs")))
              = (Exit 0, w') /\ stdout w' = [strip (py "no logs")])
  /\ (exists w', run (main (ray_args (py "abc") None) Sample.env noon
                        (serves (pyq "{'RayID': 'xyz999'}")))
                 = (Exit 0, w') /\ stdout w' = [] /\ stdout_text w' = []).
Proof.
  split.
  - refine (proj1 (@C3_two_empty_outputs runtime (since_args (py "15m"))
                     Sample.env noon (serves _) (py "no logs") _ _ _) _);
      [vm_compute; reflexivity | reflexivity | reflexivity].
  - refine (proj2 (@C3_two_empty_outputs runtime (ray_args (py "abc") None)
                     Sample.env noon (serves _)
                     (pyq "{'RayID': 'xyz999'}") _ _ _) _ _);
      [vm_compute; reflexivity | reflexivity | vm_compute; discriminate
      | vm_compute; reflexivity].
Defined.

(** C5 as stated fails: on an empty body the program exits 0, but
    [print] is called once, on the empty text, so standard output holds
    one line feed: one empty line, not none. *)
Lemma C5_empty_body_counterexample :
  fst run_empty_body = Exit 0
  /\ stdout (snd run_empty_body) = [[]]
  /\ stdout_text (snd run_empty_body) = [0x0A%N]
  /\ stdout_text (snd run_empty_body) <> [].
Proof. vm_compute. repeat split. discriminate. Qed.

Lemma C5_empty_body_witness :
  exists w', run (main (since_args (py "15m")) Sample.env noon
                    (serves (py "  ")))
             = (Exit 0, w')
             /\ stdout w' = [[]] /\ stdout_text w' = [0x0A%N].
Proof.
  refine (@C5_empty_body runtime (since_args (py "15m")) Sample.env noon
            (serves _) (py "  ") _ _ _ _);
    [vm_compute; reflexivity | reflexivity | reflexivity].
Defined.

(** C6 as stated fails for a long duration: [1000000d] is a valid
    duration string, but a million days before now is before the first
    instant a datetime can hold.  The subtraction raises [OverflowError],
    which [main] does not catch: no window is resolved, no request is
    sent. *)
Lemma C6_long_duration_counterexample :
  parse_duration (py "1000000d")
  = Ok (1000000 * 86400 * Time.US_PER_SECOND)%Z
  /\ main_window (since_args (py "1000000d")) noon world0
     = Throw OverflowError world0
  /\ run_long_since = (Crash OverflowError, world0).
Proof. vm_compute. repeat split. Qed.

Lemma C6_duration_window_witness :
  exists start_time end_time,
    main_window (since_args (py " 15m")) noon world0
    = Next (start_time, end_time) world0
    /\ end_time = noon
    /\ (end_time - start_time
        = int_ (map digit_value (py "15")) * unit_seconds (ch "m")
          * Time.US_PER_SECOND)%Z.
Proof.
  refine (@C6_duration_window runtime (since_args (py " 15m")) (py " 15m")
            (py "15") (ch "m") noon world0 _ _ _ _ _ _ _ _ _);
    [ | reflexivity | reflexivity | discriminate
    | repeat constructor; discriminate | reflexivity | reflexivity
    | split; vm_compute; discriminate | vm_compute; discriminate].
  intros c d. unfold decimal_digit, runtime, runtime_with, decimal.
  destruct (Json.is_digit c) eqn:E; [|discriminate].
  intros H. injection H as <-.
  unfold Json.is_digit, in_range in E. apply andb_true_iff in E as [E _].
  apply N.leb_le in E. lia.
Defined.

Lemma C7_limit_short_circuit_witness :
  exists seen last rest,
    five_records = seen ++ last :: rest
    /\ passes (ray_args (py "abc") (Some 2%Z)) last = true
    /\ filter (passes (ray_args (py "abc") (Some 2%Z))) (seen ++ [last])
       = firstn (Z.to_nat 2)
           (filter (passes (ray_args (py "abc") (Some 2%Z))) five_records)
    /\ let printed :=
         map dumps_record
           (filter (passes (ray_args (py "abc") (Some 2%Z))) (seen ++ [last]))
       in
       Z.of_nat (List.length printed) = 2%Z
       /\ main_loop (ray_args (py "abc") (Some 2%Z)) five_records 0 world0
          = Next rest (emitted world0 printed)
       /\ forall rest',
            main_loop (ray_args (py "abc") (Some 2%Z))
              (seen ++ last :: rest') 0 world0
            = Next rest' (emitted world0 printed).
Proof.
  refine (@C7_limit_short_circuit runtime (ray_args (py "abc") (Some 2%Z))
            2%Z five_records world0 _ _ _);
    [reflexivity | reflexivity | vm_compute; discriminate].
Defined.

Lemma C9_null_alias_rejects_witness :
  dict_get null_ray_record (py "ray_id") = Some (JStr (py "abc"))
  /\ contains (py "abc") (py "abc") = true
  /\ get_value null_ray_record (field_keys Ray) = None
  /\ skips (field_filter (ray_args (py "abc") None) Ray) null_ray_record
       (field_keys Ray) = true
  /\ passes (ray_args (py "abc") None) null_ray_record = false.
Proof.
  split; [reflexivity | split; [reflexivity|]].
  refine (@C9_null_alias_rejects runtime (ray_args (py "abc") None) Ray
            null_ray_record (py "RayID") [py "RayId"; py "ray_id"] _ _ _);
    reflexivity.
Defined.

Lemma C10_limit_zero_is_no_limit_witness :
  main_loop (ray_args (py "abc") (Some 0%Z)) five_records 0 world0
  = Next []
      (emitted world0
         (map dumps_record
            (filter (passes (ray_args (py "abc") (Some 0%Z))) five_records))).
Proof.
  refine (@C10_limit_zero_is_no_limit runtime (ray_args (py "abc") (Some 0%Z))
            five_records world0 _).
  reflexivity.
Defined.

(** * The further properties on concrete runs *)

Lemma X1_missing_credentials_witness :
  run (main no_args bare_env noon (serves (py "[]")))
  = (Exit 1,
     {| stdout := [];
        stderr := [py "Missing CLOUDFLARE_ACCOUNT_ID or CLOUDFLARE_API_TOKEN"];
        sent := [] |}).
Proof.
  refine (@X1_missing_credentials runtime no_args bare_env noon (serves _) _).
  left. reflexivity.
Defined.

Lemma X3_transport_witness :
  run (main (since_args (py "15m")) Sample.env noon refuses)
  = (Exit 1,
     {| stdout := [];
        stderr := [py "Logpull error: 403 Forbidden"; py "denied"];
        sent := [since_request] |}).
Proof.
  refine (@X3_transport runtime (since_args (py "15m")) Sample.env noon
            refuses since_request _ _);
    [vm_compute; reflexivity | reflexivity].
Defined.

Lemma X5_raw_mode_witness :
  run (main raw_args Sample.env noon (serves (py " [1] ")))
  = (Exit 0,
     {| stdout := [py " [1] "]; stderr := []; sent := [since_request] |}).
Proof.
  refine (@X5_raw_mode runtime raw_args Sample.env noon (serves _)
            since_request (py " [1] ") _ _ _);
    [vm_compute; reflexivity | reflexivity | reflexivity].
Defined.

Lemma X6_unfiltered_output_witness :
  run (main (since_args (py "15m")) Sample.env noon
         (serves (pyq "[{'b':1}, 2, {'c':null}]")))
  = (Exit 0,
     {| stdout := map dumps_record
                    (capped (limit_cap None)
                       (parse_records (pyq "[{'b':1}, 2, {'c':null}]")));
        stderr := []; sent := [since_request] |}).
Proof.
  refine (@X6_unfiltered_output runtime (since_args (py "15m")) Sample.env
            noon (serves _) since_request (pyq "[{'b':1}, 2, {'c':null}]")
            _ _ _ _ _);
    [vm_compute; reflexivity | reflexivity | reflexivity | reflexivity
    | vm_compute; discriminate].
Defined.

Lemma X7_surrounding_blanks_witness :
  parse_duration (py "  " ++ py "15m" ++ [0x0A%N]) = parse_duration (py "15m")
  /\ parse_iso (py "  " ++ py "15m" ++ [0x0A%N]) = parse_iso (py "15m").
Proof.
  refine (@X7_surrounding_blanks runtime (py "  ") (py "15m") [0x0A%N] _ _);
    reflexivity.
Defined.

Lemma X10_malformed_duration_witness :
  run (main (since_args (py "soon")) Sample.env noon (serves (py "[]")))
  = (Exit 1,
     {| stdout := [];
        stderr := [py "Duration must be like 15m, 2h, 1d"];
        sent := [] |}).
Proof.
  refine (@X10_malformed_duration runtime (since_args (py "soon")) Sample.env
            noon (serves _) (py "soon") _ _ _ _ _);
    [reflexivity | reflexivity | reflexivity | discriminate |].
  intros (cs & u & Hne & F & _ & E).
  destruct cs as [|c cs]; [congruence|].
  vm_compute in E. injection E as Ec _. subst c.
  inversion F as [|? ? Hc _]. apply Hc. reflexivity.
Defined.

Lemma X11_duration_overflow_witness :
  run (main (since_args (py "1000000d")) Sample.env noon (serves (py "[]")))
  = (Crash OverflowError, world0).
Proof.
  refine (@X11_duration_overflow runtime (since_args (py "1000000d"))
            Sample.env noon (serves _) (py "1000000d") (py "1000000")
            (ch "d") _ _ _ _ _ _ _ _ _);
    [reflexivity | reflexivity | reflexivity | reflexivity | discriminate
    | repeat constructor; discriminate | reflexivity | reflexivity
    | vm_compute; reflexivity].
Defined.


Lemma X16_body_without_records_witness :
  run (main (since_args (py "15m")) Sample.env noon
         (serves (py " no logs in this window ")))
  = (Exit 0,
     {| stdout := [strip (py " no logs in this window ")];
        stderr := []; sent := [since_request] |}).
Proof.
  refine (@X16_body_without_records runtime (since_args (py "15m"))
            Sample.env noon (serves _) since_request
            (py " no logs in this window ") _ _ _ _ _);
    [vm_compute; reflexivity | reflexivity | reflexivity | reflexivity
    | vm_compute; reflexivity].
Defined.

Lemma X15_blank_test_redundant_witness :
  json_loads [0x20%N; 0x0A%N; 0x09%N; 0x2028%N; 0x20%N] = None
  /\ parse_lines (splitlines [0x20%N; 0x0A%N; 0x09%N; 0x2028%N; 0x20%N]) = []
  /\ parse_records [0x20%N; 0x0A%N; 0x09%N; 0x2028%N; 0x20%N] = [].
Proof.
  refine (X15_blank_test_redundant
            [0x20%N; 0x0A%N; 0x09%N; 0x2028%N; 0x20%N] _).
  reflexivity.
Defined.

Lemma X17_ascii_line_witness :
  forallb printable (json_dumps (JObj mixed_record)) = true
  /\ one_line (json_dumps (JObj mixed_record)) = true.
Proof.
  refine (@X17_ascii_line runtime (JObj mixed_record) _). reflexivity.
Defined.

Lemma X18_contains_beyond_ascii_witness :
  passes (contains_args [0x1F600%N]) mixed_record = false.
Proof.
  refine (@X18_contains_beyond_ascii runtime (contains_args [0x1F600%N])
            mixed_record [0x1F600%N] _ _ _);
    reflexivity.
Defined.

Lemma X19_loads_dumps_witness :
  json_loads (json_dumps (JObj mixed_record)) = Some (JObj mixed_record).
Proof.
  refine (@X19_loads_dumps runtime (JObj mixed_record) _). reflexivity.
Defined.

Lemma X20_printed_records_parse_back_witness :
  parse_records (printed_lines (map dumps_record (mixed_record :: five_records)))
  = mixed_record :: five_records
  /\ parse_records
       (join [0x0A%N] (map dumps_record (mixed_record :: five_records)))
     = mixed_record :: five_records.
Proof.
  refine (@X20_printed_records_parse_back runtime
            (mixed_record :: five_records) _).
  vm_compute. reflexivity.
Defined.

Lemma X21_own_output_reproduced_witness :
  exists w,
    run (main (since_args (py "15m")) Sample.env noon
           (serves (printed_lines (map dumps_record five_records))))
    = (Exit 0, w)
    /\ stdout_text w = printed_lines (map dumps_record five_records)
    /\ stderr w = [].
Proof.
  refine (@X21_own_output_reproduced runtime (since_args (py "15m"))
            Sample.env noon (serves _) since_request five_records
            _ _ _ _ _ _ _);
    [vm_compute; reflexivity | reflexivity | reflexivity | reflexivity
    | reflexivity | discriminate | vm_compute; reflexivity].
Defined.

Lemma X22_since_window_ordered_witness :
  noon = noon
  /\ (0 <= noon - 15 * 60 * Time.US_PER_SECOND <= noon)%Z
  /\ world0 = world0.
Proof.
  refine (@X22_since_window_ordered runtime (since_args (py "15m")) noon
            world0 world0 (noon - 15 * 60 * Time.US_PER_SECOND)%Z noon _ _ _);
    [|reflexivity|vm_compute; reflexivity].
  intros c d. unfold decimal_digit, runtime, runtime_with, decimal.
  destruct (Json.is_digit c) eqn:E; [|discriminate].
  intros H. injection H as <-.
  unfold Json.is_digit, in_range in E. apply andb_true_iff in E as [E _].
  apply N.leb_le in E. lia.
Defined.
